(** * Text extraction engine of [document_analyzer_improved.py]

    A shallow embedding of [CacheManager] and [DocumentProcessor]
    (the result cache, the per-format extractors, the PDF fallback
    chain, the archive extractor and the diagnosis of a file), of the
    dependency report and of the batch loop of the application class,
    with the properties the specification states about them and
    further properties read off the code.

    Conventions.
    - A Python [str] is a Rocq [string] holding its UTF-8 bytes; a
      Python [bytes] object is a [list Byte.byte].
    - The libraries the program calls (pdfplumber, PyMuPDF, PyPDF2,
      pdf2image, pytesseract, python-docx, textract, zipfile, the
      codecs) are an oracle [env]: pure functions of the content of the
      file they are given.
    - The processor is run in a state-and-exception monad; the state
      carries the cache, the error log, the file system, and a ghost
      trace of every extractor entry and library call.
    - Writing and removing a temporary file succeed in this model;
      [Fallible] has the code that uses temporary files once more,
      over an operating system on which they can fail. *)

From Stdlib Require Import String Ascii List Bool Arith Lia DecimalString DecimalNat.
From stdpp Require Import gmap strings list.
Import ListNotations.
Open Scope string_scope.

(* ------------------------------------------------------------------ *)
(** ** Python string operations *)

Module PyStr.

Definition nl : string := String (ascii_of_nat 10) EmptyString.

(** [str(n)] for a non-negative integer. *)
Definition of_nat (n : nat) : string := NilEmpty.string_of_uint (Nat.to_uint n).

(** [s.lower()]. Only the ASCII letters are mapped. Python also maps
    the other cased letters, but the only code points outside ASCII
    whose lower case contains an ASCII letter are U+0130 (giving i)
    and U+212A (giving k); every needle and extension this program
    compares a lowered string with is ASCII, and none that contains
    i or k can be matched through them. *)
Definition lower_ascii (c : ascii) : ascii :=
  let n := nat_of_ascii c in
  if Nat.leb 65 n && Nat.leb n 90 then ascii_of_nat (n + 32) else c.

Fixpoint lower (s : string) : string :=
  match s with
  | EmptyString => EmptyString
  | String c r => String (lower_ascii c) (lower r)
  end.

(** [needle in hay]. *)
Fixpoint contains (needle hay : string) : bool :=
  String.prefix needle hay ||
  match hay with
  | EmptyString => false
  | String _ r => contains needle r
  end.

(** [s.endswith(suf)]. *)
Fixpoint endswith (s suf : string) : bool :=
  String.eqb s suf ||
  match s with
  | EmptyString => false
  | String _ r => endswith r suf
  end.

(** [s.endswith((suf1, suf2, ...))] and [any(s.endswith(x) for x in sufs)]. *)
Definition endswith_any (s : string) (sufs : list string) : bool :=
  existsb (endswith s) sufs.

(** [x in (a, b, ...)] for strings. *)
Definition mem (x : string) (l : list string) : bool :=
  existsb (String.eqb x) l.

(** *** [str.strip()]

    Python strips the code points for which [str.isspace] holds:
    U+0009..U+000D, U+001C..U+0020, U+0085, U+00A0, U+1680,
    U+2000..U+200A, U+2028, U+2029, U+202F, U+205F, U+3000.  Below
    they are listed by their UTF-8 encoding. *)
Definition ws_codes : list (list nat) :=
  [ [9]; [10]; [11]; [12]; [13]; [28]; [29]; [30]; [31]; [32];
    [194; 133]; [194; 160];
    [225; 154; 128];
    [226; 128; 128]; [226; 128; 129]; [226; 128; 130]; [226; 128; 131];
    [226; 128; 132]; [226; 128; 133]; [226; 128; 134]; [226; 128; 135];
    [226; 128; 136]; [226; 128; 137]; [226; 128; 138];
    [226; 128; 168]; [226; 128; 169]; [226; 128; 175];
    [226; 129; 159];
    [227; 128; 128] ].

Definition ws_patterns : list (list ascii) := map (map ascii_of_nat) ws_codes.

Fixpoint strip_prefix (pat l : list ascii) : option (list ascii) :=
  match pat, l with
  | [], _ => Some l
  | p :: pat', c :: l' => if Ascii.eqb p c then strip_prefix pat' l' else None
  | _ :: _, [] => None
  end.

(** Remove one white-space character from the front, if there is one. *)
Fixpoint strip_one (pats : list (list ascii)) (l : list ascii) : option (list ascii) :=
  match pats with
  | [] => None
  | pat :: pats' =>
      match strip_prefix pat l with
      | Some l' => Some l'
      | None => strip_one pats' l
      end
  end.

Fixpoint drop_ws (pats : list (list ascii)) (fuel : nat) (l : list ascii) : list ascii :=
  match fuel with
  | 0 => l
  | S n =>
      match strip_one pats l with
      | Some l' => drop_ws pats n l'
      | None => l
      end
  end.

Definition lstrip_l (l : list ascii) : list ascii :=
  drop_ws ws_patterns (length l) l.

Definition rstrip_l (l : list ascii) : list ascii :=
  rev (drop_ws (map (@rev ascii) ws_patterns) (length l) (rev l)).

Definition strip (s : string) : string :=
  string_of_list_ascii (rstrip_l (lstrip_l (list_ascii_of_string s))).

(** Truth value of a string: [bool(s)]. *)
Definition truthy (s : string) : bool :=
  match s with EmptyString => false | _ => true end.

(** [bool(s and s.strip())], also for [s = None]. *)
Definition has_text (s : string) : bool := truthy s && truthy (strip s).

Definition has_text_opt (s : option string) : bool :=
  match s with Some t => has_text t | None => false end.

(** [sep.join(l)]. *)
Definition join (sep : string) (l : list string) : string := String.concat sep l.

(** *** [PurePath(p).suffix], Python 3.12, POSIX flavour.

    [name] is the text after the last [/]; with [i = name.rfind('.')]
    the suffix is [name[i:]] when [0 < i < len(name) - 1] and the
    empty string otherwise.  The path is read from its end. *)
Definition slash : ascii := ascii_of_nat 47.
Definition dot : ascii := ascii_of_nat 46.

Fixpoint take_until (stop : ascii) (l : list ascii) : list ascii :=
  match l with
  | [] => []
  | c :: r => if Ascii.eqb c stop then [] else c :: take_until stop r
  end.

Fixpoint drop_until (stop : ascii) (l : list ascii) : option (list ascii) :=
  match l with
  | [] => None
  | c :: r => if Ascii.eqb c stop then Some r else drop_until stop r
  end.

Definition is_nil {A} (l : list A) : bool :=
  match l with [] => true | _ => false end.

Definition suffix_l (p : list ascii) : list ascii :=
  let rname := take_until slash (rev p) in
  match drop_until dot rname with
  | None => []
  | Some before =>
      let after := take_until dot rname in
      if is_nil before || is_nil after then [] else dot :: rev after
  end.

Definition suffix (p : string) : string :=
  string_of_list_ascii (suffix_l (list_ascii_of_string p)).

End PyStr.

(* ------------------------------------------------------------------ *)
(** ** Exceptions, the outside world and the processor state *)

(** The exception classes the program raises or tells apart in an
    [except] clause.  [LibError_] stands for any other subclass of
    [Exception] raised by a library. *)
Inductive exn_kind :=
| Exception_ | ImportError_ | UnicodeDecodeError_ | TypeError_ | OSError_ | LibError_.

Record exn := mk_exn { exn_kind_of : exn_kind; exn_msg : string }.

(** [str(e)]. *)
Definition str_of_exn (e : exn) : string := exn_msg e.

Definition is_kind (k : exn_kind) (e : exn) : bool :=
  match k, exn_kind_of e with
  | Exception_, Exception_ | ImportError_, ImportError_
  | UnicodeDecodeError_, UnicodeDecodeError_ | TypeError_, TypeError_
  | OSError_, OSError_ | LibError_, LibError_ => true
  | _, _ => false
  end.

Inductive encoding := utf_8 | cp1251 | latin_1.

Abbreviation bytes := (list Byte.byte).

(** What a PDF library answers for one page: [extract_text()] /
    [get_text()] returns a string or [None], or raises. *)
Inductive page_result :=
| PageOk (text : option string)
| PageFails (e : exn).

(** Outcome of [subprocess.run([tesseract, img, 'stdout', ...], timeout=30)]. *)
Inductive subprocess_result :=
| SubprocessFails (e : exn)
| Completed (returncode : nat) (stdout : bytes).

(** A rasterized page: what [pytesseract.image_to_string] answers for
    it, its PNG bytes, and what the tesseract command line answers. *)
Record page_image := {
  img_to_string : exn + string;
  img_png : bytes;
  img_tesseract : subprocess_result
}.

(** One member of a ZIP archive: its name in [namelist()] and the
    outcome of [zip_file.open(name).read()]. *)
Record zip_entry := {
  entry_name : string;
  entry_read : exn + bytes
}.

(** An opened archive: the exception [testzip()] raises, if any, and
    the members in [namelist()] order. *)
Record zip_archive := {
  zip_testzip : option exn;
  zip_entries : list zip_entry
}.

(** The outside world.  Each library is a function of the bytes of the
    file it is pointed at. *)
Record env := {
  TESSERACT_AVAILABLE : bool;
  TEXTTRACT_AVAILABLE : bool;
  (** value of [self._cancelled] at its k-th read (another thread sets it) *)
  cancelled_at : nat -> bool;
  (** [pdfplumber.open(path)] and [pdf.pages] *)
  pdfplumber_open : bytes -> exn + list page_result;
  fitz_installed : bool;
  (** [fitz.open(path)], [len(doc)], then per page [load_page(i).get_text()] *)
  fitz_open : bytes -> exn + list page_result;
  PyPDF2_installed : bool;
  (** [PyPDF2.PdfReader(file)], [pdf_reader.pages] and [pdf_reader.is_encrypted] *)
  PdfReader : bytes -> exn + (list page_result * bool);
  pdf2image_installed : bool;
  (** first directory of [poppler_paths] that holds pdftoppm.exe *)
  poppler_dir : option string;
  (** [subprocess.run(['pdftoppm', '-h'])] ends with return code 0 *)
  pdftoppm_on_path : bool;
  (** [convert_from_path(path, dpi=300, ...)] *)
  convert_from_path : bytes -> exn + list page_image;
  (** [Image.open(path)] then [pytesseract.image_to_string(image, lang='rus+eng')] *)
  image_ocr : bytes -> exn + string;
  (** [Document(path).paragraphs], the text of each paragraph *)
  Document : bytes -> exn + list string;
  (** [textract.process(path)] *)
  textract_process : bytes -> exn + bytes;
  (** [zipfile.ZipFile(path, 'r')] *)
  ZipFile : bytes -> exn + zip_archive;
  (** [b.decode(enc)]; [None] is [UnicodeDecodeError] *)
  decode : encoding -> bytes -> option string;
  (** [b.decode('utf-8', errors='ignore')] *)
  decode_ignore : bytes -> string
}.

(** A file: its bytes and its modification time.  [st_mtime] is a float
    in Python; only its printed form is used (in the freshness
    signature), so a natural number stands for it. *)
Record file := { f_content : bytes; f_mtime : nat }.

(** [CacheManager.cache[filepath]]: the dict with keys hash, text, timestamp. *)
Record CacheRecord := {
  rec_hash : string;
  rec_text : string;
  rec_timestamp : nat
}.

Inductive extractor :=
| XPdf | XImage | XDocx | XLegacyDoc | XText | XArchive | XPdfSimple.

Inductive pdf_lib := Pdfplumber | PyMuPDF | PyPDF2.

(** The four stages of the PDF fallback chain. *)
Inductive stage := Primary | Secondary | Tertiary | OcrRecovery.

(** Ghost trace: entries of format extractors and calls of libraries. *)
Inductive event :=
| Enter (x : extractor) (path : string)
| Attempt (st : stage)
| OpenPdf (l : pdf_lib) (path : string)
| PageQuery (l : pdf_lib) (i : nat)
| Rasterize (path : string)
| OcrPage (i : nat)
| OcrCli (i : nat)
| ReadEntry (name : string).

Record state := {
  cache : gmap string CacheRecord;     (* cache_manager.cache *)
  error_log : list string;             (* self.error_log *)
  fs : gmap string file;               (* the file system *)
  clock : nat;                         (* readings of datetime.now() so far *)
  flag_reads : nat;                    (* reads of self._cancelled so far *)
  tmp_ctr : nat;                       (* temporary files created so far *)
  trace : list event                   (* ghost *)
}.

Definition set_cache (c : gmap string CacheRecord) (s : state) : state :=
  {| cache := c; error_log := error_log s; fs := fs s; clock := clock s;
     flag_reads := flag_reads s; tmp_ctr := tmp_ctr s; trace := trace s |}.
Definition set_error_log (l : list string) (s : state) : state :=
  {| cache := cache s; error_log := l; fs := fs s; clock := clock s;
     flag_reads := flag_reads s; tmp_ctr := tmp_ctr s; trace := trace s |}.
Definition set_fs (f : gmap string file) (s : state) : state :=
  {| cache := cache s; error_log := error_log s; fs := f; clock := clock s;
     flag_reads := flag_reads s; tmp_ctr := tmp_ctr s; trace := trace s |}.
Definition set_clock (n : nat) (s : state) : state :=
  {| cache := cache s; error_log := error_log s; fs := fs s; clock := n;
     flag_reads := flag_reads s; tmp_ctr := tmp_ctr s; trace := trace s |}.
Definition set_flag_reads (n : nat) (s : state) : state :=
  {| cache := cache s; error_log := error_log s; fs := fs s; clock := clock s;
     flag_reads := n; tmp_ctr := tmp_ctr s; trace := trace s |}.
Definition set_tmp_ctr (n : nat) (s : state) : state :=
  {| cache := cache s; error_log := error_log s; fs := fs s; clock := clock s;
     flag_reads := flag_reads s; tmp_ctr := n; trace := trace s |}.
Definition set_trace (t : list event) (s : state) : state :=
  {| cache := cache s; error_log := error_log s; fs := fs s; clock := clock s;
     flag_reads := flag_reads s; tmp_ctr := tmp_ctr s; trace := t |}.

(* ------------------------------------------------------------------ *)
(** ** The monad: state, exceptions, and fuel for the one recursion *)

Inductive outcome (A : Type) :=
| Ok (a : A)
| Raise (e : exn)
| OutOfFuel.
Arguments Ok {A} a.
Arguments Raise {A} e.
Arguments OutOfFuel {A}.

Definition M (A : Type) : Type := state -> outcome A * state.

Definition ret {A} (a : A) : M A := fun s => (Ok a, s).

Definition bind {A B} (m : M A) (k : A -> M B) : M B :=
  fun s =>
    match m s with
    | (Ok a, s') => k a s'
    | (Raise e, s') => (Raise e, s')
    | (OutOfFuel, s') => (OutOfFuel, s')
    end.

Notation "x <~ m ;; k" := (bind m (fun x => k))
  (at level 100, m at next level, right associativity).
Notation "m ;;> k" := (bind m (fun _ => k))
  (at level 100, right associativity).

(** [raise Exception(msg)] and friends. *)
Definition raise {A} (k : exn_kind) (msg : string) : M A :=
  fun s => (Raise (mk_exn k msg), s).

Definition reraise {A} (e : exn) : M A := fun s => (Raise e, s).

(** [try: m  except Exception as e: h e].  Every exception class of the
    model derives from [Exception]. *)
Definition try_except {A} (m : M A) (h : exn -> M A) : M A :=
  fun s =>
    match m s with
    | (Raise e, s') => h e s'
    | r => r
    end.

(** [try: m  finally: c], for a [c] that does not raise. *)
Definition try_finally {A} (m : M A) (c : M unit) : M A :=
  fun s =>
    match m s with
    | (r, s') => (r, snd (c s'))
    end.

(** Run [m] and hand its exception, if any, to the caller as a value. *)
Definition attempt {A} (m : M A) : M (exn + A) :=
  fun s =>
    match m s with
    | (Ok a, s') => (Ok (inr a), s')
    | (Raise e, s') => (Ok (inl e), s')
    | (OutOfFuel, s') => (OutOfFuel, s')
    end.

Definition out_of_fuel {A} : M A := fun s => (OutOfFuel, s).

Definition emit (ev : event) : M unit :=
  fun s => (Ok tt, set_trace (trace s ++ [ev]) s).

(** [datetime.now()]. *)
Definition now : M nat :=
  fun s => (Ok (clock s), set_clock (S (clock s)) s).

(** Lift the answer of a library: return it or raise its exception. *)
Definition lift {A} (r : exn + A) : M A :=
  match r with
  | inl e => reraise e
  | inr a => ret a
  end.

(* ------------------------------------------------------------------ *)
(** ** Operating-system primitives *)

Definition no_such_file (path : string) : exn :=
  mk_exn OSError_ ("[Errno 2] No such file or directory: '" ++ path ++ "'").

(** Bytes of a file, as any library that opens [path] sees them. *)
Definition read_file (path : string) : M bytes :=
  fun s =>
    match fs s !! path with
    | Some f => (Ok (f_content f), s)
    | None => (Raise (no_such_file path), s)
    end.

(** [os.path.getsize(path)]. *)
Definition getsize (path : string) : M nat :=
  content <~ read_file path ;; ret (length content).

(** Name given to the n-th temporary file. *)
Definition temp_path (n : nat) (sfx : string) : string :=
  "/tmp/tmp" ++ PyStr.of_nat n ++ sfx.

(** [with tempfile.NamedTemporaryFile(delete=False, suffix=sfx) as f:
    f.write(content); path = f.name]. *)
Definition NamedTemporaryFile (sfx : string) (content : bytes) : M string :=
  fun s =>
    let p := temp_path (tmp_ctr s) sfx in
    let f := {| f_content := content; f_mtime := clock s |} in
    (Ok p, set_tmp_ctr (S (tmp_ctr s)) (set_clock (S (clock s)) (set_fs (<[p := f]> (fs s)) s))).

(** [try: os.unlink(path)  except: pass]. *)
Definition unlink (path : string) : M unit :=
  fun s => (Ok tt, set_fs (delete path (fs s)) s).

(* ------------------------------------------------------------------ *)
(** ** CacheManager *)

(** The freshness signature [f"{stat.st_mtime}_{stat.st_size}"] of a
    file that exists. *)
Definition signature (f : file) : string :=
  PyStr.of_nat (f_mtime f) ++ "_" ++ PyStr.of_nat (length (f_content f)).

(** [get_file_hash]: the signature, or the empty string when [os.stat]
    fails. *)
Definition file_hash_in (files : gmap string file) (filepath : string) : string :=
  match files !! filepath with
  | Some f => signature f
  | None => ""
  end.

Definition get_file_hash (filepath : string) : M string :=
  fun s => (Ok (file_hash_in (fs s) filepath), s).

Definition get_cached_text (filepath : string) : M (option string) :=
  file_hash <~ get_file_hash filepath ;;
  fun s =>
    match cache s !! filepath with
    | Some cached_data =>
        if String.eqb (rec_hash cached_data) file_hash
        then (Ok (Some (rec_text cached_data)), s)
        else (Ok None, s)
    | None => (Ok None, s)
    end.

Definition cache_text (filepath text : string) : M unit :=
  file_hash <~ get_file_hash filepath ;;
  t <~ now ;;
  fun s =>
    let r := {| rec_hash := file_hash; rec_text := text; rec_timestamp := t |} in
    (Ok tt, set_cache (<[filepath := r]> (cache s)) s).

(** [clear_cache]: drops every record (and the backing file). *)
Definition clear_cache : M unit :=
  fun s => (Ok tt, set_cache ∅ s).

(* ------------------------------------------------------------------ *)
(** ** DocumentProcessor: the simple extractors *)

Definition SUPPORTED_images : list string := [".jpg"; ".jpeg"; ".png"; ".bmp"; ".tiff"].
Definition SUPPORTED_documents : list string := [".docx"; ".doc"; ".rtf"].
Definition SUPPORTED_pdfs : list string := [".pdf"].
Definition SUPPORTED_text : list string := [".txt"; ".md"].
Definition SUPPORTED_archives : list string := [".zip"; ".rar"; ".7z"].

(** The closed list of section 6: every value of SUPPORTED_EXTENSIONS. *)
Definition SUPPORTED_EXTENSIONS : list string :=
  SUPPORTED_images ++ SUPPORTED_documents ++ SUPPORTED_pdfs
  ++ SUPPORTED_text ++ SUPPORTED_archives.

(** Text-mode reading translates [\r\n] and [\r] to [\n]. *)
Definition cr : ascii := ascii_of_nat 13.
Definition lf : ascii := ascii_of_nat 10.

Fixpoint universal_newlines (s : string) : string :=
  match s with
  | EmptyString => EmptyString
  | String c r =>
      if Ascii.eqb c cr then
        match r with
        | String d r' =>
            if Ascii.eqb d lf then String lf (universal_newlines r')
            else String lf (universal_newlines r)
        | EmptyString => String lf EmptyString
        end
      else String c (universal_newlines r)
  end.

Section Processor.

Variable E : env.

(** [hasattr(self, '_cancelled') and self._cancelled]. *)
Definition read_cancelled : M bool :=
  fun s => (Ok (cancelled_at E (flag_reads s)), set_flag_reads (S (flag_reads s)) s).

(** [with open(filepath, 'r', encoding=enc) as f: f.read()]:
    [None] is [UnicodeDecodeError]; a missing file raises [OSError]. *)
Definition read_text (enc : encoding) (filepath : string) : M (option string) :=
  content <~ read_file filepath ;;
  ret (option_map universal_newlines (decode E enc content)).

Definition encodings : list encoding := [utf_8; cp1251; latin_1].

(** What [raise UnicodeDecodeError(f"...")] raises. *)
Definition decode_failure : exn :=
  mk_exn TypeError_ "function takes exactly 5 arguments (1 given)".

(** The [for encoding in encodings] loop of [_extract_from_text] and
    the statement after it.  [UnicodeDecodeError] takes five
    arguments; built with one, as on the last line, the constructor
    itself raises [TypeError]. *)
Fixpoint text_loop (encs : list encoding) (filepath : string) : M string :=
  match encs with
  | [] => reraise decode_failure
  | enc :: rest =>
      r <~ read_text enc filepath ;;
      match r with
      | Some text => ret text
      | None => text_loop rest filepath
      end
  end.

Definition _extract_from_text (filepath : string) : M string :=
  emit (Enter XText filepath) ;;>
  text_loop encodings filepath.

Definition _extract_from_image (filepath : string) : M string :=
  emit (Enter XImage filepath) ;;>
  if negb (TESSERACT_AVAILABLE E)
  then raise ImportError_ "pytesseract не установлен"
  else
    content <~ read_file filepath ;;
    lift (image_ocr E content).

Definition _extract_from_docx (filepath : string) : M string :=
  emit (Enter XDocx filepath) ;;>
  content <~ read_file filepath ;;
  paragraphs <~ lift (Document E content) ;;
  ret (PyStr.join PyStr.nl (List.filter (fun t => PyStr.truthy (PyStr.strip t)) paragraphs)).

Definition _extract_from_legacy_doc (filepath : string) : M string :=
  emit (Enter XLegacyDoc filepath) ;;>
  if negb (TEXTTRACT_AVAILABLE E)
  then raise ImportError_ "Файлы .doc/.rtf не поддерживаются. Для их обработки требуется установка библиотеки textract, которая не совместима с Python 3.13."
  else
    content <~ read_file filepath ;;
    out <~ lift (textract_process E content) ;;
    match decode E utf_8 out with
    | Some text => ret text
    | None => raise UnicodeDecodeError_ "'utf-8' codec can't decode bytes"
    end.

(* ---------------------------------------------------------------- *)
(** *** [_extract_from_pdf]: the fallback chain *)

Definition warning_pages (n : nat) : string :=
  "⚠️ ВНИМАНИЕ: Файл содержит " ++ PyStr.of_nat n
  ++ " страниц. Обработка может занять значительное время." ++ PyStr.nl.

Definition warning_ocr (n : nat) : string :=
  "⚠️ ВНИМАНИЕ: Файл содержит " ++ PyStr.of_nat n
  ++ " страниц. OCR может занять значительное время." ++ PyStr.nl.

(** [if pages_to_process > 200: texts.append(warning)]. *)
Definition annotate (warning : nat -> string) (n : nat) (texts : list string) : list string :=
  if Nat.ltb 200 n then texts ++ [warning n] else texts.

Definition page_block (l : pdf_lib) (i : nat) (text : string) : string :=
  match l with
  | Pdfplumber => "--- СТРАНИЦА " ++ PyStr.of_nat (i + 1) ++ " ---"
  | PyMuPDF => "--- СТРАНИЦА " ++ PyStr.of_nat (i + 1) ++ " (PyMuPDF) ---"
  | PyPDF2 => "--- СТРАНИЦА " ++ PyStr.of_nat (i + 1) ++ " (PyPDF2) ---"
  end ++ PyStr.nl ++ text.

Definition ocr_block (i : nat) (text : string) : string :=
  "--- СТРАНИЦА " ++ PyStr.of_nat (i + 1) ++ " (OCR) ---" ++ PyStr.nl ++ text.

(** The page loop shared by the three parsers, from page [i] on:
    the flag is read first; a page that raises or has no text is
    passed over. *)
Fixpoint page_loop (l : pdf_lib) (i : nat) (pages : list page_result)
         (texts : list string) : M (list string) :=
  match pages with
  | [] => ret texts
  | page :: rest =>
      c <~ read_cancelled ;;
      if c then ret texts
      else
        emit (PageQuery l i) ;;>
        match page with
        | PageOk (Some text) =>
            if PyStr.has_text text
            then page_loop l (S i) rest (texts ++ [page_block l i text])
            else page_loop l (S i) rest texts
        | PageOk None => page_loop l (S i) rest texts
        | PageFails _ => page_loop l (S i) rest texts
        end
  end.

(** The OCR loop over the rasterized pages. *)
Fixpoint ocr_loop (i : nat) (images : list page_image)
         (texts : list string) : M (list string) :=
  match images with
  | [] => ret texts
  | image :: rest =>
      c <~ read_cancelled ;;
      if c then ret texts
      else
        emit (OcrPage i) ;;>
        match img_to_string image with
        | inr ocr_text =>
            if PyStr.has_text ocr_text
            then ocr_loop (S i) rest (texts ++ [ocr_block i ocr_text])
            else ocr_loop (S i) rest texts
        | inl _ => ocr_loop (S i) rest texts
        end
  end.

(** Handler of stage 1: [except Exception as e] around the whole
    pdfplumber block. *)
Definition primary_handler (texts : list string) (e : exn) : M (list string) :=
  let m := PyStr.lower (str_of_exn e) in
  if PyStr.contains "password" m || PyStr.contains "encrypted" m
  then raise Exception_ ("PDF файл защищен паролем: " ++ str_of_exn e)
  else ret texts.

(** Stage 1.  The block can raise only before the first append. *)
Definition primary_parse (filepath : string) (texts : list string) : M (list string) :=
  try_except
    (emit (OpenPdf Pdfplumber filepath) ;;>
     content <~ read_file filepath ;;
     pages <~ lift (pdfplumber_open E content) ;;
     page_loop Pdfplumber 0 pages (annotate warning_pages (length pages) texts))
    (primary_handler texts).

(** Stage 2: [except ImportError] and [except Exception] both only print. *)
Definition secondary_parse (filepath : string) (texts : list string) : M (list string) :=
  if negb (fitz_installed E) then ret texts
  else
    try_except
      (emit (OpenPdf PyMuPDF filepath) ;;>
       content <~ read_file filepath ;;
       pages <~ lift (fitz_open E content) ;;
       page_loop PyMuPDF 0 pages (annotate warning_pages (length pages) texts))
      (fun _ => ret texts).

(** Handler of stage 3: [except Exception as e] around the PyPDF2
    block; [texts] is the list as it is when the exception arrives. *)
Definition tertiary_handler (texts : list string) (e : exn) : M (list string) :=
  if PyStr.contains "encrypted" (PyStr.lower (str_of_exn e))
  then raise Exception_ ("PDF файл зашифрован: " ++ str_of_exn e)
  else ret texts.

(** Stage 3.  [raise Exception("PDF файл зашифрован")] sits inside the
    [try] whose handler is [tertiary_handler], after the warning has
    been appended. *)
Definition tertiary_parse (filepath : string) (texts : list string) : M (list string) :=
  if negb (PyPDF2_installed E) then ret texts
  else
    emit (OpenPdf PyPDF2 filepath) ;;>
    opened <~ attempt (content <~ read_file filepath ;; lift (PdfReader E content)) ;;
    match opened with
    | inl e => tertiary_handler texts e
    | inr (pages, is_encrypted) =>
        let texts' := annotate warning_pages (length pages) texts in
        if is_encrypted : bool
        then tertiary_handler texts' (mk_exn Exception_ "PDF файл зашифрован")
        else page_loop PyPDF2 0 pages texts'
    end.

(** Handler of stage 4: the first [except] clause, [except Exception
    as convert_error], takes every exception of the block (the two
    clauses after it are never reached). *)
Definition ocr_handler (convert_error : exn) : M (list string) :=
  let error_msg := PyStr.lower (str_of_exn convert_error) in
  if PyStr.contains "poppler" error_msg || PyStr.contains "unable to get page count" error_msg
  then raise Exception_ "Для OCR требуется установить poppler-utils. Скачайте с https://github.com/oschwartz10612/poppler-windows/releases"
  else raise Exception_ ("Ошибка конвертации PDF: " ++ str_of_exn convert_error).

Definition import_pdf2image : M unit :=
  if pdf2image_installed E then ret tt
  else raise ImportError_ "No module named 'pdf2image'".

(** Stage 4. *)
Definition ocr_recovery (filepath : string) (texts : list string) : M (list string) :=
  if negb (TESSERACT_AVAILABLE E)
  then raise Exception_ "Tesseract OCR не установлен. Установите Tesseract для обработки отсканированных документов."
  else
    try_except
      (import_pdf2image ;;>
       let poppler_found :=
         match poppler_dir E with Some _ => true | None => pdftoppm_on_path E end in
       if negb poppler_found then raise Exception_ "Poppler не найден"
       else
         emit (Rasterize filepath) ;;>
         content <~ read_file filepath ;;
         images <~ lift (convert_from_path E content) ;;
         ocr_loop 0 images (annotate warning_ocr (length images) texts))
      ocr_handler.

(** [if not texts: <stage>]. *)
Definition when_empty (st : stage) (run : list string -> M (list string))
           (texts : list string) : M (list string) :=
  if PyStr.is_nil texts then emit (Attempt st) ;;> run texts else ret texts.

Definition paragraph_sep : string := PyStr.nl ++ PyStr.nl.

(** ["\n\n".join(texts) if texts else ""]. *)
Definition join_blocks (texts : list string) : string :=
  if PyStr.is_nil texts then "" else PyStr.join paragraph_sep texts.

Definition _extract_from_pdf (filepath : string) : M string :=
  emit (Enter XPdf filepath) ;;>
  try_except
    (file_size <~ getsize filepath ;;
     if Nat.eqb file_size 0 then raise Exception_ "Файл пустой (0 байт)"
     else
       texts <~ (emit (Attempt Primary) ;;> primary_parse filepath []) ;;
       texts <~ when_empty Secondary (secondary_parse filepath) texts ;;
       texts <~ when_empty Tertiary (tertiary_parse filepath) texts ;;
       texts <~ when_empty OcrRecovery (ocr_recovery filepath) texts ;;
       let result := join_blocks texts in
       if negb (PyStr.truthy (PyStr.strip result))
       then raise Exception_ "Не удалось извлечь текст из PDF. Возможные причины: файл содержит только изображения без текстового слоя, или требуется установка Tesseract OCR для распознавания отсканированных документов."
       else ret result)
    (fun e => raise Exception_ ("Ошибка открытия PDF " ++ filepath ++ ": " ++ str_of_exn e)).

(* ---------------------------------------------------------------- *)
(** *** [_extract_from_pdf_simple]: PDF members of an archive *)

(** The page loop of the simplified path: the flag is not read, and a
    page that raises ends the loop (the enclosing handler prints). *)
Fixpoint simple_page_loop (i : nat) (pages : list page_result)
         (texts : list string) : M (list string) :=
  match pages with
  | [] => ret texts
  | page :: rest =>
      emit (PageQuery Pdfplumber i) ;;>
      match page with
      | PageOk (Some text) =>
          if PyStr.has_text text
          then simple_page_loop (S i) rest (texts ++ [page_block Pdfplumber i text])
          else simple_page_loop (S i) rest texts
      | PageOk None => simple_page_loop (S i) rest texts
      | PageFails _ => ret texts
      end
  end.

(** Decoding of the standard output of the tesseract command. *)
Definition cli_text (stdout : bytes) : string :=
  match decode E utf_8 stdout with
  | Some t => PyStr.strip t
  | None =>
      match decode E cp1251 stdout with
      | Some t => PyStr.strip t
      | None => PyStr.strip (decode_ignore E stdout)
      end
  end.

(** The OCR loop of the simplified path: one temporary PNG per page,
    removed in [finally]; an exception of [subprocess.run] leaves the
    loop. *)
Fixpoint simple_ocr_loop (i : nat) (images : list page_image)
         (texts : list string) : M (list string) :=
  match images with
  | [] => ret texts
  | image :: rest =>
      img_path <~ NamedTemporaryFile ".png" (img_png image) ;;
      texts' <~ try_finally
        (emit (OcrCli i) ;;>
         match img_tesseract image with
         | SubprocessFails e => reraise e
         | Completed returncode stdout =>
             if Nat.eqb returncode 0 then
               let text := cli_text stdout in
               if PyStr.truthy text then ret (texts ++ [ocr_block i text])%list else ret texts
             else ret texts
         end)
        (unlink img_path) ;;
      simple_ocr_loop (S i) rest texts'
  end.

Definition simple_ocr (filepath : string) (texts : list string) : M (list string) :=
  if negb (TESSERACT_AVAILABLE E)
  then raise Exception_ "Tesseract OCR не установлен."
  else
    try_except
      (import_pdf2image ;;>
       match poppler_dir E with
       | None => raise Exception_ "Poppler не найден"
       | Some _ =>
           emit (Rasterize filepath) ;;>
           content <~ read_file filepath ;;
           images <~ lift (convert_from_path E content) ;;
           simple_ocr_loop 0 images texts
       end)
      (fun e =>
         if is_kind ImportError_ e then raise Exception_ "pdf2image не установлен"
         else raise Exception_ ("Ошибка OCR: " ++ str_of_exn e)).

Definition _extract_from_pdf_simple (filepath : string) : M string :=
  emit (Enter XPdfSimple filepath) ;;>
  try_except
    (file_size <~ getsize filepath ;;
     if Nat.eqb file_size 0 then raise Exception_ "Файл пустой (0 байт)"
     else
       opened <~ attempt (emit (OpenPdf Pdfplumber filepath) ;;>
                          content <~ read_file filepath ;;
                          lift (pdfplumber_open E content)) ;;
       texts <~ match opened with
                | inl _ => ret []
                | inr pages => simple_page_loop 0 pages []
                end ;;
       texts <~ (if PyStr.is_nil texts then simple_ocr filepath texts else ret texts) ;;
       ret (join_blocks texts))
    (fun e => raise Exception_ ("Ошибка обработки PDF: " ++ str_of_exn e)).

(* ---------------------------------------------------------------- *)
(** *** [_extract_from_archive] *)

Definition supported_extensions : list string :=
  [".txt"; ".md"; ".pdf"; ".docx"; ".doc"; ".rtf"].

Definition file_block (file_name text : string) : string :=
  "=== ФАЙЛ В АРХИВЕ: " ++ file_name ++ " ===" ++ PyStr.nl ++ text.

Definition ocr_error_block (file_name text : string) : string :=
  "=== ОШИБКА OCR PDF В АРХИВЕ: " ++ file_name ++ " ===" ++ PyStr.nl ++ text.

Definition processing_error_block (file_name text : string) : string :=
  "=== ОШИБКА ОБРАБОТКИ ФАЙЛА В АРХИВЕ: " ++ file_name ++ " ===" ++ PyStr.nl ++ text.

Definition read_error_block (file_name text : string) : string :=
  "=== ОШИБКА ЧТЕНИЯ ФАЙЛА В АРХИВЕ: " ++ file_name ++ " ===" ++ PyStr.nl ++ text.

Section Archive.

(** [self.extract_text], the recursive call. *)
Variable extract_text : string -> M (string * bool).

(** A [.txt]/[.md] member: UTF-8, then cp1251; a blank text or a
    member that decodes in neither adds nothing. *)
Definition text_member (file_name : string) (content : bytes)
           (all_texts : list string) : list string :=
  match decode E utf_8 content with
  | Some text =>
      if PyStr.truthy (PyStr.strip text)
      then all_texts ++ [file_block file_name text] else all_texts
  | None =>
      match decode E cp1251 content with
      | Some text =>
          if PyStr.truthy (PyStr.strip text)
          then all_texts ++ [file_block file_name text] else all_texts
      | None => all_texts
      end
  end.

(** A [.pdf] member, through the simplified path. *)
Definition pdf_member (file_name temp_file_path : string)
           (all_texts : list string) : M (list string) :=
  try_except
    (pdf_text <~ _extract_from_pdf_simple temp_file_path ;;
     if PyStr.has_text pdf_text
     then ret (all_texts ++ [file_block file_name pdf_text])%list
     else ret (all_texts ++ [ocr_error_block file_name
            "OCR не смог распознать текст. Возможно, документ плохого качества или содержит только изображения."])%list)
    (fun ocr_error =>
       ret (all_texts ++ [ocr_error_block file_name (str_of_exn ocr_error)])%list).

(** A [.docx]/[.doc]/[.rtf] member, through [extract_text]. *)
Definition document_member (file_name temp_file_path : string)
           (all_texts : list string) : M (list string) :=
  r <~ extract_text temp_file_path ;;
  let '(text, success) := r in
  if (success : bool) && PyStr.truthy (PyStr.strip text)
  then ret (all_texts ++ [file_block file_name text])%list
  else ret (all_texts ++ [processing_error_block file_name
         "Не удалось извлечь текст из документа."])%list.

(** The member is written to a temporary file named after
    [Path(file_name).suffix], processed, and the file removed. *)
Definition temp_member (file_name : string) (content : bytes)
           (all_texts : list string) : M (list string) :=
  temp_file_path <~ NamedTemporaryFile (PyStr.suffix file_name) content ;;
  try_finally
    (try_except
       (if PyStr.endswith (PyStr.lower file_name) ".pdf"
        then pdf_member file_name temp_file_path all_texts
        else document_member file_name temp_file_path all_texts)
       (fun e =>
          ret (all_texts ++ [processing_error_block file_name (str_of_exn e)])%list))
    (unlink temp_file_path).

(** Body of the [for file_name in file_list] loop for a member whose
    name passed the allowlist.  ([processed_files] is only printed
    and is left out.) *)
Definition member (en : zip_entry) (all_texts : list string) : M (list string) :=
  let file_name := entry_name en in
  emit (ReadEntry file_name) ;;>
  match entry_read en with
  | inl e => ret (all_texts ++ [read_error_block file_name (str_of_exn e)])%list
  | inr content =>
      if Nat.eqb (length content) 0 then ret all_texts
      else if PyStr.endswith_any (PyStr.lower file_name) [".txt"; ".md"]
      then ret (text_member file_name content all_texts)
      else if PyStr.endswith_any (PyStr.lower file_name) [".pdf"; ".docx"; ".doc"; ".rtf"]
      then temp_member file_name content all_texts
      else ret all_texts
  end.

Definition is_supported (file_name : string) : bool :=
  PyStr.endswith_any (PyStr.lower file_name) supported_extensions.

(** The loop over [namelist()]; returns [found_supported_files] and
    [all_texts]. *)
Fixpoint entry_loop (entries : list zip_entry) (found_supported_files : bool)
         (all_texts : list string) : M (bool * list string) :=
  match entries with
  | [] => ret (found_supported_files, all_texts)
  | en :: rest =>
      if is_supported (entry_name en)
      then all_texts' <~ member en all_texts ;; entry_loop rest true all_texts'
      else entry_loop rest found_supported_files all_texts
  end.

Definition zip_texts (filepath : string) : M (list string) :=
  file_size <~ getsize filepath ;;
  if Nat.eqb file_size 0 then raise Exception_ "ZIP файл пустой (0 байт)"
  else
    content <~ read_file filepath ;;
    zip_file <~ lift (ZipFile E content) ;;
    match zip_testzip zip_file with
    | Some test_error =>
        raise Exception_ ("ZIP файл поврежден: " ++ str_of_exn test_error)
    | None =>
        if PyStr.is_nil (zip_entries zip_file)
        then raise Exception_ "ZIP архив пустой"
        else
          r <~ entry_loop (zip_entries zip_file) false [] ;;
          if negb (fst r)
          then raise Exception_ "В ZIP архиве нет поддерживаемых файлов"
          else ret (snd r)
    end.

Definition archive_no_text : string :=
  "Не удалось извлечь текст из архива. Возможные причины: архив пустой, поврежден, содержит только неподдерживаемые файлы, или PDF файлы внутри архива требуют OCR.".

Definition rar_notice : string :=
  "RAR архивы пока не поддерживаются. Установите библиотеку rarfile для поддержки RAR.".

Definition _extract_from_archive (filepath : string) : M string :=
  emit (Enter XArchive filepath) ;;>
  let ext := PyStr.lower (PyStr.suffix filepath) in
  try_except
    (all_texts <~ (if String.eqb ext ".zip" then zip_texts filepath
                   else if String.eqb ext ".rar" then ret [rar_notice]
                   else ret []) ;;
     let result := join_blocks all_texts in
     if PyStr.truthy (PyStr.strip result) then ret result
     else raise Exception_ archive_no_text)
    (fun e => raise Exception_ ("Ошибка обработки архива " ++ filepath ++ ": " ++ str_of_exn e)).

End Archive.

(* ---------------------------------------------------------------- *)
(** *** [extract_text] *)

Definition log_error (error_msg : string) : M unit :=
  fun s => (Ok tt, set_error_log (error_log s ++ [error_msg]) s).

(** The [if]/[elif] chain on the lowered extension.  [archive] is
    [_extract_from_archive] with its recursive call bound. *)
Definition dispatch (archive : string -> M string) (ext filepath : string) : M string :=
  if PyStr.mem ext SUPPORTED_pdfs then _extract_from_pdf filepath
  else if PyStr.mem ext SUPPORTED_images then _extract_from_image filepath
  else if String.eqb ext ".docx" then _extract_from_docx filepath
  else if PyStr.mem ext [".doc"; ".rtf"] then _extract_from_legacy_doc filepath
  else if PyStr.mem ext SUPPORTED_text then _extract_from_text filepath
  else if PyStr.mem ext SUPPORTED_archives then archive filepath
  else ret "".

(** [extract_text] calls [_extract_from_archive], which calls
    [extract_text] on the temporary file of a member: [fuel] bounds
    the depth of that recursion. *)
Fixpoint extract_text (fuel : nat) (filepath : string) : M (string * bool) :=
  match fuel with
  | 0 => out_of_fuel
  | S fuel' =>
      cached_text <~ get_cached_text filepath ;;
      match cached_text with
      | Some text => ret (text, true)
      | None =>
          let ext := PyStr.lower (PyStr.suffix filepath) in
          try_except
            (text <~ dispatch (_extract_from_archive (extract_text fuel')) ext filepath ;;
             if PyStr.has_text text
             then cache_text filepath text ;;> ret (text, true)
             else log_error ("Файл пустой или не содержит текста: " ++ filepath) ;;>
                  ret (text, false))
            (fun e =>
               log_error ("Ошибка при обработке " ++ filepath ++ ": " ++ str_of_exn e) ;;>
               ret ("", false))
      end
  end.

End Processor.

(* ------------------------------------------------------------------ *)
(** ** Concrete worlds for the examples *)

Module Lab.

Definition lib_error (m : string) : exn := mk_exn LibError_ m.

(** A codec that accepts exactly the 7-bit texts. *)
Definition seven_bit (content : bytes) : option string :=
  if forallb (fun b => Nat.ltb (Byte.to_nat b) 128) content
  then Some (string_of_list_byte content) else None.

(** Latin-1 never fails: byte [b] is code point [b], written in UTF-8. *)
Definition latin1_char (b : Byte.byte) : list ascii :=
  let n := Byte.to_nat b in
  if Nat.ltb n 128 then [ascii_of_nat n]
  else [ascii_of_nat (192 + n / 64); ascii_of_nat (128 + n mod 64)].

Definition latin1 (content : bytes) : string :=
  string_of_list_ascii (flat_map latin1_char content).

(** UTF-8 and cp1251 restricted to 7-bit input, Latin-1 in full. *)
Definition codecs (enc : encoding) (content : bytes) : option string :=
  match enc with
  | utf_8 => seven_bit content
  | cp1251 => seven_bit content
  | latin_1 => Some (latin1 content)
  end.

(** A world in which every library answers the same for every file. *)
Definition world (cancel : nat -> bool) (tesseract : bool)
           (plumber : exn + list page_result)
           (fitz : option (exn + list page_result))
           (pypdf2 : option (exn + (list page_result * bool)))
           (images : option (exn + list page_image))
           (paragraphs : exn + list string)
           (zip : exn + zip_archive)
           (codec : encoding -> bytes -> option string) : env :=
  {| TESSERACT_AVAILABLE := tesseract;
     TEXTTRACT_AVAILABLE := false;
     cancelled_at := cancel;
     pdfplumber_open := fun _ => plumber;
     fitz_installed := match fitz with Some _ => true | None => false end;
     fitz_open := fun _ => match fitz with Some r => r | None => inl (lib_error "fitz") end;
     PyPDF2_installed := match pypdf2 with Some _ => true | None => false end;
     PdfReader := fun _ => match pypdf2 with Some r => r | None => inl (lib_error "PyPDF2") end;
     pdf2image_installed := match images with Some _ => true | None => false end;
     poppler_dir := match images with Some _ => Some "C:\poppler\bin" | None => None end;
     pdftoppm_on_path := false;
     convert_from_path :=
       fun _ => match images with Some r => r | None => inl (lib_error "pdf2image") end;
     image_ocr := fun _ => inl (lib_error "cannot identify image file");
     Document := fun _ => paragraphs;
     textract_process := fun _ => inl (lib_error "textract");
     ZipFile := fun _ => zip;
     decode := codec;
     decode_ignore := fun _ => "" |}.

Definition never : nat -> bool := fun _ => false.
Definition always : nat -> bool := fun _ => true.

Definition no_pdf : exn + list page_result := inl (lib_error "No /Root object! - Is this really a PDF?").
Definition no_docx : exn + list string := inl (lib_error "Package not found").
Definition no_zip : exn + zip_archive := inl (lib_error "File is not a zip file").

(** Nothing installed, nothing readable. *)
Definition bare : env :=
  world never false no_pdf None None None no_docx no_zip codecs.

Definition some_bytes : bytes := list_byte_of_string "%PDF-1.4 ...".

Definition a_file : file := {| f_content := some_bytes; f_mtime := 17 |}.

(** A fresh processor over the given files. *)
Definition fresh (files : gmap string file) : state :=
  {| cache := ∅; error_log := []; fs := files; clock := 0;
     flag_reads := 0; tmp_ctr := 0; trace := [] |}.

(** A file that is not 7-bit text: the single byte 0xE9. *)
Definition e_acute : file := {| f_content := [Byte.xe9]; f_mtime := 17 |}.

(** A world whose codecs all refuse. *)
Definition no_codec : env :=
  world never false no_pdf None None None no_docx no_zip (fun _ _ => None).

(** A scan of 201 pages: pdfplumber finds no text on any page;
    PyMuPDF would, and Tesseract is installed. *)
Definition blank_pages (n : nat) : list page_result := repeat (PageOk None) n.

Definition scanned (ocr_text : string) : page_image :=
  {| img_to_string := inr ocr_text; img_png := [];
     img_tesseract := Completed 0 (list_byte_of_string ocr_text) |}.

Definition long_scan : env :=
  world never true (inr (blank_pages 201))
        (Some (inr [PageOk (Some "Invoice 42")])) None
        (Some (inr [scanned "Invoice 42"])) no_docx no_zip codecs.

(** A one-page PDF without text layer that PyPDF2 reports as encrypted;
    PyMuPDF is not installed, the OCR tool chain is. *)
Definition locked_scan : env :=
  world never true (inr (blank_pages 1)) None
        (Some (inr (blank_pages 1, true)))
        (Some (inr [scanned "secret"])) no_docx no_zip codecs.

(** A text file that holds two spaces. *)
Definition blank_file : file := {| f_content := list_byte_of_string "  "; f_mtime := 17 |}.

(** An archive with one Word document, which python-docx reads as the
    single paragraph "hi". *)
Definition one_docx : zip_archive :=
  {| zip_testzip := None;
     zip_entries := [ {| entry_name := "a.docx"; entry_read := inr some_bytes |} ] |}.

Definition office : env :=
  world never false no_pdf None None None (inr ["hi"]) (inr one_docx) codecs.

(** An archive whose only member is an empty text file. *)
Definition one_empty_txt : zip_archive :=
  {| zip_testzip := None;
     zip_entries := [ {| entry_name := "empty.txt"; entry_read := inr [] |} ] |}.

Definition hollow : env :=
  world never false no_pdf None None None no_docx (inr one_empty_txt) codecs.

(** An archive with two notes, in a world where the cancellation flag
    is set all the time. *)
Definition two_notes : zip_archive :=
  {| zip_testzip := None;
     zip_entries := [ {| entry_name := "a.txt"; entry_read := inr (list_byte_of_string "one") |};
                      {| entry_name := "b.txt"; entry_read := inr (list_byte_of_string "two") |} ] |}.

Definition cancelled_world : env :=
  world always false no_pdf None None None no_docx (inr two_notes) codecs.

(** Scenario C of the specification: [notes.txt] holding "hi" next to
    a PDF that no library can open, with no OCR installed. *)
Definition notes_and_broken_pdf : zip_archive :=
  {| zip_testzip := None;
     zip_entries := [ {| entry_name := "notes.txt"; entry_read := inr (list_byte_of_string "hi") |};
                      {| entry_name := "broken.pdf"; entry_read := inr some_bytes |} ] |}.

Definition scenario_c : env :=
  world never false no_pdf None None None no_docx (inr notes_and_broken_pdf) codecs.

(** A PDF of three pages of text, and a user who cancels while the
    first page is being read: the flag is clear at its first read and
    set from the second on. *)
Definition three_pages : list page_result :=
  [PageOk (Some "one"); PageOk (Some "two"); PageOk (Some "three")].

Definition cancel_after_first : env :=
  world (fun k => Nat.leb 1 k) false (inr three_pages) None None None no_docx no_zip codecs.

(** A processor whose cache holds a fresh record for [report.txt]. *)
Definition report_record : CacheRecord :=
  {| rec_hash := signature a_file; rec_text := "Hello"; rec_timestamp := 0 |}.

Definition warm : state :=
  {| cache := {[ "report.txt" := report_record ]}; error_log := [];
     fs := {[ "report.txt" := a_file ]}; clock := 1;
     flag_reads := 0; tmp_ctr := 0; trace := [] |}.

End Lab.

(* ------------------------------------------------------------------ *)
(** ** Notions used to state the properties *)

(** The line [extract_text] appends to the error log for a file from
    which it got no text. *)
Definition no_text_message (filepath : string) : string :=
  "Файл пустой или не содержит текста: " ++ filepath.

(** The line it appends when the extractor raised [e]. *)
Definition failure_message (filepath : string) (e : exn) : string :=
  "Ошибка при обработке " ++ filepath ++ ": " ++ str_of_exn e.

(** A byte that occurs in no white-space encoding. *)
Definition plainb (c : ascii) : bool :=
  forallb (fun pat => negb (existsb (Ascii.eqb c) pat)) PyStr.ws_patterns.

Definition has_plain (s : string) : bool :=
  existsb plainb (list_ascii_of_string s).


(** A page with a usable text layer. *)
Definition page_has_text (p : page_result) : bool :=
  match p with
  | PageOk (Some text) => PyStr.has_text text
  | _ => false
  end.

(** The stages of the fallback chain a trace shows as attempted. *)
Fixpoint stages_attempted (t : list event) : list stage :=
  match t with
  | [] => []
  | Attempt st :: t' => st :: stages_attempted t'
  | _ :: t' => stages_attempted t'
  end.

(** [m] relates every state it starts in to the state it ends in by [P]. *)
Definition preserves {A} (P : state -> state -> Prop) (m : M A) : Prop :=
  forall s r s', m s = (r, s') -> P s s'.

(** The cache is left as it is. *)
Definition same_cache (s s' : state) : Prop := cache s' = cache s.

(** The flag is not read. *)
Definition same_flag_reads (s s' : state) : Prop := flag_reads s' = flag_reads s.

(** Only the flag counter and the trace move, and the trace grows. *)
Definition reads_only (s s' : state) : Prop :=
  cache s' = cache s /\ error_log s' = error_log s /\ fs s' = fs s /\
  clock s' = clock s /\ tmp_ctr s' = tmp_ctr s /\
  exists t, trace s' = (trace s ++ t)%list.

(** As [reads_only], and no stage is entered. *)
Definition within_stage (s s' : state) : Prop :=
  cache s' = cache s /\ error_log s' = error_log s /\ fs s' = fs s /\
  clock s' = clock s /\ tmp_ctr s' = tmp_ctr s /\
  exists t, trace s' = (trace s ++ t)%list /\ stages_attempted t = [].

(** Every block holds a character that is not white space. *)
Definition good_blocks (texts : list string) : Prop :=
  Forall (fun b => has_plain b = true) texts.

(** What [extract_text] guarantees about the cache: a call that
    reports a failure has written no record. *)
Definition failure_leaves_cache (r : outcome (string * bool)) (s s' : state) : Prop :=
  match r with
  | Ok (_, false) => cache s' = cache s
  | Raise _ => cache s' = cache s
  | _ => True
  end.

(** What a member adds to [all_texts]: one block. *)
Definition one_more (all_texts texts' : list string) : Prop :=
  exists b, texts' = (all_texts ++ [b])%list /\ has_plain b = true.

Definition is_digit (c : ascii) : Prop :=
  48 <= nat_of_ascii c <= 57.

Fixpoint last_char (s : string) : option ascii :=
  match s with
  | EmptyString => None
  | String c EmptyString => Some c
  | String _ r => last_char r
  end.

(** [m] never runs out of fuel. *)
Definition fuel_free {A} (m : M A) : Prop :=
  forall s, fst (m s) <> OutOfFuel.

(** [m] always returns a value. *)
Definition total {A} (m : M A) : Prop :=
  forall s, exists a s', m s = (Ok a, s').

(** A recursive call that returns on every path that is not an archive
    by its suffix. *)
Definition returns_on_documents (extract : string -> M (string * bool)) : Prop :=
  forall p, PyStr.mem (PyStr.lower (PyStr.suffix p)) SUPPORTED_archives = false ->
            fuel_free (extract p).

(** Whether a member that passed the allowlist contributes a block:
    a member that cannot be read does (an error block); an empty one
    does not; a [.txt]/[.md] member does when it decodes, in UTF-8 or
    else in cp1251, to a text that is not blank; every other member
    does (its text or an error block). *)
Definition adds_block (E : env) (en : zip_entry) : bool :=
  match entry_read en with
  | inl _ => true
  | inr content =>
      if Nat.eqb (length content) 0 then false
      else if PyStr.endswith_any (PyStr.lower (entry_name en)) [".txt"; ".md"]
      then match decode E utf_8 content with
           | Some text => PyStr.truthy (PyStr.strip text)
           | None =>
               match decode E cp1251 content with
               | Some text => PyStr.truthy (PyStr.strip text)
               | None => false
               end
           end
      else true
  end.

(** The members that passed the allowlist, and those among them that
    contribute a block. *)
Definition supported_members (entries : list zip_entry) : list zip_entry :=
  List.filter (fun en => is_supported (entry_name en)) entries.

Definition block_members (E : env) (entries : list zip_entry) : list zip_entry :=
  List.filter (adds_block E) (supported_members entries).

(** Every key of the cache has an extension of the closed list. *)
Definition cache_keys_ok (c : gmap string CacheRecord) : Prop :=
  forall k, is_Some (c !! k) ->
            PyStr.mem (PyStr.lower (PyStr.suffix k)) SUPPORTED_EXTENSIONS = true.

Definition keeps_keys_ok (s s' : state) : Prop :=
  cache_keys_ok (cache s) -> cache_keys_ok (cache s').

(** The states a processor can be in: it starts with an empty cache;
    it runs [extract_text]; the cache is cleared; files change on disk
    between two calls. *)
Inductive reachable (E : env) : state -> Prop :=
| reach_fresh s : cache s = ∅ -> reachable E s
| reach_extract s fuel filepath r s' :
    reachable E s -> extract_text E fuel filepath s = (r, s') -> reachable E s'
| reach_clear s r s' :
    reachable E s -> clear_cache s = (r, s') -> reachable E s'
| reach_files s files :
    reachable E s -> reachable E (set_fs files s).

(** Paths that [extract_text] sends neither to the PDF fallback chain
    nor to the archive extractor. *)
Definition plain_document (p : string) : Prop :=
  PyStr.mem (PyStr.lower (PyStr.suffix p)) (".pdf" :: SUPPORTED_archives) = false.

(** C5 as the spec words it, for the members of one archive: the loop
    leaves one block per member that passed the allowlist, and with at
    least one such member the archive is a success. *)
Definition one_block_per_supported_member (E : env) (fuel : nat) (filepath : string)
           (entries : list zip_entry) (s : state) : Prop :=
  exists found blocks s1,
    entry_loop E (extract_text E fuel) entries false [] s = (Ok (found, blocks), s1) /\
    length blocks = length (supported_members entries) /\
    (1 <= length (supported_members entries) ->
     exists text s', extract_text E (S fuel) filepath s = (Ok (text, true), s')).

(** C7 as the spec words it, for the entry loop: with the flag set, no
    entry is processed. *)
Definition entry_loop_honours_cancellation (E : env) (fuel : nat)
           (entries : list zip_entry) (s : state) : Prop :=
  (forall k, cancelled_at E k = true) ->
  exists found s',
    entry_loop E (extract_text E fuel) entries false [] s = (Ok (found, []), s') /\
    trace s' = trace s.

(** Number of flag reads, from the [from]-th on and at most [n], that
    come before the first one that is true. *)
Fixpoint uncancelled (c : nat -> bool) (from n : nat) : nat :=
  match n with
  | 0 => 0
  | S n' => if c from then 0 else S (uncancelled c (S from) n')
  end.

(** The blocks of the pages that have text, numbered from [i]. *)
Fixpoint page_blocks (l : pdf_lib) (i : nat) (pages : list page_result) : list string :=
  match pages with
  | [] => []
  | page :: rest =>
      match page with
      | PageOk (Some text) =>
          if PyStr.has_text text then page_block l i text :: page_blocks l (S i) rest
          else page_blocks l (S i) rest
      | _ => page_blocks l (S i) rest
      end
  end.

Fixpoint ocr_blocks (i : nat) (images : list page_image) : list string :=
  match images with
  | [] => []
  | image :: rest =>
      match img_to_string image with
      | inr ocr_text =>
          if PyStr.has_text ocr_text then ocr_block i ocr_text :: ocr_blocks (S i) rest
          else ocr_blocks (S i) rest
      | inl _ => ocr_blocks (S i) rest
      end
  end.

(** The state after a loop that read the flag [n] times and left the
    events [t]. *)
Definition after_loop (n : nat) (t : list event) (s : state) : state :=
  set_flag_reads (flag_reads s + n) (set_trace (trace s ++ t) s).

(** Flag reads of a loop over [n] items that processed [j] of them. *)
Definition reads_of (j n : nat) : nat := if Nat.ltb j n then S j else j.

(* ------------------------------------------------------------------ *)
(** ** Further notions: the error log, the cache and the files *)

(** The error log only grows: the old log is a prefix of the new one. *)
Definition log_grows (s s' : state) : Prop :=
  exists extra, error_log s' = (error_log s ++ extra)%list.

(** The error log is left as it is. *)
Definition same_error_log (s s' : state) : Prop := error_log s' = error_log s.

(** Every text the cache holds has a character that is not white space. *)
Definition cache_texts_ok (c : gmap string CacheRecord) : Prop :=
  forall k r, c !! k = Some r -> PyStr.has_text (rec_text r) = true.

Definition keeps_texts_ok (s s' : state) : Prop :=
  cache_texts_ok (cache s) -> cache_texts_ok (cache s').

(** Paths that [extract_text] does not send to the archive extractor. *)
Definition not_archive (p : string) : Prop :=
  PyStr.mem (PyStr.lower (PyStr.suffix p)) SUPPORTED_archives = false.

(** The cache agrees with the old one off the names of temporary files. *)
Definition cache_off_temps (s s' : state) : Prop :=
  forall k, (forall n sfx, k <> temp_path n sfx) -> cache s' !! k = cache s !! k.

(** The shape of [Path(name).suffix] and of the suffixes the program
    passes to [NamedTemporaryFile]: empty, or a dot first. *)
Definition suffix_like (sfx : string) : Prop :=
  sfx = "" \/ exists r, sfx = String PyStr.dot r.

(** [NamedTemporaryFile] creates a file that did not exist: no file
    sits at a name it has yet to hand out. *)
Definition fresh_temps (s : state) : Prop :=
  forall n sfx, tmp_ctr s <= n -> suffix_like sfx -> fs s !! temp_path n sfx = None.

(** Started where temporary names are free, [m] leaves the files as
    they were (and hands out names upwards only). *)
Definition tidy (s s' : state) : Prop :=
  fresh_temps s -> fs s' = fs s /\ tmp_ctr s <= tmp_ctr s'.

(* ------------------------------------------------------------------ *)
(** ** DocumentProcessor: diagnosis of a file

    [diagnose_file_problems] and its helpers only read: they are
    functions of the files.  A diagnosis is the dictionary the method
    builds; the helpers return a dictionary with the two lists only. *)

(** What the diagnosis asks of the libraries beyond [env]. *)
Record probe := {
  (** [pdf.metadata] is not empty and has the key ['Encrypt'] *)
  metadata_has_Encrypt : bytes -> bool;
  (** [len(page.images)] for the page of index i of [pdf.pages] *)
  page_images : bytes -> nat -> nat;
  (** [Image.open(path)] and [img.size] *)
  image_size : bytes -> exn + (nat * nat)
}.

Record findings := {
  problems : list string;
  suggestions : list string
}.

Record diagnosis := {
  d_filepath : string;
  d_exists : bool;
  d_size : nat;
  d_extension : string;
  d_findings : findings
}.

Definition no_findings : findings := {| problems := []; suggestions := [] |}.

(** [diagnosis['problems'].append(p)] and [diagnosis['suggestions'].append(t)]. *)
Definition problem (p : string) (d : findings) : findings :=
  {| problems := problems d ++ [p]; suggestions := suggestions d |}.
Definition suggestion (t : string) (d : findings) : findings :=
  {| problems := problems d; suggestions := suggestions d ++ [t] |}.

Section Diagnosis.

Variable E : env.
Variable Pr : probe.
Variable files : gmap string file.

(** The loop of [_diagnose_pdf] over [pdf.pages]: it has no [try] of
    its own, so a page that raises ends it with the exception.  (The
    sum [total_images] it also keeps is never used.) *)
Fixpoint scan_pages (images : nat -> nat) (i : nat) (pages : list page_result)
         (has_text has_images : bool) : exn + (bool * bool) :=
  match pages with
  | [] => inr (has_text, has_images)
  | PageFails e :: _ => inl e
  | PageOk text :: rest =>
      scan_pages images (S i) rest
                 (has_text || PyStr.has_text_opt text)
                 (has_images || negb (Nat.eqb (images i) 0))
  end.

(** The branch of [_diagnose_pdf] for a scan when Tesseract is there:
    the check of the rasterizer. *)
Definition diagnose_poppler (d : findings) : findings :=
  if negb (pdf2image_installed E)
  then suggestion "Tesseract установлен, но есть проблемы с конвертацией PDF" d
  else
    let poppler_found :=
      match poppler_dir E with Some _ => true | None => pdftoppm_on_path E end in
    if poppler_found
    then suggestion "Tesseract и Poppler установлены - OCR должен работать" d
    else suggestion "Запустите файл 'установить_poppler_авто.bat' для автоматической установки"
           (suggestion "Установите poppler для конвертации PDF в изображения"
              (problem "Poppler не установлен или не найден в PATH" d)).

(** What is appended once the pages have been looked at. *)
Definition diagnose_layers (has_text has_images : bool) (d : findings) : findings :=
  if negb has_text && has_images then
    let d := suggestion "Требуется OCR для извлечения текста"
               (problem "PDF содержит только изображения (отсканированный документ)" d) in
    if negb (TESSERACT_AVAILABLE E)
    then suggestion "Запустите файл 'установить_tesseract.bat' для инструкций"
           (suggestion "Установите Tesseract OCR для распознавания отсканированных документов"
              (problem "Tesseract OCR не установлен" d))
    else diagnose_poppler d
  else if negb has_text && negb has_images then
    suggestion "Файл может быть пустым или поврежденным"
      (problem "PDF не содержит текста или изображений" d)
  else if has_text && has_images then
    suggestion "PDF содержит текст и изображения - должно обрабатываться нормально" d
  else d.

(** Handler of the inner [try] of [_diagnose_pdf]; the lists are as
    they are when the exception arrives. *)
Definition diagnose_pdf_error (e : exn) (d : findings) : findings :=
  let error_msg := PyStr.lower (str_of_exn e) in
  if PyStr.contains "password" error_msg || PyStr.contains "encrypted" error_msg
  then suggestion "Требуется пароль для открытия" (problem "PDF файл защищен паролем" d)
  else if PyStr.contains "damaged" error_msg || PyStr.contains "corrupt" error_msg
  then suggestion "Попробуйте восстановить файл или получить новую копию"
         (problem "PDF файл поврежден" d)
  else suggestion "Проверьте целостность файла"
         (problem ("Ошибка открытия PDF: " ++ str_of_exn e) d).

Definition _diagnose_pdf (filepath : string) : findings :=
  match files !! filepath with
  | None => diagnose_pdf_error (no_such_file filepath) no_findings
  | Some f =>
      match pdfplumber_open E (f_content f) with
      | inl e => diagnose_pdf_error e no_findings
      | inr pages =>
          let d := no_findings in
          let d := if Nat.eqb (length pages) 0
                   then suggestion "Файл может быть поврежден"
                          (problem "PDF не содержит страниц" d)
                   else d in
          let d := if metadata_has_Encrypt Pr (f_content f)
                   then suggestion "Требуется пароль для открытия"
                          (problem "PDF файл зашифрован" d)
                   else d in
          match scan_pages (page_images Pr (f_content f)) 0 pages false false with
          | inl e => diagnose_pdf_error e d
          | inr (has_text, has_images) => diagnose_layers has_text has_images d
          end
      end
  end.

(** Handler of the outer [try] of [_diagnose_zip]. *)
Definition diagnose_zip_error (e : exn) (d : findings) : findings :=
  let error_msg := PyStr.lower (str_of_exn e) in
  if PyStr.contains "bad" error_msg || PyStr.contains "damaged" error_msg
  then suggestion "Попробуйте восстановить архив" (problem "ZIP файл поврежден" d)
  else if PyStr.contains "password" error_msg
  then suggestion "Требуется пароль для открытия" (problem "ZIP файл защищен паролем" d)
  else problem ("Ошибка открытия ZIP: " ++ str_of_exn e) d.

(** [[f for f in file_list if any(f.lower().endswith(ext) for ext in
    supported_extensions)]], with the tuple of six extensions that
    [_extract_from_archive] has too. *)
Definition supported_files (file_list : list string) : list string :=
  List.filter (fun f => PyStr.endswith_any (PyStr.lower f) supported_extensions) file_list.

Definition _diagnose_zip (filepath : string) : findings :=
  match files !! filepath with
  | None => diagnose_zip_error (no_such_file filepath) no_findings
  | Some f =>
      match ZipFile E (f_content f) with
      | inl e => diagnose_zip_error e no_findings
      | inr zip_file =>
          match zip_testzip zip_file with
          | Some _ =>
              suggestion "Попробуйте восстановить архив или получить новую копию"
                (problem "ZIP файл поврежден" no_findings)
          | None =>
              let file_list := map entry_name (zip_entries zip_file) in
              if PyStr.is_nil file_list
              then suggestion "Архив не содержит файлов" (problem "ZIP архив пустой" no_findings)
              else if PyStr.is_nil (supported_files file_list)
              then suggestion ("Поддерживаемые форматы: " ++ PyStr.join ", " supported_extensions)
                     (problem "ZIP не содержит поддерживаемых файлов" no_findings)
              else suggestion ("Найдено " ++ PyStr.of_nat (length (supported_files file_list))
                               ++ " поддерживаемых файлов из "
                               ++ PyStr.of_nat (length file_list))
                     no_findings
          end
      end
  end.

Definition _diagnose_legacy_doc (filepath : string) : findings :=
  if negb (TEXTTRACT_AVAILABLE E)
  then suggestion "Примечание: textract может не работать с Python 3.13"
         (suggestion "Установите textract: pip install textract"
            (problem "Библиотека textract не установлена" no_findings))
  else no_findings.

Definition _diagnose_image (filepath : string) : findings :=
  let d := if negb (TESSERACT_AVAILABLE E)
           then suggestion "Установите Tesseract OCR для распознавания текста"
                  (problem "Tesseract OCR не установлен" no_findings)
           else no_findings in
  let opened := match files !! filepath with
                | None => inl (no_such_file filepath)
                | Some f => image_size Pr (f_content f)
                end in
  match opened with
  | inr (width, height) =>
      if Nat.ltb width 100 || Nat.ltb height 100
      then suggestion "Для лучшего OCR используйте изображения с разрешением не менее 300 DPI"
             (problem "Изображение слишком маленькое" d)
      else d
  | inl e =>
      suggestion "Проверьте формат и целостность файла"
        (problem ("Не удалось открыть изображение: " ++ str_of_exn e) d)
  end.

(** [diagnosis.update(sub)] replaces the two lists: what was appended
    before is dropped. *)
Definition update (d : diagnosis) (sub : findings) : diagnosis :=
  {| d_filepath := d_filepath d; d_exists := d_exists d; d_size := d_size d;
     d_extension := d_extension d; d_findings := sub |}.

(** With the file there, [os.path.getsize] does not raise, and each
    helper handles its own exceptions, so the [except] clause around
    the size and the one around the whole method are not reached. *)
Definition diagnose_file_problems (filepath : string) : diagnosis :=
  match files !! filepath with
  | None =>
      {| d_filepath := filepath; d_exists := false; d_size := 0; d_extension := "";
         d_findings := suggestion "Проверьте правильность пути к файлу"
                         (problem "Файл не существует" no_findings) |}
  | Some f =>
      let file_size := length (f_content f) in
      let found := if Nat.eqb file_size 0
                   then suggestion "Файл может быть поврежден или не был полностью загружен"
                          (problem "Файл пустой (0 байт)" no_findings)
                   else no_findings in
      let ext := PyStr.lower (PyStr.suffix filepath) in
      let d := {| d_filepath := filepath; d_exists := true; d_size := file_size;
                  d_extension := ext; d_findings := found |} in
      if String.eqb ext ".pdf" then update d (_diagnose_pdf filepath)
      else if String.eqb ext ".zip" then update d (_diagnose_zip filepath)
      else if PyStr.mem ext [".doc"; ".rtf"] then update d (_diagnose_legacy_doc filepath)
      else if PyStr.mem ext SUPPORTED_images then update d (_diagnose_image filepath)
      else d
  end.

End Diagnosis.

(** A page whose text can be asked for without an exception. *)
Definition page_answers (p : page_result) : bool :=
  match p with PageFails _ => false | PageOk _ => true end.

(** Some page among the first [n] has a picture. *)
Definition has_picture (images : nat -> nat) (n : nat) : bool :=
  existsb (fun j => negb (Nat.eqb (images j) 0)) (seq 0 n).

(* ------------------------------------------------------------------ *)
(** ** DocumentAnalyzerGUI: the batch over the selected folder

    The part of the application class that decides which files are
    processed and keeps the books: [get_filtered_files],
    [process_single_file], [update_statistics] and the loop of
    [process_files_thread].  The progress bar, the time estimate and
    the dialogs are display only and are left out, as the prints are;
    the operations log is kept as the list of the messages given to
    [log_message]. *)

Module PyOs.

(** [len(s)]: the number of code points, which in UTF-8 is the number
    of bytes that are not continuation bytes. *)
Definition is_continuation (c : ascii) : bool :=
  let n := nat_of_ascii c in Nat.leb 128 n && Nat.ltb n 192.

Definition len (s : string) : nat :=
  length (List.filter (fun c => negb (is_continuation c)) (list_ascii_of_string s)).

(** [os.path.join(a, b)], POSIX flavour. *)
Definition join (a b : string) : string :=
  if String.prefix "/" b then b
  else if negb (PyStr.truthy a) || PyStr.endswith a "/" then a ++ b
  else a ++ "/" ++ b.

(** [Path(p).name]: the text after the last [/], as in [PyStr.suffix]. *)
Definition name (p : string) : string :=
  string_of_list_ascii (rev (PyStr.take_until PyStr.slash (rev (list_ascii_of_string p)))).

End PyOs.

(** The keys of [SUPPORTED_EXTENSIONS] and of [file_filters], in the
    order of the two dictionaries. *)
Inductive filter_type := FImages | FDocuments | FPdfs | FText | FArchives.

Definition filter_types : list filter_type :=
  [FImages; FDocuments; FPdfs; FText; FArchives].

(** [SUPPORTED_EXTENSIONS[filter_type]]. *)
Definition SUPPORTED_EXTENSIONS_at (k : filter_type) : list string :=
  match k with
  | FImages => SUPPORTED_images
  | FDocuments => SUPPORTED_documents
  | FPdfs => SUPPORTED_pdfs
  | FText => SUPPORTED_text
  | FArchives => SUPPORTED_archives
  end.

(** What the application asks of the operating system and of the user. *)
Record desktop := {
  (** [os.walk(folder)]: the triples (root, dirs, files), in order *)
  walk : string -> list (string * list string * list string);
  (** [os.path.relpath(path, start)] *)
  relpath : string -> string -> exn + string;
  (** value of [self.cancel_processing] at its k-th read by the worker
      (the Cancel button sets it from the main thread) *)
  cancel_processing_at : nat -> bool
}.

Record gui := {
  selected_folders : list string;
  file_filters : filter_type -> bool;          (* file_filters[key].get() *)
  processed_files : list string;
  failed_files : list string;
  full_text_parts : list string;
  statistics : gmap string (nat * nat);        (* ext -> count, total_chars *)
  log_text : list string;                      (* messages given to log_message *)
  error_file : list (string * string * string);
      (* calls of error_logger.log_error: error_type, filepath, error *)
  cancel_reads : nat                           (* reads of self.cancel_processing so far *)
}.

Definition set_processed_files (l : list string) (g : gui) : gui :=
  {| selected_folders := selected_folders g; file_filters := file_filters g;
     processed_files := l; failed_files := failed_files g;
     full_text_parts := full_text_parts g; statistics := statistics g;
     log_text := log_text g; error_file := error_file g; cancel_reads := cancel_reads g |}.
Definition set_failed_files (l : list string) (g : gui) : gui :=
  {| selected_folders := selected_folders g; file_filters := file_filters g;
     processed_files := processed_files g; failed_files := l;
     full_text_parts := full_text_parts g; statistics := statistics g;
     log_text := log_text g; error_file := error_file g; cancel_reads := cancel_reads g |}.
Definition set_full_text_parts (l : list string) (g : gui) : gui :=
  {| selected_folders := selected_folders g; file_filters := file_filters g;
     processed_files := processed_files g; failed_files := failed_files g;
     full_text_parts := l; statistics := statistics g;
     log_text := log_text g; error_file := error_file g; cancel_reads := cancel_reads g |}.
Definition set_statistics (m : gmap string (nat * nat)) (g : gui) : gui :=
  {| selected_folders := selected_folders g; file_filters := file_filters g;
     processed_files := processed_files g; failed_files := failed_files g;
     full_text_parts := full_text_parts g; statistics := m;
     log_text := log_text g; error_file := error_file g; cancel_reads := cancel_reads g |}.
Definition set_log_text (l : list string) (g : gui) : gui :=
  {| selected_folders := selected_folders g; file_filters := file_filters g;
     processed_files := processed_files g; failed_files := failed_files g;
     full_text_parts := full_text_parts g; statistics := statistics g;
     log_text := l; error_file := error_file g; cancel_reads := cancel_reads g |}.
Definition set_error_file (l : list (string * string * string)) (g : gui) : gui :=
  {| selected_folders := selected_folders g; file_filters := file_filters g;
     processed_files := processed_files g; failed_files := failed_files g;
     full_text_parts := full_text_parts g; statistics := statistics g;
     log_text := log_text g; error_file := l; cancel_reads := cancel_reads g |}.
Definition set_cancel_reads (n : nat) (g : gui) : gui :=
  {| selected_folders := selected_folders g; file_filters := file_filters g;
     processed_files := processed_files g; failed_files := failed_files g;
     full_text_parts := full_text_parts g; statistics := statistics g;
     log_text := log_text g; error_file := error_file g; cancel_reads := n |}.

(** [self.log_message(message)]. *)
Definition log_message (message : string) (g : gui) : gui :=
  set_log_text (log_text g ++ [message]) g.

(** [self.error_logger.log_error(filepath, error, error_type)]. *)
Definition log_error_file (filepath error error_type : string) (g : gui) : gui :=
  set_error_file (error_file g ++ [(error_type, filepath, error)]) g.

(** ['=' * 60]. *)
Definition rule60 : string := String.concat "" (repeat "=" 60).

(** The part [process_single_file] appends to [full_text_parts]. *)
Definition text_part (relative_path text : string) : string :=
  rule60 ++ PyStr.nl ++ "ФАЙЛ: " ++ relative_path ++ PyStr.nl
  ++ rule60 ++ PyStr.nl ++ PyStr.strip text ++ PyStr.nl.

(** [IndexError], raised by [self.selected_folders[0]] on an empty list. *)
Definition index_error : exn := mk_exn LibError_ "list index out of range".

Section Gui.

Variable E : env.
Variable D : desktop.
(** Fuel of the calls of [extract_text]. *)
Variable fuel : nat.

(** The test of the filters on the lowered extension of a file. *)
Definition include_file (g : gui) (ext : string) : bool :=
  existsb (fun k => file_filters g k && PyStr.mem ext (SUPPORTED_EXTENSIONS_at k))
          filter_types.

Definition get_filtered_files (g : gui) : list string :=
  flat_map
    (fun folder =>
       flat_map
         (fun '(root, dirs, files) =>
            List.filter
              (fun filepath => include_file g (PyStr.lower (PyStr.suffix filepath)))
              (map (PyOs.join root) files))
         (walk D folder))
    (selected_folders g).

Definition update_statistics (filepath : string) (text_length : nat) (g : gui) : gui :=
  let ext := PyStr.lower (PyStr.suffix filepath) in
  let '(count, total_chars) :=
    match statistics g !! ext with Some entry => entry | None => (0, 0) end in
  set_statistics (<[ext := (count + 1, total_chars + text_length)]> (statistics g)) g.

(** [os.path.relpath(filepath, self.selected_folders[0])]. *)
Definition relative_path (filepath : string) (g : gui) : exn + string :=
  match selected_folders g with
  | [] => inl index_error
  | start :: _ => relpath D filepath start
  end.

(** The [except Exception as e] clause of [process_single_file]; an
    exception of [relpath] in it leaves the method. *)
Definition single_file_handler (filepath : string) (e : exn) (g : gui) (s : state)
  : outcome (option string) * gui * state :=
  match relative_path filepath g with
  | inl e' => (Raise e', g, s)
  | inr rp =>
      (Ok None,
       log_error_file filepath (str_of_exn e) "ИСКЛЮЧЕНИЕ"
         (set_failed_files (failed_files g ++ [rp])
            (log_message ("❌ " ++ rp ++ ": " ++ str_of_exn e) g)),
       s)
  end.

Definition process_single_file (filepath : string) (g : gui) (s : state)
  : outcome (option string) * gui * state :=
  match extract_text E fuel filepath s with
  | (OutOfFuel, s') => (OutOfFuel, g, s')
  | (Raise e, s') => single_file_handler filepath e g s'
  | (Ok (text, success), s') =>
      if (success : bool) && PyStr.truthy (PyStr.strip text) then
        match relative_path filepath g with
        | inl e => single_file_handler filepath e g s'
        | inr rp =>
            (Ok (Some rp),
             update_statistics filepath (PyOs.len text)
               (set_full_text_parts (full_text_parts g ++ [text_part rp text])
                  (log_message ("✅ " ++ rp) g)),
             s')
        end
      else
        match relative_path filepath g with
        | inl e => single_file_handler filepath e g s'
        | inr rp =>
            (Ok None,
             log_error_file filepath "Не удалось извлечь текст или файл пустой" "ОБРАБОТКА"
               (set_failed_files (failed_files g ++ [rp])
                  (log_message ("❌ " ++ rp) g)),
             s')
        end
  end.

(** [if result:] for the value [process_single_file] returns. *)
Definition result_truthy (result : option string) : bool :=
  match result with Some rp => PyStr.truthy rp | None => false end.

(** The [for i, filepath in enumerate(all_files)] loop of
    [process_files_thread]; returns [processed_count] and
    [failed_count]. *)
Fixpoint process_loop (all_files : list string) (processed_count failed_count : nat)
         (g : gui) (s : state) : outcome (nat * nat) * gui * state :=
  match all_files with
  | [] => (Ok (processed_count, failed_count), g, s)
  | filepath :: rest =>
      let cancelled := cancel_processing_at D (cancel_reads g) in
      let g := set_cancel_reads (S (cancel_reads g)) g in
      if cancelled
      then (Ok (processed_count, failed_count),
            log_message "⏹️ Обработка отменена пользователем" g, s)
      else
        match process_single_file filepath g s with
        | (OutOfFuel, g', s') => (OutOfFuel, g', s')
        | (Ok result, g', s') =>
            if result_truthy result
            then process_loop rest (S processed_count) failed_count
                   (log_message ("✅ " ++ PyOs.name filepath)
                      (set_processed_files (processed_files g' ++ [filepath]) g')) s'
            else process_loop rest processed_count (S failed_count)
                   (log_message ("❌ " ++ PyOs.name filepath)
                      (set_failed_files (failed_files g' ++ [filepath]) g')) s'
        | (Raise e, g', s') =>
            process_loop rest processed_count (S failed_count)
              (log_error_file filepath (str_of_exn e) "ОБРАБОТКА"
                 (log_message ("❌ " ++ PyOs.name filepath ++ " - " ++ str_of_exn e)
                    (set_failed_files (failed_files g' ++ [filepath]) g'))) s'
        end
  end.

End Gui.

(** [selected_folders] is not empty, and [relpath] answers for its
    first folder, never with the empty string (it answers [.] for the
    folder itself). *)
Definition relpath_answers (D : desktop) (g : gui) : Prop :=
  exists start more,
    selected_folders g = start :: more /\
    forall p, exists rp, relpath D p start = inr rp /\ rp <> "".

(** Number of paths of a list with a given lowered extension. *)
Definition count_ext (ext : string) (l : list string) : nat :=
  length (List.filter (fun p => String.eqb (PyStr.lower (PyStr.suffix p)) ext) l).

(** [statistics] has an entry for exactly the extensions of the files
    in [processed_files], with their number as its count. *)
Definition stats_match (g : gui) : Prop :=
  forall ext,
    option_map fst (statistics g !! ext) =
      (if Nat.eqb (count_ext ext (processed_files g)) 0 then None
       else Some (count_ext ext (processed_files g))).

(** The pages before the first one that raises, and the number of
    pages asked for their text up to and including that one. *)
Fixpoint until_failure (pages : list page_result) : list page_result :=
  match pages with
  | [] => []
  | PageFails _ :: _ => []
  | page :: rest => page :: until_failure rest
  end.

Fixpoint asked (pages : list page_result) : nat :=
  match pages with
  | [] => 0
  | PageFails _ :: _ => 1
  | _ :: rest => S (asked rest)
  end.

(* ------------------------------------------------------------------ *)
(** ** DependencyChecker and the start-up report

    [check_tesseract] looks for the program on the disk and on the
    PATH; what it returns, a flag and a message, is a parameter. *)

Definition get_missing_dependencies (E : env) (check_tesseract : bool * string) : list string :=
  let missing : list string := [] in
  let missing :=
    if negb (TESSERACT_AVAILABLE E) then (missing ++ ["pytesseract"])%list else missing in
  let missing :=
    if negb (TEXTTRACT_AVAILABLE E) then (missing ++ ["textract"])%list else missing in
  let '(tesseract_ok, tesseract_msg) := check_tesseract in
  if negb tesseract_ok
  then (missing ++ [("Tesseract OCR: " ++ tesseract_msg)%string])%list
  else missing.

(** The first loop of [check_dependencies]. *)
Fixpoint sort_missing (missing critical_missing optional_missing : list string)
  : list string * list string :=
  match missing with
  | [] => (critical_missing, optional_missing)
  | dep :: rest =>
      if PyStr.contains "Tesseract OCR" dep || PyStr.contains "pytesseract" dep
      then sort_missing rest (critical_missing ++ [dep])%list optional_missing
      else if PyStr.contains "textract" dep
      then sort_missing rest critical_missing (optional_missing ++ [dep])%list
      else sort_missing rest (critical_missing ++ [dep])%list optional_missing
  end.

(** [for dep in deps: self.log_message(line dep)]. *)
Definition log_each (line : string -> string) (deps : list string) (g : gui) : gui :=
  fold_left (fun g dep => log_message (line dep) g) deps g.

Definition check_dependencies (E : env) (check_tesseract : bool * string) (g : gui) : gui :=
  let missing := get_missing_dependencies E check_tesseract in
  let '(critical_missing, optional_missing) := sort_missing missing [] [] in
  if negb (PyStr.is_nil critical_missing) then
    log_message "📋 Для полной функциональности установите Tesseract OCR"
      (log_each (fun dep => "  - " ++ dep) critical_missing
         (log_message "⚠️ Отсутствуют важные компоненты:" g))
  else if negb (PyStr.is_nil optional_missing) then
    log_message "📋 Эти компоненты необязательны, программа работает без них"
      (log_each (fun dep => "  - " ++ dep ++ " (для старых форматов .doc/.rtf)") optional_missing
         (log_message "ℹ️ Дополнительные возможности:" g))
  else log_message "✅ Все компоненты установлены" g.

(** The events of the OCR tool chain: a file is rasterized, a page
    image is given to Tesseract. *)
Definition is_ocr_event (ev : event) : bool :=
  match ev with
  | Rasterize _ | OcrPage _ | OcrCli _ => true
  | _ => false
  end.

(** The trace grows, and by no event of the OCR tool chain. *)
Definition no_ocr (s s' : state) : Prop :=
  exists t, trace s' = (trace s ++ t)%list /\
            forallb (fun ev => negb (is_ocr_event ev)) t = true.

(* ------------------------------------------------------------------ *)
(** ** Further notions: cancellation in the fallback chain *)

(** The stage that works with library [l], and what each stage runs. *)
Definition stage_of (l : pdf_lib) : stage :=
  match l with
  | Pdfplumber => Primary
  | PyMuPDF => Secondary
  | PyPDF2 => Tertiary
  end.

Definition stage_run (E : env) (st : stage) : string -> list string -> M (list string) :=
  match st with
  | Primary => primary_parse E
  | Secondary => secondary_parse E
  | Tertiary => tertiary_parse E
  | OcrRecovery => ocr_recovery E
  end.

(** Library [l] is installed and opens the content as [pages]
    (PyPDF2: and does not report it as encrypted). *)
Definition opens (E : env) (l : pdf_lib) (content : bytes) (pages : list page_result) : Prop :=
  match l with
  | Pdfplumber => pdfplumber_open E content = inr pages
  | PyMuPDF => fitz_installed E = true /\ fitz_open E content = inr pages
  | PyPDF2 => PyPDF2_installed E = true /\ PdfReader E content = inr (pages, false)
  end.

(** The OCR tool chain is installed and [convert_from_path] turns the
    content into [images]. *)
Definition rasterizes (E : env) (content : bytes) (images : list page_image) : Prop :=
  TESSERACT_AVAILABLE E = true /\ pdf2image_installed E = true /\
  match poppler_dir E with Some _ => true | None => pdftoppm_on_path E end = true /\
  convert_from_path E content = inr images.

(** The state in which [_extract_from_pdf] starts its first stage. *)
Definition pdf_entered (filepath : string) (s : state) : state :=
  set_trace (trace s ++ [Enter XPdf filepath]) s.

(** The stages of [_extract_from_pdf] that come before stage [st]. *)
Definition chain_before (E : env) (st : stage) (filepath : string) : M (list string) :=
  match st with
  | Primary => ret []
  | Secondary => emit (Attempt Primary) ;;> primary_parse E filepath []
  | Tertiary =>
      texts <~ (emit (Attempt Primary) ;;> primary_parse E filepath []) ;;
      when_empty Secondary (secondary_parse E filepath) texts
  | OcrRecovery =>
      texts <~ (emit (Attempt Primary) ;;> primary_parse E filepath []) ;;
      texts <~ when_empty Secondary (secondary_parse E filepath) texts ;;
      when_empty Tertiary (tertiary_parse E filepath) texts
  end.

(** Stage [st] of the chain is reached from [s] with no block in hand,
    in state [sk]. *)
Definition reached_empty (E : env) (st : stage) (filepath : string) (s sk : state) : Prop :=
  chain_before E st filepath (pdf_entered filepath s) = (Ok [], sk).

(** What [_extract_from_pdf] raises when all stages end with no block. *)
Definition no_text_in_pdf (filepath : string) : exn :=
  mk_exn Exception_
    ("Ошибка открытия PDF " ++ filepath ++ ": " ++
     "Не удалось извлечь текст из PDF. Возможные причины: файл содержит только изображения без текстового слоя, или требуется установка Tesseract OCR для распознавания отсканированных документов.").

(** A page is asked for its text, or a page image is recognized. *)
Definition is_page_event (ev : event) : bool :=
  match ev with
  | PageQuery _ _ | OcrPage _ => true
  | _ => false
  end.

Definition pages_processed (t : list event) : nat :=
  length (List.filter is_page_event t).

(** Among the [n] readings of the flag from the [from]-th on, those
    that are false. *)
Fixpoint clear_reads (c : nat -> bool) (from n : nat) : nat :=
  match n with
  | 0 => 0
  | S n' => (if c from then 0 else 1) + clear_reads c (S from) n'
  end.

(** Pages and readings of the flag go together: the pages processed
    from [s] to [s'] are as many as the readings in between that were
    false. *)
Definition polled (E : env) (s s' : state) : Prop :=
  flag_reads s <= flag_reads s' /\
  exists t, trace s' = (trace s ++ t)%list /\
            pages_processed t =
              clear_reads (cancelled_at E) (flag_reads s) (flag_reads s' - flag_reads s).

(** An event in which pages of a file are worked on: a page is asked
    for its text, the file is rasterized, a page image is recognized. *)
Definition works_on_pages (ev : event) : bool :=
  match ev with
  | PageQuery _ _ | Rasterize _ | OcrPage _ | OcrCli _ => true
  | _ => false
  end.

(** C7 as the spec words it, for the fallback chain.  pdfplumber shows
    a page and the flag is set all the time, so the flag is observed
    at the first boundary of the first loop: from then on, and so in
    the whole call, no page of the file is worked on. *)
Definition pdf_chain_honours_cancellation (E : env) (filepath : string) (s : state) : Prop :=
  forall f page pages,
    fs s !! filepath = Some f ->
    pdfplumber_open E (f_content f) = inr (page :: pages) ->
    (forall k, cancelled_at E k = true) ->
    forall ev, In ev (trace (snd (_extract_from_pdf E filepath s))) ->
               In ev (trace s) \/ works_on_pages ev = false.

(* ------------------------------------------------------------------ *)
(** ** Temporary files on an operating system that can fail *)

(** What the operating system does to temporary files.  [temp_fault n]
    is the fate of the [n]-th temporary file asked for: [None], it is
    created and written; [Some (e, None)], it cannot be created and
    [NamedTemporaryFile] raises [e]; [Some (e, Some written)], it is
    created, but [temp_file.write] or [image.save] raises [e] when
    the bytes [written] are in the file.  [unlink_fails p] tells
    whether [os.unlink(p)] raises. *)
Record faults := {
  temp_fault : nat -> option (exn * option bytes);
  unlink_fails : string -> bool
}.

(** The simplified PDF path, the archive extractor and [extract_text]
    once more, over such an operating system.  The two [with
    tempfile.NamedTemporaryFile(delete=False, ...)] blocks sit before
    the [try] whose [finally] removes the file: an exception in them
    leaves the loop of the simplified path, or is taken by the
    [except Exception] around the body of the entry loop, and the
    file, if it was created, stays.  An exception of [os.unlink] is
    swallowed, and the file stays. *)
Module Fallible.

Section Processor.

Variable F : faults.
Variable E : env.

(** [with tempfile.NamedTemporaryFile(delete=False, suffix=sfx) as f:
    f.write(content); path = f.name]. *)
Definition NamedTemporaryFile (sfx : string) (content : bytes) : M string :=
  fun s =>
    let p := temp_path (tmp_ctr s) sfx in
    let holding written :=
      set_tmp_ctr (S (tmp_ctr s))
        (set_clock (S (clock s))
           (set_fs (<[p := {| f_content := written; f_mtime := clock s |}]> (fs s)) s)) in
    match temp_fault F (tmp_ctr s) with
    | None => (Ok p, holding content)
    | Some (e, Some written) => (Raise e, holding written)
    | Some (e, None) => (Raise e, set_tmp_ctr (S (tmp_ctr s)) s)
    end.

(** [try: os.unlink(path)  except: pass]. *)
Definition unlink (path : string) : M unit :=
  fun s =>
    if unlink_fails F path then (Ok tt, s)
    else (Ok tt, set_fs (delete path (fs s)) s).

Fixpoint simple_ocr_loop (i : nat) (images : list page_image)
         (texts : list string) : M (list string) :=
  match images with
  | [] => ret texts
  | image :: rest =>
      img_path <~ NamedTemporaryFile ".png" (img_png image) ;;
      texts' <~ try_finally
        (emit (OcrCli i) ;;>
         match img_tesseract image with
         | SubprocessFails e => reraise e
         | Completed returncode stdout =>
             if Nat.eqb returncode 0 then
               let text := cli_text E stdout in
               if PyStr.truthy text then ret (texts ++ [ocr_block i text])%list else ret texts
             else ret texts
         end)
        (unlink img_path) ;;
      simple_ocr_loop (S i) rest texts'
  end.

Definition simple_ocr (filepath : string) (texts : list string) : M (list string) :=
  if negb (TESSERACT_AVAILABLE E)
  then raise Exception_ "Tesseract OCR не установлен."
  else
    try_except
      (import_pdf2image E ;;>
       match poppler_dir E with
       | None => raise Exception_ "Poppler не найден"
       | Some _ =>
           emit (Rasterize filepath) ;;>
           content <~ read_file filepath ;;
           images <~ lift (convert_from_path E content) ;;
           simple_ocr_loop 0 images texts
       end)
      (fun e =>
         if is_kind ImportError_ e then raise Exception_ "pdf2image не установлен"
         else raise Exception_ ("Ошибка OCR: " ++ str_of_exn e)).

Definition _extract_from_pdf_simple (filepath : string) : M string :=
  emit (Enter XPdfSimple filepath) ;;>
  try_except
    (file_size <~ getsize filepath ;;
     if Nat.eqb file_size 0 then raise Exception_ "Файл пустой (0 байт)"
     else
       opened <~ attempt (emit (OpenPdf Pdfplumber filepath) ;;>
                          content <~ read_file filepath ;;
                          lift (pdfplumber_open E content)) ;;
       texts <~ match opened with
                | inl _ => ret []
                | inr pages => simple_page_loop 0 pages []
                end ;;
       texts <~ (if PyStr.is_nil texts then simple_ocr filepath texts else ret texts) ;;
       ret (join_blocks texts))
    (fun e => raise Exception_ ("Ошибка обработки PDF: " ++ str_of_exn e)).

Section Archive.

Variable extract_text : string -> M (string * bool).

Definition pdf_member (file_name temp_file_path : string)
           (all_texts : list string) : M (list string) :=
  try_except
    (pdf_text <~ _extract_from_pdf_simple temp_file_path ;;
     if PyStr.has_text pdf_text
     then ret (all_texts ++ [file_block file_name pdf_text])%list
     else ret (all_texts ++ [ocr_error_block file_name
            "OCR не смог распознать текст. Возможно, документ плохого качества или содержит только изображения."])%list)
    (fun ocr_error =>
       ret (all_texts ++ [ocr_error_block file_name (str_of_exn ocr_error)])%list).

Definition temp_member (file_name : string) (content : bytes)
           (all_texts : list string) : M (list string) :=
  temp_file_path <~ NamedTemporaryFile (PyStr.suffix file_name) content ;;
  try_finally
    (try_except
       (if PyStr.endswith (PyStr.lower file_name) ".pdf"
        then pdf_member file_name temp_file_path all_texts
        else document_member extract_text file_name temp_file_path all_texts)
       (fun e =>
          ret (all_texts ++ [processing_error_block file_name (str_of_exn e)])%list))
    (unlink temp_file_path).

(** Body of the entry loop; the handler is the [except Exception as e]
    around it, which is where a failure to write the temporary file
    arrives. *)
Definition member (en : zip_entry) (all_texts : list string) : M (list string) :=
  let file_name := entry_name en in
  emit (ReadEntry file_name) ;;>
  match entry_read en with
  | inl e => ret (all_texts ++ [read_error_block file_name (str_of_exn e)])%list
  | inr content =>
      if Nat.eqb (length content) 0 then ret all_texts
      else if PyStr.endswith_any (PyStr.lower file_name) [".txt"; ".md"]
      then ret (text_member E file_name content all_texts)
      else if PyStr.endswith_any (PyStr.lower file_name) [".pdf"; ".docx"; ".doc"; ".rtf"]
      then try_except
             (temp_member file_name content all_texts)
             (fun e => ret (all_texts ++ [read_error_block file_name (str_of_exn e)])%list)
      else ret all_texts
  end.

Fixpoint entry_loop (entries : list zip_entry) (found_supported_files : bool)
         (all_texts : list string) : M (bool * list string) :=
  match entries with
  | [] => ret (found_supported_files, all_texts)
  | en :: rest =>
      if is_supported (entry_name en)
      then all_texts' <~ member en all_texts ;; entry_loop rest true all_texts'
      else entry_loop rest found_supported_files all_texts
  end.

Definition zip_texts (filepath : string) : M (list string) :=
  file_size <~ getsize filepath ;;
  if Nat.eqb file_size 0 then raise Exception_ "ZIP файл пустой (0 байт)"
  else
    content <~ read_file filepath ;;
    zip_file <~ lift (ZipFile E content) ;;
    match zip_testzip zip_file with
    | Some test_error =>
        raise Exception_ ("ZIP файл поврежден: " ++ str_of_exn test_error)
    | None =>
        if PyStr.is_nil (zip_entries zip_file)
        then raise Exception_ "ZIP архив пустой"
        else
          r <~ entry_loop (zip_entries zip_file) false [] ;;
          if negb (fst r)
          then raise Exception_ "В ZIP архиве нет поддерживаемых файлов"
          else ret (snd r)
    end.

Definition _extract_from_archive (filepath : string) : M string :=
  emit (Enter XArchive filepath) ;;>
  let ext := PyStr.lower (PyStr.suffix filepath) in
  try_except
    (all_texts <~ (if String.eqb ext ".zip" then zip_texts filepath
                   else if String.eqb ext ".rar" then ret [rar_notice]
                   else ret []) ;;
     let result := join_blocks all_texts in
     if PyStr.truthy (PyStr.strip result) then ret result
     else raise Exception_ archive_no_text)
    (fun e => raise Exception_ ("Ошибка обработки архива " ++ filepath ++ ": " ++ str_of_exn e)).

End Archive.

Fixpoint extract_text (fuel : nat) (filepath : string) : M (string * bool) :=
  match fuel with
  | 0 => out_of_fuel
  | S fuel' =>
      cached_text <~ get_cached_text filepath ;;
      match cached_text with
      | Some text => ret (text, true)
      | None =>
          let ext := PyStr.lower (PyStr.suffix filepath) in
          try_except
            (text <~ dispatch E (_extract_from_archive (extract_text fuel')) ext filepath ;;
             if PyStr.has_text text
             then cache_text filepath text ;;> ret (text, true)
             else log_error ("Файл пустой или не содержит текста: " ++ filepath) ;;>
                  ret (text, false))
            (fun e =>
               log_error ("Ошибка при обработке " ++ filepath ++ ": " ++ str_of_exn e) ;;>
               ret ("", false))
      end
  end.

End Processor.

End Fallible.

(** An operating system that never fails. *)
Definition reliable : faults :=
  {| temp_fault := fun _ => None; unlink_fails := fun _ => false |}.

(** No write fails once the file is there, and no [os.unlink] fails. *)
Definition leaves_no_file (F : faults) : Prop :=
  (forall n e written, temp_fault F n <> Some (e, Some written)) /\
  (forall p, unlink_fails F p = false).

(* ------------------------------------------------------------------ *)
(** ** Further worlds for the examples *)

Module Cases.

(** An empty file. *)
Definition empty_file : file := {| f_content := []; f_mtime := 17 |}.

(** An archive whose integrity test raises. *)
Definition bad_crc : zip_archive :=
  {| zip_testzip := Some (Lab.lib_error "Bad CRC-32 for file 'a.txt'");
     zip_entries := [ {| entry_name := "a.txt"; entry_read := inr (list_byte_of_string "one") |} ] |}.

Definition corrupt : env :=
  Lab.world Lab.never false Lab.no_pdf None None None Lab.no_docx (inr bad_crc) Lab.codecs.

(** An archive that holds only a picture. *)
Definition one_picture : zip_archive :=
  {| zip_testzip := None;
     zip_entries := [ {| entry_name := "photo.png"; entry_read := inr Lab.some_bytes |} ] |}.

Definition album : env :=
  Lab.world Lab.never false Lab.no_pdf None None None Lab.no_docx (inr one_picture) Lab.codecs.

(** A probe that finds no protection mark, one picture on every page,
    and cannot open any image. *)
Definition pictures : probe :=
  {| metadata_has_Encrypt := fun _ => false;
     page_images := fun _ _ => 1;
     image_size := fun _ => inl (Lab.lib_error "cannot identify image file") |}.

(** A probe that finds no picture at all. *)
Definition no_pictures : probe :=
  {| metadata_has_Encrypt := fun _ => false;
     page_images := fun _ _ => 0;
     image_size := fun _ => inl (Lab.lib_error "cannot identify image file") |}.

(** A world with textract, which reads every file as "old". *)
Definition with_textract : env :=
  {| TESSERACT_AVAILABLE := false;
     TEXTTRACT_AVAILABLE := true;
     cancelled_at := Lab.never;
     pdfplumber_open := fun _ => Lab.no_pdf;
     fitz_installed := false;
     fitz_open := fun _ => inl (Lab.lib_error "fitz");
     PyPDF2_installed := false;
     PdfReader := fun _ => inl (Lab.lib_error "PyPDF2");
     pdf2image_installed := false;
     poppler_dir := None;
     pdftoppm_on_path := false;
     convert_from_path := fun _ => inl (Lab.lib_error "pdf2image");
     image_ocr := fun _ => inl (Lab.lib_error "cannot identify image file");
     Document := fun _ => Lab.no_docx;
     textract_process := fun _ => inr (list_byte_of_string "old");
     ZipFile := fun _ => Lab.no_zip;
     decode := Lab.codecs;
     decode_ignore := fun _ => "" |}.

(** The part of [p] below the folder [start], if [p] is below it. *)
Definition below (start p : string) : string :=
  if String.prefix (start ++ "/") p
  then String.substring (String.length start + 1) (String.length p) p
  else "".

(** A folder with a note, a program and a blank text file; [relpath]
    cuts the folder off. *)
Definition home : desktop :=
  {| walk := fun folder =>
               if String.eqb folder "docs"
               then [("docs", [], ["note.txt"; "setup.exe"; "blank.txt"])]
               else [];
     relpath := fun p start =>
                  inr (match below start p with
                       | EmptyString => "../" ++ p
                       | String c r => String c r
                       end);
     cancel_processing_at := Lab.never |}.

Definition note : file := {| f_content := list_byte_of_string "hello"; f_mtime := 17 |}.

Definition home_files : gmap string file :=
  {[ "docs/note.txt" := note; "docs/blank.txt" := Lab.blank_file;
     "docs/setup.exe" := Lab.a_file ]}.

(** The window after [start_processing], with every filter on. *)
Definition window : gui :=
  {| selected_folders := ["docs"]; file_filters := fun _ => true;
     processed_files := []; failed_files := []; full_text_parts := [];
     statistics := ∅; log_text := []; error_file := []; cancel_reads := 0 |}.

(** A PDF whose second page cannot be read. *)
Definition torn : list page_result :=
  [PageOk (Some "one"); PageFails (Lab.lib_error "bad page"); PageOk (Some "three")].

(** A scan of three pages with every library and the OCR tool chain
    installed; no library finds a text layer. *)
Definition three_scans : list page_image :=
  [Lab.scanned "one"; Lab.scanned "two"; Lab.scanned "three"].

Definition scan_world (cancel : nat -> bool) : env :=
  Lab.world cancel true (inr (Lab.blank_pages 3))
            (Some (inr (Lab.blank_pages 3))) (Some (inr (Lab.blank_pages 3, false)))
            (Some (inr three_scans)) Lab.no_docx Lab.no_zip Lab.codecs.

(** The user cancels before the first page is read. *)
Definition cancelled_scan : env := scan_world Lab.always.

(** The user cancels while the first page image is recognized: the
    three parsers read the flag nine times, the OCR loop once, and the
    flag is set from the eleventh reading on. *)
Definition cancel_during_ocr : env := scan_world (fun k => Nat.leb 10 k).

(** A temporary directory in which the first file cannot be created. *)
Definition no_temp_dir : faults :=
  {| temp_fault := fun n =>
       if Nat.eqb n 0
       then Some (mk_exn OSError_ "[Errno 13] Permission denied: '/tmp/tmp0.pdf'", None)
       else None;
     unlink_fails := fun _ => false |}.

(** A disk that is full when the first temporary file has one byte. *)
Definition disk_full : faults :=
  {| temp_fault := fun n =>
       if Nat.eqb n 0
       then Some (mk_exn OSError_ "[Errno 28] No space left on device", Some [Byte.x50])
       else None;
     unlink_fails := fun _ => false |}.

(** Temporary files that cannot be removed. *)
Definition locked_temps : faults :=
  {| temp_fault := fun _ => None; unlink_fails := fun _ => true |}.

End Cases.


(* ================================================================== *)
(** * Properties *)

(** ** Strings: a text with a character that is not white space
       survives [strip] *)

Lemma plainb_not_in c pat :
  plainb c = true -> In pat PyStr.ws_patterns -> ~ In c pat.
Proof.
  unfold plainb. rewrite forallb_forall. intros Hc Hpat Hin.
  specialize (Hc pat Hpat). apply negb_true_iff in Hc.
  assert (existsb (Ascii.eqb c) pat = true) as Hex.
  { apply existsb_exists. exists c. split; [assumption | apply Ascii.eqb_refl]. }
  congruence.
Qed.

Lemma strip_prefix_mid pat : forall p c q l',
  ~ In c pat ->
  PyStr.strip_prefix pat (p ++ c :: q)%list = Some l' ->
  exists p', l' = (p' ++ c :: q)%list.
Proof.
  induction pat as [|a pat IH]; intros p c q l' Hc H; simpl in H.
  - injection H as <-. now exists p.
  - destruct p as [|x p]; simpl in H.
    + destruct (Ascii.eqb a c) eqn:Hac; [|discriminate].
      apply Ascii.eqb_eq in Hac. subst a. exfalso. apply Hc. now left.
    + destruct (Ascii.eqb a x); [|discriminate].
      apply (IH p c q l'); [|assumption].
      intros Hin. apply Hc. now right.
Qed.

Lemma strip_one_mid pats : forall p c q l',
  (forall pat, In pat pats -> ~ In c pat) ->
  PyStr.strip_one pats (p ++ c :: q)%list = Some l' ->
  exists p', l' = (p' ++ c :: q)%list.
Proof.
  induction pats as [|pat pats IH]; intros p c q l' Hc H; simpl in H; [discriminate|].
  destruct (PyStr.strip_prefix pat (p ++ c :: q)%list) as [l0|] eqn:Hp.
  - injection H as <-. apply (strip_prefix_mid pat p c q l0); [|assumption].
    apply Hc. now left.
  - apply (IH p c q l'); [|assumption].
    intros pat' Hin. apply Hc. now right.
Qed.

Lemma drop_ws_mid pats fuel : forall p c q,
  (forall pat, In pat pats -> ~ In c pat) ->
  exists p', PyStr.drop_ws pats fuel (p ++ c :: q)%list = (p' ++ c :: q)%list.
Proof.
  induction fuel as [|n IH]; intros p c q Hc; simpl.
  - now exists p.
  - destruct (PyStr.strip_one pats (p ++ c :: q)%list) as [l'|] eqn:H1.
    + destruct (strip_one_mid pats p c q l' Hc H1) as [p' ->]. now apply IH.
    + now exists p.
Qed.

Lemma strip_l_mid p c q :
  plainb c = true ->
  exists p' q', PyStr.rstrip_l (PyStr.lstrip_l (p ++ c :: q)%list) = (p' ++ c :: q')%list.
Proof.
  intros Hc. unfold PyStr.lstrip_l.
  destruct (drop_ws_mid PyStr.ws_patterns (length (p ++ c :: q)%list) p c q) as [p' ->].
  { intros pat Hin. now apply plainb_not_in. }
  unfold PyStr.rstrip_l.
  replace (rev (p' ++ c :: q)%list) with (rev q ++ c :: rev p')%list
    by (rewrite rev_app_distr; simpl; now rewrite <- app_assoc).
  destruct (drop_ws_mid (map (@rev ascii) PyStr.ws_patterns)
              (length (p' ++ c :: q)%list) (rev q) c (rev p')) as [q' ->].
  { intros pat Hin. apply in_map_iff in Hin. destruct Hin as [pat0 [<- Hin0]].
    rewrite <- in_rev. now apply plainb_not_in. }
  exists p', (rev q'). rewrite rev_app_distr. simpl.
  rewrite rev_involutive, <- app_assoc. reflexivity.
Qed.

Lemma truthy_of_list l : l <> [] -> PyStr.truthy (string_of_list_ascii l) = true.
Proof. destruct l; [congruence | reflexivity]. Qed.

(** A text that holds a character outside every white-space encoding
    is not blank. *)
Lemma strip_truthy s : has_plain s = true -> PyStr.truthy (PyStr.strip s) = true.
Proof.
  unfold has_plain. rewrite existsb_exists. intros [c [Hin Hc]].
  apply in_split in Hin. destruct Hin as [p [q Hs]].
  unfold PyStr.strip. rewrite Hs.
  destruct (strip_l_mid p c q Hc) as [p' [q' ->]].
  apply truthy_of_list. now destruct p'.
Qed.

Lemma has_plain_truthy s : has_plain s = true -> PyStr.truthy s = true.
Proof. destruct s; [discriminate | reflexivity]. Qed.

Lemma has_text_of_plain s : has_plain s = true -> PyStr.has_text s = true.
Proof.
  intros H. unfold PyStr.has_text.
  now rewrite (has_plain_truthy s H), (strip_truthy s H).
Qed.

Lemma list_ascii_app s t :
  list_ascii_of_string (s ++ t) = (list_ascii_of_string s ++ list_ascii_of_string t)%list.
Proof. induction s as [|c s IH]; simpl; [reflexivity | now rewrite IH]. Qed.

Lemma has_plain_app s t : has_plain (s ++ t) = has_plain s || has_plain t.
Proof. unfold has_plain. now rewrite list_ascii_app, existsb_app. Qed.

Lemma has_plain_app_l s t : has_plain s = true -> has_plain (s ++ t) = true.
Proof. intros H. now rewrite has_plain_app, H. Qed.

(** The opposite direction for [strip]: a blank text has no text. *)
Lemma has_text_strip_false s :
  PyStr.truthy (PyStr.strip s) = false -> PyStr.has_text s = false.
Proof. intros H. unfold PyStr.has_text. rewrite H. apply andb_false_r. Qed.

(* ------------------------------------------------------------------ *)
(** ** The monad *)

Lemma bind_ok {A B} (m : M A) (k : A -> M B) s a s' :
  m s = (Ok a, s') -> bind m k s = k a s'.
Proof. intros H. unfold bind. now rewrite H. Qed.

Lemma bind_raise {A B} (m : M A) (k : A -> M B) s e s' :
  m s = (Raise e, s') -> bind m k s = (Raise e, s').
Proof. intros H. unfold bind. now rewrite H. Qed.

Lemma bind_out_of_fuel {A B} (m : M A) (k : A -> M B) s s' :
  m s = (OutOfFuel, s') -> bind m k s = (OutOfFuel, s').
Proof. intros H. unfold bind. now rewrite H. Qed.

(* ------------------------------------------------------------------ *)
(** ** The result cache *)

Lemma get_cached_text_hit filepath s r :
  cache s !! filepath = Some r ->
  rec_hash r = file_hash_in (fs s) filepath ->
  get_cached_text filepath s = (Ok (Some (rec_text r)), s).
Proof.
  intros Hc Hh. unfold get_cached_text, bind, get_file_hash.
  rewrite Hc, Hh, String.eqb_refl. reflexivity.
Qed.

Lemma get_cached_text_state filepath s r s' :
  get_cached_text filepath s = (r, s') -> s' = s.
Proof.
  unfold get_cached_text, bind, get_file_hash.
  destruct (cache s !! filepath) as [c|]; [destruct (_ =? _)|]; now intros [= _ <-].
Qed.

(** C3.  A path whose cache record is present and carries the current
    freshness signature of the file: [extract_text] returns the cached
    text with [success = true], and the whole processor state, the
    ghost trace of extractor entries and library calls included, is
    what it was, so no extractor has been invoked. *)
Theorem extract_text_cache_hit (E : env) (fuel : nat) (filepath : string)
        (s : state) (r : CacheRecord) :
  cache s !! filepath = Some r ->
  rec_hash r = file_hash_in (fs s) filepath ->
  extract_text E (S fuel) filepath s = (Ok (rec_text r, true), s).
Proof.
  intros Hc Hh. simpl.
  rewrite (bind_ok _ _ s _ s (get_cached_text_hit filepath s r Hc Hh)).
  reflexivity.
Qed.

Lemma extract_text_cache_hit_witness :
  cache Lab.warm !! "report.txt" = Some Lab.report_record /\
  rec_hash Lab.report_record = file_hash_in (fs Lab.warm) "report.txt" /\
  extract_text Lab.bare 1 "report.txt" Lab.warm = (Ok ("Hello", true), Lab.warm).
Proof.
  split; [vm_compute; reflexivity|].
  split; [vm_compute; reflexivity|].
  apply (extract_text_cache_hit Lab.bare 0 "report.txt" Lab.warm Lab.report_record);
    vm_compute; reflexivity.
Defined.

(* ------------------------------------------------------------------ *)
(** ** Dispatch on the extension *)

Lemma mem_app x l1 l2 : PyStr.mem x (l1 ++ l2) = PyStr.mem x l1 || PyStr.mem x l2.
Proof. apply existsb_app. Qed.

Lemma dispatch_unsupported E archive ext filepath :
  PyStr.mem ext SUPPORTED_EXTENSIONS = false ->
  dispatch E archive ext filepath = ret "".
Proof.
  intros H. unfold SUPPORTED_EXTENSIONS in H. rewrite !mem_app in H.
  apply orb_false_elim in H as [Himg H]. apply orb_false_elim in H as [Hdoc H].
  apply orb_false_elim in H as [Hpdf H]. apply orb_false_elim in H as [Htxt Harc].
  unfold dispatch. rewrite Hpdf, Himg, Htxt, Harc.
  unfold SUPPORTED_documents, PyStr.mem in Hdoc. simpl in Hdoc.
  apply orb_false_elim in Hdoc as [Hdocx Hdoc].
  rewrite Hdocx. unfold PyStr.mem. simpl. rewrite Hdoc. reflexivity.
Qed.

Lemma extract_text_unsupported_miss (E : env) (fuel : nat) (filepath : string) (s : state) :
  PyStr.mem (PyStr.lower (PyStr.suffix filepath)) SUPPORTED_EXTENSIONS = false ->
  get_cached_text filepath s = (Ok None, s) ->
  extract_text E (S fuel) filepath s =
    (Ok ("", false), set_error_log (error_log s ++ [no_text_message filepath]) s).
Proof.
  intros Hext Hmiss. simpl.
  rewrite (bind_ok _ _ s _ s Hmiss).
  rewrite (dispatch_unsupported _ _ _ _ Hext).
  reflexivity.
Qed.

(* ------------------------------------------------------------------ *)
(** ** The plain-text extractor *)

Lemma read_file_eq filepath s f :
  fs s !! filepath = Some f -> read_file filepath s = (Ok (f_content f), s).
Proof. intros H. unfold read_file. now rewrite H. Qed.

Lemma read_text_eq E enc filepath s f :
  fs s !! filepath = Some f ->
  read_text E enc filepath s =
    (Ok (option_map universal_newlines (decode E enc (f_content f))), s).
Proof.
  intros H. unfold read_text. now rewrite (bind_ok _ _ _ _ _ (read_file_eq _ _ _ H)).
Qed.

Lemma text_loop_first E filepath s f pre : forall enc post text,
  fs s !! filepath = Some f ->
  (forall e, In e pre -> decode E e (f_content f) = None) ->
  decode E enc (f_content f) = Some text ->
  text_loop E (pre ++ enc :: post) filepath s = (Ok (universal_newlines text), s).
Proof.
  induction pre as [|e0 pre IH]; intros enc post text Hf Hpre Henc; simpl.
  - rewrite (bind_ok _ _ _ _ _ (read_text_eq E enc _ _ _ Hf)), Henc. reflexivity.
  - rewrite (bind_ok _ _ _ _ _ (read_text_eq E e0 _ _ _ Hf)).
    rewrite (Hpre e0) by now left. simpl.
    apply IH; auto. intros e He. apply Hpre. now right.
Qed.

Lemma text_loop_none E filepath s f encs :
  fs s !! filepath = Some f ->
  (forall e, In e encs -> decode E e (f_content f) = None) ->
  text_loop E encs filepath s = (Raise decode_failure, s).
Proof.
  intros Hf. induction encs as [|e0 encs IH]; intros Hall; simpl; [reflexivity|].
  rewrite (bind_ok _ _ _ _ _ (read_text_eq E e0 _ _ _ Hf)).
  rewrite (Hall e0) by now left. simpl.
  apply IH. intros e He. apply Hall. now right.
Qed.

(** C8.  [_extract_from_text] goes through utf-8, cp1251, latin-1 in
    that order, each time on the whole content of the file, and returns
    the text of the first encoding that decodes it (as text-mode
    reading delivers it); when no encoding decodes the content it
    raises, and nothing of a partial decode is returned. *)
Theorem extract_from_text_first_decode (E : env) (filepath : string) (s : state) (f : file) :
  fs s !! filepath = Some f ->
  encodings = [utf_8; cp1251; latin_1] /\
  (forall pre enc post text,
      encodings = (pre ++ enc :: post)%list ->
      (forall e, In e pre -> decode E e (f_content f) = None) ->
      decode E enc (f_content f) = Some text ->
      _extract_from_text E filepath s =
        (Ok (universal_newlines text), set_trace (trace s ++ [Enter XText filepath]) s)) /\
  ((forall e, In e encodings -> decode E e (f_content f) = None) ->
   _extract_from_text E filepath s =
     (Raise decode_failure, set_trace (trace s ++ [Enter XText filepath]) s)).
Proof.
  intros Hf. split; [reflexivity|]. split.
  - intros pre enc post text Hsplit Hpre Henc.
    unfold _extract_from_text, bind, emit. rewrite Hsplit.
    now apply (text_loop_first E filepath _ f pre enc post text).
  - intros Hall. unfold _extract_from_text, bind, emit.
    now apply (text_loop_none E filepath _ f encodings).
Qed.

Lemma extract_from_text_first_decode_witness :
  fs (Lab.fresh {[ "note.txt" := Lab.e_acute ]}) !! "note.txt" = Some Lab.e_acute /\
  _extract_from_text Lab.bare "note.txt" (Lab.fresh {[ "note.txt" := Lab.e_acute ]}) =
    (Ok "é", set_trace [Enter XText "note.txt"] (Lab.fresh {[ "note.txt" := Lab.e_acute ]})) /\
  _extract_from_text Lab.no_codec "note.txt" (Lab.fresh {[ "note.txt" := Lab.e_acute ]}) =
    (Raise decode_failure,
     set_trace [Enter XText "note.txt"] (Lab.fresh {[ "note.txt" := Lab.e_acute ]})).
Proof.
  assert (Hf : fs (Lab.fresh {[ "note.txt" := Lab.e_acute ]}) !! "note.txt" = Some Lab.e_acute)
    by (vm_compute; reflexivity).
  split; [exact Hf|]. split.
  - destruct (extract_from_text_first_decode Lab.bare "note.txt" _ _ Hf) as [_ [H _]].
    apply (H [utf_8; cp1251] latin_1 [] "é"); [reflexivity| |vm_compute; reflexivity].
    intros e [<-|[<-|[]]]; vm_compute; reflexivity.
  - destruct (extract_from_text_first_decode Lab.no_codec "note.txt" _ _ Hf) as [_ [_ H]].
    apply H. intros e _. reflexivity.
Defined.

(* ------------------------------------------------------------------ *)
(** ** Archives that are not ZIP *)

Lemma extract_from_archive_7z E extract filepath s :
  PyStr.lower (PyStr.suffix filepath) = ".7z" ->
  _extract_from_archive E extract filepath s =
    (Raise (mk_exn Exception_ ("Ошибка обработки архива " ++ filepath ++ ": " ++ archive_no_text)),
     set_trace (trace s ++ [Enter XArchive filepath]) s).
Proof.
  intros Hext. unfold _extract_from_archive. rewrite Hext. reflexivity.
Qed.

Lemma extract_from_archive_rar E extract filepath s :
  PyStr.lower (PyStr.suffix filepath) = ".rar" ->
  _extract_from_archive E extract filepath s =
    (Ok rar_notice, set_trace (trace s ++ [Enter XArchive filepath]) s).
Proof.
  intros Hext. unfold _extract_from_archive. rewrite Hext.
  unfold bind, emit, try_except, ret. simpl.
  replace (PyStr.truthy (PyStr.strip (join_blocks [rar_notice]))) with true
    by (vm_compute; reflexivity).
  reflexivity.
Qed.

(** C6, the [.7z] half, as the code has it: [_extract_from_archive] has
    a branch for [.zip] and one for [.rar] and none for [.7z], so for a
    [.7z] file it raises, and [extract_text] reports a failure:
    the empty text with [success = false], a line in the error log,
    and no cache record. *)
Theorem extract_text_7z_fails (E : env) (fuel : nat) (filepath : string) (s : state) :
  PyStr.lower (PyStr.suffix filepath) = ".7z" ->
  get_cached_text filepath s = (Ok None, s) ->
  extract_text E (S fuel) filepath s =
    (Ok ("", false),
     set_error_log
       (error_log s ++
        [failure_message filepath
           (mk_exn Exception_
              ("Ошибка обработки архива " ++ filepath ++ ": " ++ archive_no_text))])
       (set_trace (trace s ++ [Enter XArchive filepath]) s)).
Proof.
  intros Hext Hmiss. simpl.
  rewrite (bind_ok _ _ s _ s Hmiss). rewrite Hext.
  unfold dispatch. simpl.
  unfold try_except, bind.
  rewrite (extract_from_archive_7z E _ filepath s Hext).
  reflexivity.
Qed.

Lemma extract_text_7z_fails_witness :
  PyStr.lower (PyStr.suffix "backup.7z") = ".7z" /\
  get_cached_text "backup.7z" (Lab.fresh {[ "backup.7z" := Lab.a_file ]}) =
    (Ok None, Lab.fresh {[ "backup.7z" := Lab.a_file ]}) /\
  fst (extract_text Lab.bare 2 "backup.7z" (Lab.fresh {[ "backup.7z" := Lab.a_file ]})) =
    Ok ("", false).
Proof.
  split; [vm_compute; reflexivity|]. split; [vm_compute; reflexivity|].
  rewrite (extract_text_7z_fails Lab.bare 1 "backup.7z"); [reflexivity| |];
    vm_compute; reflexivity.
Defined.

(** The [.rar] half of C6 holds: the fixed notice is returned, with
    [success = true], and cached. *)
Lemma extract_text_rar_notice (E : env) (fuel : nat) (filepath : string) (s : state) :
  PyStr.lower (PyStr.suffix filepath) = ".rar" ->
  get_cached_text filepath s = (Ok None, s) ->
  exists s', extract_text E (S fuel) filepath s = (Ok (rar_notice, true), s') /\
             option_map rec_text (cache s' !! filepath) = Some rar_notice.
Proof.
  intros Hext Hmiss. simpl.
  rewrite (bind_ok _ _ s _ s Hmiss). rewrite Hext.
  unfold dispatch. simpl.
  unfold try_except, bind at 1.
  rewrite (extract_from_archive_rar E _ filepath s Hext).
  replace (PyStr.has_text rar_notice) with true by (vm_compute; reflexivity).
  unfold cache_text, get_file_hash, now, bind, ret. simpl.
  eexists. split; [reflexivity|]. simpl. now rewrite lookup_insert_eq.
Qed.

(* ------------------------------------------------------------------ *)
(** ** Frames: what a computation leaves alone *)

Section Frames.

Context (P : state -> state -> Prop) `{!PreOrder P}.

Lemma preserves_ret {A} (a : A) : preserves P (ret a).
Proof. intros s r s' [= _ <-]. reflexivity. Qed.

Lemma preserves_raise {A} k m : preserves P (@raise A k m).
Proof. intros s r s' [= _ <-]. reflexivity. Qed.

Lemma preserves_reraise {A} e : preserves P (@reraise A e).
Proof. intros s r s' [= _ <-]. reflexivity. Qed.

Lemma preserves_out_of_fuel {A} : preserves P (@out_of_fuel A).
Proof. intros s r s' [= _ <-]. reflexivity. Qed.

Lemma preserves_lift {A} (x : exn + A) : preserves P (lift x).
Proof. destruct x; [apply preserves_reraise | apply preserves_ret]. Qed.

Lemma preserves_bind {A B} (m : M A) (k : A -> M B) :
  preserves P m -> (forall a, preserves P (k a)) -> preserves P (bind m k).
Proof.
  intros Hm Hk s r s'. unfold bind.
  destruct (m s) as [[a|e|] s1] eqn:Em; intros H.
  - transitivity s1; [eapply Hm; eauto | eapply Hk; eauto].
  - injection H as _ <-. eapply Hm; eauto.
  - injection H as _ <-. eapply Hm; eauto.
Qed.

Lemma preserves_try_except {A} (m : M A) (h : exn -> M A) :
  preserves P m -> (forall e, preserves P (h e)) -> preserves P (try_except m h).
Proof.
  intros Hm Hh s r s'. unfold try_except.
  destruct (m s) as [[a|e|] s1] eqn:Em; intros H.
  - injection H as _ <-. eapply Hm; eauto.
  - transitivity s1; [eapply Hm; eauto | eapply Hh; eauto].
  - injection H as _ <-. eapply Hm; eauto.
Qed.

Lemma preserves_try_finally {A} (m : M A) (c : M unit) :
  preserves P m -> preserves P c -> preserves P (try_finally m c).
Proof.
  intros Hm Hc s r s'. unfold try_finally.
  destruct (m s) as [r1 s1] eqn:Em. intros [= _ <-].
  transitivity s1; [eapply Hm; eauto|].
  destruct (c s1) as [r2 s2] eqn:Ec. simpl. eapply Hc; eauto.
Qed.

Lemma preserves_attempt {A} (m : M A) : preserves P m -> preserves P (attempt m).
Proof.
  intros Hm s r s'. unfold attempt.
  destruct (m s) as [[a|e|] s1] eqn:Em; intros [= _ <-]; eapply Hm; eauto.
Qed.

End Frames.

(** Closes a goal [preserves P m] for an [m] built from the
    combinators, given the facts about its primitive steps as hints. *)
Ltac frame_step :=
  first
    [ match goal with |- PreOrder _ => exact _ end
    | apply preserves_ret | apply preserves_raise | apply preserves_reraise
    | apply preserves_out_of_fuel | apply preserves_lift
    | apply preserves_bind; [exact _ | | intros ?]
    | apply preserves_try_except; [exact _ | | intros ?]
    | apply preserves_try_finally
    | apply preserves_attempt
    | assumption
    | match goal with
      | |- preserves _ (if ?b then _ else _) => destruct b
      | |- preserves _ (match ?x with _ => _ end) => destruct x
      | |- preserves _ (let _ := _ in _) => cbv zeta
      end ].

Create HintDb frames discriminated.
#[export] Hint Extern 0 (PreOrder _) => exact _ : frames.

Ltac frame := repeat (solve [auto with frames] || frame_step).

#[local] Instance same_cache_preorder : PreOrder same_cache.
Proof. split; unfold same_cache; [now intros s | intros s1 s2 s3 H1 H2; congruence]. Qed.

#[local] Instance same_flag_reads_preorder : PreOrder same_flag_reads.
Proof. split; unfold same_flag_reads; [now intros s | intros s1 s2 s3 H1 H2; congruence]. Qed.

#[local] Instance reads_only_preorder : PreOrder reads_only.
Proof.
  split.
  - intros s. repeat split. exists []. now rewrite app_nil_r.
  - intros s1 s2 s3 (A1 & B1 & C1 & D1 & E1 & t1 & T1) (A2 & B2 & C2 & D2 & E2 & t2 & T2).
    repeat split; try congruence.
    exists (t1 ++ t2)%list. rewrite T2, T1. now rewrite app_assoc.
Qed.

Lemma stages_attempted_app t1 t2 :
  stages_attempted (t1 ++ t2) = (stages_attempted t1 ++ stages_attempted t2)%list.
Proof.
  induction t1 as [|ev t1 IH]; simpl; [reflexivity|].
  destruct ev; simpl; now rewrite ?IH.
Qed.

#[local] Instance within_stage_preorder : PreOrder within_stage.
Proof.
  split.
  - intros s. repeat split. exists []. now rewrite app_nil_r.
  - intros s1 s2 s3 (A1 & B1 & C1 & D1 & E1 & t1 & T1 & N1)
                     (A2 & B2 & C2 & D2 & E2 & t2 & T2 & N2).
    repeat split; try congruence.
    exists (t1 ++ t2)%list. rewrite T2, T1, app_assoc. split; [reflexivity|].
    now rewrite stages_attempted_app, N1, N2.
Qed.

(** *** Primitive steps *)

Lemma read_file_state p s r s' : read_file p s = (r, s') -> s' = s.
Proof. unfold read_file. destruct (fs s !! p); now intros [= _ <-]. Qed.

Lemma read_file_preserves (P : state -> state -> Prop) `{!PreOrder P} p :
  preserves P (read_file p).
Proof. intros s r s' H. apply read_file_state in H. subst. reflexivity. Qed.

Lemma getsize_preserves (P : state -> state -> Prop) `{!PreOrder P} p :
  preserves P (getsize p).
Proof.
  unfold getsize. apply preserves_bind; [assumption| |intros ?; now apply preserves_ret].
  now apply read_file_preserves.
Qed.

Lemma get_file_hash_preserves (P : state -> state -> Prop) `{!PreOrder P} p :
  preserves P (get_file_hash p).
Proof. intros s r s' [= _ <-]. reflexivity. Qed.

Lemma get_cached_text_preserves (P : state -> state -> Prop) `{!PreOrder P} p :
  preserves P (get_cached_text p).
Proof. intros s r s' H. apply get_cached_text_state in H. subst. reflexivity. Qed.

#[export] Hint Resolve read_file_preserves getsize_preserves get_file_hash_preserves
  get_cached_text_preserves : frames.

Lemma same_cache_emit ev : preserves same_cache (emit ev).
Proof. now intros s r s' [= _ <-]. Qed.
Lemma same_cache_now : preserves same_cache now.
Proof. now intros s r s' [= _ <-]. Qed.
Lemma same_cache_read_cancelled E : preserves same_cache (read_cancelled E).
Proof. now intros s r s' [= _ <-]. Qed.
Lemma same_cache_temp sfx content : preserves same_cache (NamedTemporaryFile sfx content).
Proof. now intros s r s' [= _ <-]. Qed.
Lemma same_cache_unlink p : preserves same_cache (unlink p).
Proof. now intros s r s' [= _ <-]. Qed.
Lemma same_cache_log_error m : preserves same_cache (log_error m).
Proof. now intros s r s' [= _ <-]. Qed.

#[export] Hint Resolve same_cache_emit same_cache_now same_cache_read_cancelled
  same_cache_temp same_cache_unlink same_cache_log_error : frames.

Lemma same_flag_emit ev : preserves same_flag_reads (emit ev).
Proof. now intros s r s' [= _ <-]. Qed.
Lemma same_flag_now : preserves same_flag_reads now.
Proof. now intros s r s' [= _ <-]. Qed.
Lemma same_flag_temp sfx content : preserves same_flag_reads (NamedTemporaryFile sfx content).
Proof. now intros s r s' [= _ <-]. Qed.
Lemma same_flag_unlink p : preserves same_flag_reads (unlink p).
Proof. now intros s r s' [= _ <-]. Qed.
Lemma same_flag_log_error m : preserves same_flag_reads (log_error m).
Proof. now intros s r s' [= _ <-]. Qed.
Lemma same_flag_cache_text p t : preserves same_flag_reads (cache_text p t).
Proof. now intros s r s' [= _ <-]. Qed.

#[export] Hint Resolve same_flag_emit same_flag_now same_flag_temp same_flag_unlink
  same_flag_log_error same_flag_cache_text : frames.

Lemma reads_only_emit ev : preserves reads_only (emit ev).
Proof. intros s r s' [= _ <-]. repeat split. now exists [ev]. Qed.
Lemma reads_only_read_cancelled E : preserves reads_only (read_cancelled E).
Proof. intros s r s' [= _ <-]. repeat split. exists []. simpl. now rewrite app_nil_r. Qed.

#[export] Hint Resolve reads_only_emit reads_only_read_cancelled : frames.

Lemma within_stage_emit ev :
  stages_attempted [ev] = [] -> preserves within_stage (emit ev).
Proof. intros Hev s r s' [= _ <-]. repeat split. now exists [ev]. Qed.
Lemma within_stage_read_cancelled E : preserves within_stage (read_cancelled E).
Proof. intros s r s' [= _ <-]. repeat split. exists []. simpl. now rewrite app_nil_r. Qed.

#[export] Hint Resolve within_stage_read_cancelled : frames.
#[export] Hint Extern 1 (preserves within_stage (emit _)) =>
  (apply within_stage_emit; reflexivity) : frames.

(** *** The loops and stages of the PDF extractor *)

Lemma page_loop_within_stage E l pages : forall i texts,
  preserves within_stage (page_loop E l i pages texts).
Proof.
  induction pages as [|page rest IH]; intros i texts; simpl; frame.
Qed.

Lemma ocr_loop_within_stage E images : forall i texts,
  preserves within_stage (ocr_loop E i images texts).
Proof.
  induction images as [|image rest IH]; intros i texts; simpl; frame.
Qed.

#[export] Hint Resolve page_loop_within_stage ocr_loop_within_stage : frames.

Lemma primary_parse_within_stage E filepath texts :
  preserves within_stage (primary_parse E filepath texts).
Proof. unfold primary_parse, primary_handler. frame. Qed.

Lemma secondary_parse_within_stage E filepath texts :
  preserves within_stage (secondary_parse E filepath texts).
Proof. unfold secondary_parse. frame. Qed.

Lemma tertiary_parse_within_stage E filepath texts :
  preserves within_stage (tertiary_parse E filepath texts).
Proof. unfold tertiary_parse, tertiary_handler. frame. Qed.

Lemma ocr_recovery_within_stage E filepath texts :
  preserves within_stage (ocr_recovery E filepath texts).
Proof. unfold ocr_recovery, ocr_handler, import_pdf2image. frame. Qed.

Lemma within_stage_reads_only {A} (m : M A) :
  preserves within_stage m -> preserves reads_only m.
Proof.
  intros H s r s' Hm. destruct (H s r s' Hm) as (A1 & B1 & C1 & D1 & E1 & t & T & _).
  repeat split; try assumption. now exists t.
Qed.

Lemma reads_only_same_cache {A} (m : M A) :
  preserves reads_only m -> preserves same_cache m.
Proof. intros H s r s' Hm. now destruct (H s r s' Hm) as (A1 & _). Qed.

Lemma reads_only_same_files s s' : reads_only s s' -> fs s' = fs s.
Proof. now intros (_ & _ & H & _). Qed.

Lemma extract_from_pdf_reads_only E filepath :
  preserves reads_only (_extract_from_pdf E filepath).
Proof.
  unfold _extract_from_pdf, when_empty.
  pose proof (fun t => within_stage_reads_only _ (primary_parse_within_stage E filepath t)).
  pose proof (fun t => within_stage_reads_only _ (secondary_parse_within_stage E filepath t)).
  pose proof (fun t => within_stage_reads_only _ (tertiary_parse_within_stage E filepath t)).
  pose proof (fun t => within_stage_reads_only _ (ocr_recovery_within_stage E filepath t)).
  frame.
Qed.

Lemma extract_from_pdf_same_cache E filepath :
  preserves same_cache (_extract_from_pdf E filepath).
Proof. apply reads_only_same_cache, extract_from_pdf_reads_only. Qed.

(* ------------------------------------------------------------------ *)
(** ** The PDF fallback chain *)

Lemma page_loop_no_text E l pages : forall i texts s,
  forallb (fun p => negb (page_has_text p)) pages = true ->
  exists s', page_loop E l i pages texts s = (Ok texts, s') /\ within_stage s s'.
Proof.
  induction pages as [|page rest IH]; intros i texts s Hall.
  - exists s. split; reflexivity.
  - simpl in Hall. apply andb_true_iff in Hall as [Hpage Hrest].
    assert (exists s', page_loop E l i (page :: rest) texts s = (Ok texts, s')) as [s' Hs'].
    { simpl. unfold bind, read_cancelled, emit.
      destruct (cancelled_at E (flag_reads s)); [eexists; reflexivity|].
      destruct page as [[text|]|e]; simpl in Hpage.
      - apply negb_true_iff in Hpage. rewrite Hpage.
        edestruct IH as [s' [H _]]; [exact Hrest | eexists; exact H].
      - edestruct IH as [s' [H _]]; [exact Hrest | eexists; exact H].
      - edestruct IH as [s' [H _]]; [exact Hrest | eexists; exact H]. }
    exists s'. split; [assumption|].
    eapply page_loop_within_stage; eauto.
Qed.

Lemma page_loop_total E l pages : forall i texts s,
  exists texts' s', page_loop E l i pages texts s = (Ok texts', s').
Proof.
  induction pages as [|page rest IH]; intros i texts s; simpl.
  - eexists _, _. reflexivity.
  - unfold bind, read_cancelled, emit.
    destruct (cancelled_at E (flag_reads s)); [eexists _, _; reflexivity|].
    destruct page as [[text|]|e]; [destruct (PyStr.has_text text)| |]; apply IH.
Qed.

Lemma warning_pages_plain n : has_plain (warning_pages n) = true.
Proof. unfold warning_pages. apply has_plain_app_l. vm_compute. reflexivity. Qed.

Lemma annotate_large w n texts : 200 < n -> annotate w n texts = (texts ++ [w n])%list.
Proof. intros H. unfold annotate. apply Nat.ltb_lt in H. now rewrite H. Qed.

Lemma annotate_small w n texts : n <= 200 -> annotate w n texts = texts.
Proof. intros H. unfold annotate. apply Nat.ltb_ge in H. now rewrite H. Qed.

Lemma nonempty_size (content : bytes) : content <> [] -> Nat.eqb (length content) 0 = false.
Proof. destruct content; [congruence | reflexivity]. Qed.

Lemma bind_ret_l {A B} (a : A) (k : A -> M B) : bind (ret a) k = k a.
Proof. reflexivity. Qed.

Lemma when_empty_skip st run t texts :
  when_empty st run (t :: texts) = ret (t :: texts).
Proof. reflexivity. Qed.

Lemma when_empty_run st run s :
  when_empty st run [] s = run [] (set_trace (trace s ++ [Attempt st]) s).
Proof. reflexivity. Qed.

Lemma primary_parse_opened E filepath texts s f pages :
  fs s !! filepath = Some f ->
  pdfplumber_open E (f_content f) = inr pages ->
  primary_parse E filepath texts s =
    page_loop E Pdfplumber 0 pages (annotate warning_pages (length pages) texts)
      (set_trace (trace s ++ [OpenPdf Pdfplumber filepath]) s).
Proof.
  intros Hf Hopen. unfold primary_parse, try_except.
  unfold bind at 1. unfold emit at 1.
  set (s1 := set_trace _ s).
  rewrite (bind_ok _ _ s1 _ s1 (read_file_eq filepath s1 f Hf)).
  rewrite Hopen. unfold lift, bind at 1, ret at 1.
  destruct (page_loop_total E Pdfplumber pages 0
              (annotate warning_pages (length pages) texts) s1) as (t' & s' & ->).
  reflexivity.
Qed.

(** C1, as the code has it.  A PDF of more than 200 pages none of which
    has a text layer pdfplumber can read: the warning appended to
    [texts] before the page loop makes [texts] non-empty, so each
    [if not texts] that guards stages 2, 3 and 4 is false; only the
    primary stage is attempted and the warning alone is returned as the
    text of the file. *)
Theorem large_pdf_skips_fallback (E : env) (filepath : string) (s : state)
        (f : file) (pages : list page_result) :
  fs s !! filepath = Some f ->
  f_content f <> [] ->
  pdfplumber_open E (f_content f) = inr pages ->
  200 < length pages ->
  forallb (fun p => negb (page_has_text p)) pages = true ->
  exists s',
    _extract_from_pdf E filepath s = (Ok (warning_pages (length pages)), s') /\
    stages_attempted (trace s') = (stages_attempted (trace s) ++ [Primary])%list.
Proof.
  intros Hf Hne Hopen Hlarge Hblank.
  set (w := warning_pages (length pages)).
  set (s1 := set_trace (trace s ++ [Enter XPdf filepath]) s).
  set (s2 := set_trace (trace s1 ++ [Attempt Primary]) s1).
  set (s3 := set_trace (trace s2 ++ [OpenPdf Pdfplumber filepath]) s2).
  destruct (page_loop_no_text E Pdfplumber pages 0 [w] s3 Hblank) as (s4 & Hloop & Hframe).
  assert (Hprim : primary_parse E filepath [] s2 = (Ok [w], s4)).
  { rewrite (primary_parse_opened E filepath [] s2 f pages Hf Hopen).
    rewrite annotate_large by assumption. exact Hloop. }
  exists s4. split.
  - unfold _extract_from_pdf.
    unfold bind at 1. unfold emit at 1. fold s1.
    unfold try_except, getsize.
    rewrite (bind_ok _ _ s1 (length (f_content f)) s1).
    2:{ now rewrite (bind_ok _ _ s1 _ s1 (read_file_eq filepath s1 f Hf)). }
    rewrite (nonempty_size (f_content f) Hne).
    rewrite (bind_ok _ _ s1 [w] s4).
    2:{ unfold bind at 1. unfold emit at 1. fold s2. exact Hprim. }
    do 3 rewrite when_empty_skip, bind_ret_l.
    replace (join_blocks [w]) with w by reflexivity.
    rewrite (strip_truthy w (warning_pages_plain _)). reflexivity.
  - destruct Hframe as (_ & _ & _ & _ & _ & t & Ht & Hnone).
    rewrite Ht, stages_attempted_app, Hnone, app_nil_r.
    unfold s3, s2, s1. simpl.
    rewrite !stages_attempted_app. simpl. now rewrite !app_nil_r.
Qed.

Lemma large_pdf_skips_fallback_witness :
  200 < length (Lab.blank_pages 201) /\
  exists s',
    _extract_from_pdf Lab.long_scan "scan.pdf" (Lab.fresh {[ "scan.pdf" := Lab.a_file ]}) =
      (Ok (warning_pages 201), s') /\
    stages_attempted (trace s') = [Primary].
Proof.
  split; [simpl; lia|].
  apply (large_pdf_skips_fallback Lab.long_scan "scan.pdf"
           (Lab.fresh {[ "scan.pdf" := Lab.a_file ]}) Lab.a_file (Lab.blank_pages 201)).
  - vm_compute; reflexivity.
  - discriminate.
  - reflexivity.
  - simpl; lia.
  - vm_compute; reflexivity.
Defined.

(** For a file without the warning the guards do what the spec says:
    a stage with pages of text ends the chain. *)
Lemma when_empty_iff st run texts s :
  In st (stages_attempted (trace (snd (when_empty st run texts s)))) ->
  ~ In st (stages_attempted (trace s)) ->
  texts = [].
Proof.
  destruct texts as [|t texts]; [reflexivity|].
  rewrite when_empty_skip. simpl. tauto.
Qed.

Lemma in_trace_grows ev s s' : reads_only s s' -> In ev (trace s) -> In ev (trace s').
Proof. intros (_ & _ & _ & _ & _ & t & ->) H. apply in_or_app. now left. Qed.

Lemma primary_parse_blank E filepath s f pages :
  fs s !! filepath = Some f ->
  pdfplumber_open E (f_content f) = inr pages ->
  length pages <= 200 ->
  forallb (fun p => negb (page_has_text p)) pages = true ->
  exists s', primary_parse E filepath [] s = (Ok [], s') /\ within_stage s s'.
Proof.
  intros Hf Hopen Hsmall Hblank.
  destruct (page_loop_no_text E Pdfplumber pages 0 []
              (set_trace (trace s ++ [OpenPdf Pdfplumber filepath]) s) Hblank)
    as (s' & Hloop & _).
  assert (H : primary_parse E filepath [] s = (Ok [], s')).
  { rewrite (primary_parse_opened E filepath [] s f pages Hf Hopen).
    now rewrite annotate_small. }
  exists s'. split; [exact H|]. eapply primary_parse_within_stage; eauto.
Qed.

(** Stage 3 with the encryption flag set: the exception it raises is
    taken by its own handler, which looks for "encrypted" in a message
    that is in Russian, and the stage ends without failing. *)
Lemma tertiary_parse_encrypted E filepath texts s f pages :
  PyPDF2_installed E = true ->
  fs s !! filepath = Some f ->
  PdfReader E (f_content f) = inr (pages, true) ->
  tertiary_parse E filepath texts s =
    (Ok (annotate warning_pages (length pages) texts),
     set_trace (trace s ++ [OpenPdf PyPDF2 filepath]) s).
Proof.
  intros Hinst Hf Hread. unfold tertiary_parse. rewrite Hinst. cbn [negb].
  unfold bind at 1. unfold emit at 1.
  set (s1 := set_trace _ s).
  unfold bind at 1, attempt.
  rewrite (bind_ok _ _ s1 _ s1 (read_file_eq filepath s1 f Hf)).
  rewrite Hread. reflexivity.
Qed.

(** C2, the stage-3 half, as the code has it.  A PDF on which stages 1
    and 2 find nothing and whose PyPDF2 reader has [is_encrypted] set:
    the file is not failed, and OCR recovery is attempted. *)
Theorem encrypted_pdf_reaches_ocr (E : env) (filepath : string) (s : state)
        (f : file) (pages1 pages3 : list page_result) :
  fs s !! filepath = Some f ->
  f_content f <> [] ->
  pdfplumber_open E (f_content f) = inr pages1 ->
  length pages1 <= 200 ->
  forallb (fun p => negb (page_has_text p)) pages1 = true ->
  fitz_installed E = false ->
  PyPDF2_installed E = true ->
  PdfReader E (f_content f) = inr (pages3, true) ->
  length pages3 <= 200 ->
  In OcrRecovery (stages_attempted (trace (snd (_extract_from_pdf E filepath s)))).
Proof.
  intros Hf Hne Hopen Hsmall1 Hblank Hfitz Hpy Hread Hsmall3.
  set (s1 := set_trace (trace s ++ [Enter XPdf filepath]) s).
  set (s2 := set_trace (trace s1 ++ [Attempt Primary]) s1).
  destruct (primary_parse_blank E filepath s2 f pages1 Hf Hopen Hsmall1 Hblank)
    as (s3 & Hprim & Hframe3).
  assert (Hf3 : fs s3 !! filepath = Some f).
  { destruct Hframe3 as (_ & _ & -> & _). exact Hf. }
  set (s4 := set_trace (trace s3 ++ [Attempt Secondary]) s3).
  set (s5 := set_trace (trace s4 ++ [Attempt Tertiary]) s4).
  set (s6 := set_trace (trace s5 ++ [OpenPdf PyPDF2 filepath]) s5).
  set (s7 := set_trace (trace s6 ++ [Attempt OcrRecovery]) s6).
  destruct (ocr_recovery E filepath [] s7) as [r8 s8] eqn:Hocr.
  assert (Hgrow : reads_only s7 s8).
  { eapply (within_stage_reads_only _ (ocr_recovery_within_stage E filepath [])); eauto. }
  assert (Hin : In (Attempt OcrRecovery) (trace s8)).
  { apply (in_trace_grows _ s7 s8 Hgrow). unfold s7. simpl. apply in_or_app. right. now left. }
  assert (Hfinal : snd (_extract_from_pdf E filepath s) = s8).
  { unfold _extract_from_pdf.
    unfold bind at 1. unfold emit at 1. fold s1.
    unfold try_except, getsize.
    rewrite (bind_ok _ _ s1 (length (f_content f)) s1).
    2:{ now rewrite (bind_ok _ _ s1 _ s1 (read_file_eq filepath s1 f Hf)). }
    rewrite (nonempty_size (f_content f) Hne).
    rewrite (bind_ok _ _ s1 [] s3).
    2:{ unfold bind at 1. unfold emit at 1. fold s2. exact Hprim. }
    rewrite (bind_ok _ _ s3 [] s4).
    2:{ rewrite when_empty_run. fold s4. unfold secondary_parse. now rewrite Hfitz. }
    rewrite (bind_ok _ _ s4 [] s6).
    2:{ rewrite when_empty_run. fold s5.
        rewrite (tertiary_parse_encrypted E filepath [] s5 f pages3 Hpy Hf3 Hread).
        now rewrite annotate_small. }
    unfold bind at 1. rewrite when_empty_run. fold s7. rewrite Hocr.
    destruct r8 as [texts| |]; [|reflexivity|reflexivity].
    destruct (negb (PyStr.truthy (PyStr.strip (join_blocks texts)))); reflexivity. }
  rewrite Hfinal.
  clear - Hin. induction (trace s8) as [|ev t IH]; [contradiction|].
  destruct Hin as [->|Hin]; simpl; [now left|].
  destruct ev; simpl; auto.
Qed.

Lemma encrypted_pdf_reaches_ocr_witness :
  PdfReader Lab.locked_scan (f_content Lab.a_file) = inr (Lab.blank_pages 1, true) /\
  In OcrRecovery
     (stages_attempted
        (trace (snd (_extract_from_pdf Lab.locked_scan "locked.pdf"
                       (Lab.fresh {[ "locked.pdf" := Lab.a_file ]}))))) /\
  fst (_extract_from_pdf Lab.locked_scan "locked.pdf"
         (Lab.fresh {[ "locked.pdf" := Lab.a_file ]})) =
    Ok ("--- СТРАНИЦА 1 (OCR) ---" ++ PyStr.nl ++ "secret").
Proof.
  split; [reflexivity|]. split.
  - apply (encrypted_pdf_reaches_ocr Lab.locked_scan "locked.pdf"
             (Lab.fresh {[ "locked.pdf" := Lab.a_file ]}) Lab.a_file
             (Lab.blank_pages 1) (Lab.blank_pages 1)).
    + vm_compute; reflexivity.
    + discriminate.
    + reflexivity.
    + simpl; lia.
    + reflexivity.
    + reflexivity.
    + reflexivity.
    + reflexivity.
    + simpl; lia.
  - vm_compute. reflexivity.
Defined.

(** The stage-1 half of C2 holds: an open failure that mentions a
    password or encryption fails the file at once, with that message,
    and no later stage is attempted. *)
Lemma encrypted_at_open_fails E filepath s f e :
  fs s !! filepath = Some f ->
  f_content f <> [] ->
  pdfplumber_open E (f_content f) = inl e ->
  PyStr.contains "password" (PyStr.lower (str_of_exn e))
  || PyStr.contains "encrypted" (PyStr.lower (str_of_exn e)) = true ->
  exists s',
    _extract_from_pdf E filepath s =
      (Raise (mk_exn Exception_
                ("Ошибка открытия PDF " ++ filepath ++ ": " ++
                 "PDF файл защищен паролем: " ++ str_of_exn e)), s') /\
    stages_attempted (trace s') = (stages_attempted (trace s) ++ [Primary])%list.
Proof.
  intros Hf Hne Hopen Hind.
  set (s1 := set_trace (trace s ++ [Enter XPdf filepath]) s).
  set (s2 := set_trace (trace s1 ++ [Attempt Primary]) s1).
  set (s3 := set_trace (trace s2 ++ [OpenPdf Pdfplumber filepath]) s2).
  exists s3. split.
  - unfold _extract_from_pdf.
    unfold bind at 1. unfold emit at 1. fold s1.
    unfold try_except at 1. unfold getsize.
    rewrite (bind_ok _ _ s1 (length (f_content f)) s1).
    2:{ now rewrite (bind_ok _ _ s1 _ s1 (read_file_eq filepath s1 f Hf)). }
    rewrite (nonempty_size (f_content f) Hne).
    rewrite (bind_raise _ _ s1 (mk_exn Exception_ ("PDF файл защищен паролем: " ++ str_of_exn e)) s3).
    + reflexivity.
    + unfold bind at 1. unfold emit at 1. fold s2.
      unfold primary_parse, try_except.
      unfold bind at 1. unfold emit at 1. fold s3.
      rewrite (bind_ok _ _ s3 _ s3 (read_file_eq filepath s3 f Hf)).
      rewrite Hopen. unfold lift, bind, reraise, primary_handler.
      rewrite Hind. reflexivity.
  - unfold s3, s2, s1. simpl. rewrite !stages_attempted_app. simpl. now rewrite !app_nil_r.
Qed.

(* ------------------------------------------------------------------ *)
(** ** What the extractors leave alone *)

Lemma text_loop_preserves (P : state -> state -> Prop) `{!PreOrder P} E encs filepath :
  preserves P (text_loop E encs filepath).
Proof.
  induction encs as [|enc rest IH]; simpl; [apply preserves_reraise; exact _|].
  unfold read_text. frame.
Qed.

Lemma extract_from_text_same_cache E filepath :
  preserves same_cache (_extract_from_text E filepath).
Proof.
  unfold _extract_from_text.
  pose proof (text_loop_preserves same_cache E encodings filepath). frame.
Qed.

Lemma extract_from_image_same_cache E filepath :
  preserves same_cache (_extract_from_image E filepath).
Proof. unfold _extract_from_image. frame. Qed.

Lemma extract_from_docx_same_cache E filepath :
  preserves same_cache (_extract_from_docx E filepath).
Proof. unfold _extract_from_docx. frame. Qed.

Lemma extract_from_legacy_doc_same_cache E filepath :
  preserves same_cache (_extract_from_legacy_doc E filepath).
Proof. unfold _extract_from_legacy_doc. frame. Qed.

Lemma simple_page_loop_preserves (P : state -> state -> Prop) `{!PreOrder P} pages :
  (forall ev, preserves P (emit ev)) ->
  forall i texts, preserves P (simple_page_loop i pages texts).
Proof.
  intros Hemit. induction pages as [|page rest IH]; intros i texts; simpl; frame.
Qed.

Lemma simple_ocr_loop_preserves (P : state -> state -> Prop) `{!PreOrder P} E images :
  (forall ev, preserves P (emit ev)) ->
  (forall sfx content, preserves P (NamedTemporaryFile sfx content)) ->
  (forall p, preserves P (unlink p)) ->
  forall i texts, preserves P (simple_ocr_loop E i images texts).
Proof.
  intros Hemit Htemp Hunlink.
  induction images as [|image rest IH]; intros i texts; simpl; frame.
Qed.

Lemma extract_from_pdf_simple_preserves (P : state -> state -> Prop) `{!PreOrder P} E filepath :
  (forall ev, preserves P (emit ev)) ->
  (forall sfx content, preserves P (NamedTemporaryFile sfx content)) ->
  (forall p, preserves P (unlink p)) ->
  preserves P (_extract_from_pdf_simple E filepath).
Proof.
  intros Hemit Htemp Hunlink.
  pose proof (simple_page_loop_preserves P).
  pose proof (simple_ocr_loop_preserves P E).
  unfold _extract_from_pdf_simple, simple_ocr, import_pdf2image. frame.
Qed.

Lemma extract_from_pdf_simple_same_cache E filepath :
  preserves same_cache (_extract_from_pdf_simple E filepath).
Proof. apply extract_from_pdf_simple_preserves; auto with frames. Qed.

(** The simplified PDF path of archive members never reads the
    cancellation flag. *)
Lemma extract_from_pdf_simple_same_flag_reads E filepath :
  preserves same_flag_reads (_extract_from_pdf_simple E filepath).
Proof. apply extract_from_pdf_simple_preserves; auto with frames. Qed.

(* ------------------------------------------------------------------ *)
(** ** The archive extractor: one block at most per member *)

Lemma file_block_plain n t : has_plain (file_block n t) = true.
Proof. unfold file_block. apply has_plain_app_l. reflexivity. Qed.
Lemma ocr_error_block_plain n t : has_plain (ocr_error_block n t) = true.
Proof. unfold ocr_error_block. apply has_plain_app_l. reflexivity. Qed.
Lemma processing_error_block_plain n t : has_plain (processing_error_block n t) = true.
Proof. unfold processing_error_block. apply has_plain_app_l. reflexivity. Qed.
Lemma read_error_block_plain n t : has_plain (read_error_block n t) = true.
Proof. unfold read_error_block. apply has_plain_app_l. reflexivity. Qed.

#[export] Hint Resolve file_block_plain ocr_error_block_plain
  processing_error_block_plain read_error_block_plain : frames.

Lemma join_blocks_plain b texts :
  has_plain b = true -> has_plain (join_blocks (b :: texts)) = true.
Proof.
  intros Hb. unfold join_blocks, PyStr.join. simpl.
  destruct texts; [assumption | now apply has_plain_app_l].
Qed.

Lemma strip_empty : PyStr.strip "" = "".
Proof. reflexivity. Qed.

Lemma has_text_of_strip s : PyStr.truthy (PyStr.strip s) = true -> PyStr.has_text s = true.
Proof.
  intros H. unfold PyStr.has_text. rewrite H.
  destruct s; [now rewrite strip_empty in H | reflexivity].
Qed.

Lemma text_member_spec E file_name content all_texts :
  text_member E file_name content all_texts = all_texts \/
  one_more all_texts (text_member E file_name content all_texts).
Proof.
  unfold text_member, one_more.
  destruct (decode E utf_8 content) as [text|].
  - destruct (PyStr.truthy (PyStr.strip text)); [right|now left].
    eexists; split; [reflexivity | apply file_block_plain].
  - destruct (decode E cp1251 content) as [text|]; [|now left].
    destruct (PyStr.truthy (PyStr.strip text)); [right|now left].
    eexists; split; [reflexivity | apply file_block_plain].
Qed.

(* ------------------------------------------------------------------ *)
(** ** Paths: the suffix of a temporary file *)

Lemma take_until_not_in c l : ~ In c (PyStr.take_until c l).
Proof.
  induction l as [|x l IH]; simpl; [tauto|].
  destruct (Ascii.eqb x c) eqn:Hx; simpl; [tauto|].
  intros [->|H]; [|tauto]. now rewrite Ascii.eqb_refl in Hx.
Qed.

Lemma take_until_in c x l : In x (PyStr.take_until c l) -> In x l.
Proof.
  induction l as [|y l IH]; simpl; [tauto|].
  destruct (Ascii.eqb y c); simpl; [tauto|]. intros [->|H]; auto.
Qed.

Lemma take_until_prefix c l : exists rest, l = (PyStr.take_until c l ++ rest)%list.
Proof.
  induction l as [|x l [rest IH]]; simpl; [now exists []|].
  destruct (Ascii.eqb x c); [now exists (x :: l)|].
  exists rest. simpl. now rewrite <- IH.
Qed.

Lemma drop_until_split c l b :
  PyStr.drop_until c l = Some b -> l = (PyStr.take_until c l ++ c :: b)%list.
Proof.
  induction l as [|x l IH]; simpl; [discriminate|].
  destruct (Ascii.eqb x c) eqn:Hx.
  - intros [= ->]. apply Ascii.eqb_eq in Hx. now subst.
  - intros H. simpl. now rewrite <- IH.
Qed.

Lemma take_until_app c a r :
  ~ In c a -> PyStr.take_until c (a ++ r) = (a ++ PyStr.take_until c r)%list.
Proof.
  induction a as [|x a IH]; simpl; intros H; [reflexivity|].
  destruct (Ascii.eqb x c) eqn:Hx.
  - apply Ascii.eqb_eq in Hx. tauto.
  - rewrite IH; tauto.
Qed.

Lemma drop_until_app c a r :
  ~ In c a -> PyStr.drop_until c (a ++ r) = PyStr.drop_until c r.
Proof.
  induction a as [|x a IH]; simpl; intros H; [reflexivity|].
  destruct (Ascii.eqb x c) eqn:Hx.
  - apply Ascii.eqb_eq in Hx. tauto.
  - rewrite IH; tauto.
Qed.

Lemma drop_until_none c l : ~ In c l -> PyStr.drop_until c l = None.
Proof.
  induction l as [|x l IH]; simpl; intros H; [reflexivity|].
  destruct (Ascii.eqb x c) eqn:Hx.
  - apply Ascii.eqb_eq in Hx. tauto.
  - apply IH. tauto.
Qed.

(** A suffix is empty, or a dot followed by at least one character,
    none of them a dot or a slash, and it ends the path. *)
Lemma suffix_l_shape p :
  PyStr.suffix_l p = [] \/
  exists a pre, PyStr.suffix_l p = PyStr.dot :: a /\ a <> [] /\
                ~ In PyStr.dot a /\ ~ In PyStr.slash a /\
                p = (pre ++ PyStr.dot :: a)%list.
Proof.
  unfold PyStr.suffix_l.
  remember (PyStr.take_until PyStr.slash (rev p)) as rname eqn:Hrname.
  destruct (PyStr.drop_until PyStr.dot rname) as [before|] eqn:Hd; [|now left].
  remember (PyStr.take_until PyStr.dot rname) as after eqn:Hafter.
  destruct before as [|b0 before]; [now left|].
  destruct after as [|a0 after'] eqn:Ha; [now left|]. simpl.
  right. destruct (take_until_prefix PyStr.slash (rev p)) as [rest Hrest].
  rewrite <- Hrname in Hrest. apply drop_until_split in Hd. rewrite <- Hafter in Hd.
  exists (rev (a0 :: after')), (rev rest ++ rev (b0 :: before))%list.
  split; [reflexivity|].
  assert (Hnodot : ~ In PyStr.dot (a0 :: after')).
  { rewrite Hafter. apply take_until_not_in. }
  assert (Hnoslash : ~ In PyStr.slash (a0 :: after')).
  { intros H. apply (take_until_not_in PyStr.slash (rev p)).
    rewrite <- Hrname. rewrite Hafter in H. now apply take_until_in in H. }
  split; [simpl; intros H; now apply app_eq_nil in H as [_ [=]]|].
  split; [now rewrite <- in_rev|]. split; [now rewrite <- in_rev|].
  apply (f_equal (@rev ascii)) in Hrest. rewrite rev_involutive in Hrest.
  rewrite Hrest, Hd. rewrite !rev_app_distr. simpl.
  rewrite <- ?app_assoc. simpl. rewrite <- ?app_assoc. reflexivity.
Qed.

(** Appending such a suffix to a name that does not end in a slash
    gives a path with that suffix. *)
Lemma suffix_l_append q c a :
  c <> PyStr.slash -> a <> [] -> ~ In PyStr.dot a -> ~ In PyStr.slash a ->
  PyStr.suffix_l ((q ++ [c]) ++ PyStr.dot :: a) = PyStr.dot :: a.
Proof.
  intros Hc Ha Hdot Hslash. unfold PyStr.suffix_l.
  rewrite rev_app_distr. simpl. rewrite rev_app_distr. simpl.
  rewrite <- app_assoc. simpl.
  rewrite take_until_app by now rewrite <- in_rev.
  simpl. replace (Ascii.eqb PyStr.dot PyStr.slash) with false by reflexivity.
  destruct (Ascii.eqb c PyStr.slash) eqn:Hcs; [apply Ascii.eqb_eq in Hcs; congruence|].
  rewrite drop_until_app by now rewrite <- in_rev.
  simpl. rewrite take_until_app by now rewrite <- in_rev.
  simpl. rewrite app_nil_r, rev_involutive.
  destruct (rev a) eqn:Hr; [|reflexivity].
  apply (f_equal (@rev ascii)) in Hr. rewrite rev_involutive in Hr. contradiction.
Qed.

Lemma suffix_l_none q :
  ~ In PyStr.dot q -> PyStr.suffix_l q = [].
Proof.
  intros H. unfold PyStr.suffix_l.
  rewrite drop_until_none; [reflexivity|].
  intros Hin. apply take_until_in in Hin. now rewrite <- in_rev in Hin.
Qed.

(** Decimal numerals hold digits only. *)
Lemma string_of_uint_digits d :
  Forall is_digit (list_ascii_of_string (NilEmpty.string_of_uint d)).
Proof.
  induction d; simpl;
    [apply List.Forall_nil
    | apply List.Forall_cons; [unfold is_digit; vm_compute; lia | assumption] ..].
Qed.

Lemma of_nat_digits n : Forall is_digit (list_ascii_of_string (PyStr.of_nat n)).
Proof. apply string_of_uint_digits. Qed.

Lemma digit_not_dot c : is_digit c -> c <> PyStr.dot.
Proof. intros H ->. unfold is_digit in H. vm_compute in H. lia. Qed.

Lemma digit_not_slash c : is_digit c -> c <> PyStr.slash.
Proof. intros H ->. unfold is_digit in H. vm_compute in H. lia. Qed.

Lemma string_of_list_ascii_app l1 l2 :
  string_of_list_ascii (l1 ++ l2) = string_of_list_ascii l1 ++ string_of_list_ascii l2.
Proof. induction l1 as [|c l1 IH]; simpl; [reflexivity | now rewrite IH]. Qed.

Lemma temp_path_chars n sfx :
  exists q c, c <> PyStr.slash /\ ~ In PyStr.dot (q ++ [c]) /\
    list_ascii_of_string (temp_path n sfx) = ((q ++ [c]) ++ list_ascii_of_string sfx)%list.
Proof.
  unfold temp_path. rewrite !list_ascii_app.
  pose proof (of_nat_digits n) as Hd.
  set (digits := list_ascii_of_string (PyStr.of_nat n)) in *.
  rewrite List.Forall_forall in Hd.
  destruct (rev digits) as [|c r] eqn:Hr.
  - apply (f_equal (@rev ascii)) in Hr. rewrite rev_involutive in Hr. simpl in Hr.
    rewrite Hr. exists (list_ascii_of_string "/tmp/tm"), (ascii_of_nat 112).
    split; [discriminate|]. split; [|reflexivity].
    simpl. intros H. repeat (destruct H as [H|H]; [discriminate H|]). exact H.
  - apply (f_equal (@rev ascii)) in Hr. rewrite rev_involutive in Hr. simpl in Hr.
    exists (list_ascii_of_string "/tmp/tmp" ++ rev r)%list, c.
    assert (Hc : is_digit c).
    { apply Hd. rewrite Hr. apply in_or_app. right. now left. }
    split; [now apply digit_not_slash|]. split.
    + rewrite <- app_assoc, <- Hr. intros H. apply in_app_or in H as [H|H].
      * simpl in H. repeat (destruct H as [H|H]; [discriminate H|]). exact H.
      * apply Hd in H. now apply digit_not_dot in H.
    + rewrite Hr. now rewrite <- !app_assoc.
Qed.

(** The temporary file of a member has the suffix of the member. *)
Lemma temp_path_suffix n file_name :
  PyStr.suffix (temp_path n (PyStr.suffix file_name)) = PyStr.suffix file_name.
Proof.
  destruct (temp_path_chars n (PyStr.suffix file_name)) as (q & c & Hc & Hdot & Hl).
  unfold PyStr.suffix at 1. rewrite Hl. unfold PyStr.suffix.
  rewrite list_ascii_of_string_of_list_ascii.
  destruct (suffix_l_shape (list_ascii_of_string file_name))
    as [H0|(a & pre & Hs & Ha & Hnd & Hns & _)].
  - rewrite H0, app_nil_r. now rewrite (suffix_l_none _ Hdot).
  - rewrite Hs. now rewrite suffix_l_append.
Qed.

Lemma lower_app x y : PyStr.lower (x ++ y) = PyStr.lower x ++ PyStr.lower y.
Proof. induction x as [|c x IH]; simpl; [reflexivity | now rewrite IH]. Qed.

Lemma endswith_app x y : PyStr.endswith (x ++ y) y = true.
Proof.
  induction x as [|c x IH]; simpl.
  - destruct y; simpl; [reflexivity|]. now rewrite Ascii.eqb_refl, String.eqb_refl.
  - rewrite IH. apply orb_true_r.
Qed.

Lemma endswith_empty s : PyStr.endswith s "" = true.
Proof.
  induction s as [|c s IH]; [reflexivity|].
  cbn [PyStr.endswith]. rewrite IH. apply orb_true_r.
Qed.

Lemma endswith_last s e :
  PyStr.endswith s e = true -> e <> "" -> last_char s = last_char e.
Proof.
  intros H He. induction s as [|c s IH].
  - destruct e; [congruence | discriminate H].
  - cbn [PyStr.endswith] in H. apply orb_true_iff in H as [H|H].
    + apply String.eqb_eq in H. now subst.
    + specialize (IH H). destruct s as [|c' s'].
      * destruct e; [congruence | discriminate H].
      * exact IH.
Qed.

(** The name of a member ends with its suffix. *)
Lemma endswith_suffix file_name :
  PyStr.endswith (PyStr.lower file_name) (PyStr.lower (PyStr.suffix file_name)) = true.
Proof.
  unfold PyStr.suffix.
  destruct (suffix_l_shape (list_ascii_of_string file_name))
    as [H0|(a & pre & Hs & _ & _ & _ & Hp)].
  - rewrite H0. apply endswith_empty.
  - rewrite Hs. rewrite <- (string_of_list_ascii_of_string file_name) at 1.
    rewrite Hp, string_of_list_ascii_app, lower_app. apply endswith_app.
Qed.

(** A member sent to a temporary file does not have the suffix of an
    archive: the nested call of [extract_text] does not come back to
    [_extract_from_archive]. *)
Lemma document_suffix_not_archive file_name :
  PyStr.endswith_any (PyStr.lower file_name) [".pdf"; ".docx"; ".doc"; ".rtf"] = true ->
  PyStr.mem (PyStr.lower (PyStr.suffix file_name)) SUPPORTED_archives = false.
Proof.
  intros Hdoc.
  destruct (PyStr.mem (PyStr.lower (PyStr.suffix file_name)) SUPPORTED_archives) eqn:Harc;
    [exfalso|reflexivity].
  pose proof (endswith_suffix file_name) as Hend.
  unfold PyStr.endswith_any in Hdoc. simpl in Hdoc.
  unfold PyStr.mem, SUPPORTED_archives in Harc. simpl in Harc.
  rewrite !orb_true_iff in Hdoc. rewrite !orb_true_iff in Harc.
  assert (Hl1 : exists c, last_char (PyStr.lower file_name) = Some c /\
                          (c = ascii_of_nat 102 \/ c = ascii_of_nat 120 \/ c = ascii_of_nat 99)).
  { destruct Hdoc as [H|[H|[H|[H|H]]]]; [| | | |discriminate];
      apply endswith_last in H; try discriminate; rewrite H; eexists; split;
        [reflexivity|simpl; tauto| reflexivity|simpl; tauto|reflexivity|simpl; tauto|reflexivity|simpl;tauto]. }
  destruct Hl1 as (c & Hc & Hcases).
  assert (Hl2 : exists c, last_char (PyStr.lower file_name) = Some c /\
                          (c = ascii_of_nat 112 \/ c = ascii_of_nat 114 \/ c = ascii_of_nat 122)).
  { destruct Harc as [H|[H|[H|H]]]; [| | |discriminate];
      apply String.eqb_eq in H; rewrite H in Hend;
      apply endswith_last in Hend; try discriminate; rewrite Hend; eexists; split;
        [reflexivity|simpl; tauto| reflexivity|simpl; tauto|reflexivity|simpl; tauto]. }
  destruct Hl2 as (c' & Hc' & Hcases').
  rewrite Hc in Hc'. injection Hc' as <-.
  destruct Hcases as [-> | [-> | ->]]; destruct Hcases' as [H | [H | H]]; discriminate H.
Qed.

(* ------------------------------------------------------------------ *)
(** ** Fuel: where the recursion ends *)

Lemma fuel_free_ret {A} (a : A) : fuel_free (ret a).
Proof. intros s. discriminate. Qed.
Lemma fuel_free_raise {A} k m : fuel_free (@raise A k m).
Proof. intros s. discriminate. Qed.
Lemma fuel_free_reraise {A} e : fuel_free (@reraise A e).
Proof. intros s. discriminate. Qed.
Lemma fuel_free_lift {A} (x : exn + A) : fuel_free (lift x).
Proof. destruct x; intros s; discriminate. Qed.

Lemma fuel_free_bind {A B} (m : M A) (k : A -> M B) :
  fuel_free m -> (forall a, fuel_free (k a)) -> fuel_free (bind m k).
Proof.
  intros Hm Hk s. unfold bind. specialize (Hm s).
  destruct (m s) as [[a|e|] s1]; simpl in *; [apply Hk | discriminate | congruence].
Qed.

Lemma fuel_free_try_except {A} (m : M A) (h : exn -> M A) :
  fuel_free m -> (forall e, fuel_free (h e)) -> fuel_free (try_except m h).
Proof.
  intros Hm Hh s. unfold try_except. specialize (Hm s).
  destruct (m s) as [[a|e|] s1]; simpl in *; [discriminate | apply Hh | congruence].
Qed.

Lemma fuel_free_try_finally {A} (m : M A) (c : M unit) :
  fuel_free m -> fuel_free (try_finally m c).
Proof.
  intros Hm s. unfold try_finally. specialize (Hm s).
  destruct (m s) as [r s1]. exact Hm.
Qed.

Lemma fuel_free_attempt {A} (m : M A) : fuel_free m -> fuel_free (attempt m).
Proof.
  intros Hm s. unfold attempt. specialize (Hm s).
  destruct (m s) as [[a|e|] s1]; simpl in *; [discriminate | discriminate | congruence].
Qed.

Lemma fuel_free_emit ev : fuel_free (emit ev).
Proof. intros s. discriminate. Qed.
Lemma fuel_free_now : fuel_free now.
Proof. intros s. discriminate. Qed.
Lemma fuel_free_read_cancelled E : fuel_free (read_cancelled E).
Proof. intros s. discriminate. Qed.
Lemma fuel_free_read_file p : fuel_free (read_file p).
Proof. intros s. unfold read_file. destruct (fs s !! p); discriminate. Qed.
Lemma fuel_free_temp sfx content : fuel_free (NamedTemporaryFile sfx content).
Proof. intros s. discriminate. Qed.
Lemma fuel_free_unlink p : fuel_free (unlink p).
Proof. intros s. discriminate. Qed.
Lemma fuel_free_log_error m : fuel_free (log_error m).
Proof. intros s. discriminate. Qed.
Lemma fuel_free_get_file_hash p : fuel_free (get_file_hash p).
Proof. intros s. discriminate. Qed.

Create HintDb fuel discriminated.
#[export] Hint Resolve fuel_free_emit fuel_free_now fuel_free_read_cancelled
  fuel_free_read_file fuel_free_temp fuel_free_unlink fuel_free_log_error
  fuel_free_get_file_hash : fuel.

Ltac fuel_step :=
  first
    [ apply fuel_free_ret | apply fuel_free_raise | apply fuel_free_reraise
    | apply fuel_free_lift
    | apply fuel_free_bind; [|intros ?]
    | apply fuel_free_try_except; [|intros ?]
    | apply fuel_free_try_finally
    | apply fuel_free_attempt
    | match goal with
      | |- fuel_free (if ?b then _ else _) => destruct b
      | |- fuel_free (match ?x with _ => _ end) => destruct x
      | |- fuel_free (let _ := _ in _) => cbv zeta
      end ].

Ltac fuel := repeat (solve [auto with fuel] || fuel_step).

Lemma fuel_free_getsize p : fuel_free (getsize p).
Proof. unfold getsize. fuel. Qed.

Lemma fuel_free_get_cached_text p : fuel_free (get_cached_text p).
Proof.
  intros s. unfold get_cached_text, bind, get_file_hash.
  destruct (cache s !! p) as [c|]; [destruct (_ =? _)|]; discriminate.
Qed.

Lemma fuel_free_cache_text p t : fuel_free (cache_text p t).
Proof. intros s. discriminate. Qed.

#[export] Hint Resolve fuel_free_getsize fuel_free_get_cached_text fuel_free_cache_text : fuel.

Lemma fuel_free_page_loop E l pages : forall i texts, fuel_free (page_loop E l i pages texts).
Proof. induction pages as [|page rest IH]; intros i texts; simpl; fuel. Qed.

Lemma fuel_free_ocr_loop E images : forall i texts, fuel_free (ocr_loop E i images texts).
Proof. induction images as [|image rest IH]; intros i texts; simpl; fuel. Qed.

Lemma fuel_free_simple_page_loop pages : forall i texts, fuel_free (simple_page_loop i pages texts).
Proof. induction pages as [|page rest IH]; intros i texts; simpl; fuel. Qed.

Lemma fuel_free_simple_ocr_loop E images :
  forall i texts, fuel_free (simple_ocr_loop E i images texts).
Proof. induction images as [|image rest IH]; intros i texts; simpl; fuel. Qed.

Lemma fuel_free_text_loop E encs filepath : fuel_free (text_loop E encs filepath).
Proof. induction encs as [|enc rest IH]; simpl; unfold read_text; fuel. Qed.

#[export] Hint Resolve fuel_free_page_loop fuel_free_ocr_loop fuel_free_simple_page_loop
  fuel_free_simple_ocr_loop fuel_free_text_loop : fuel.

Lemma fuel_free_extract_from_pdf E filepath : fuel_free (_extract_from_pdf E filepath).
Proof.
  unfold _extract_from_pdf, when_empty, primary_parse, primary_handler, secondary_parse,
    tertiary_parse, tertiary_handler, ocr_recovery, ocr_handler, import_pdf2image.
  fuel.
Qed.

Lemma fuel_free_extract_from_pdf_simple E filepath :
  fuel_free (_extract_from_pdf_simple E filepath).
Proof. unfold _extract_from_pdf_simple, simple_ocr, import_pdf2image. fuel. Qed.

Lemma fuel_free_extract_from_text E filepath : fuel_free (_extract_from_text E filepath).
Proof. unfold _extract_from_text. fuel. Qed.

Lemma fuel_free_extract_from_image E filepath : fuel_free (_extract_from_image E filepath).
Proof. unfold _extract_from_image. fuel. Qed.

Lemma fuel_free_extract_from_docx E filepath : fuel_free (_extract_from_docx E filepath).
Proof. unfold _extract_from_docx. fuel. Qed.

Lemma fuel_free_extract_from_legacy_doc E filepath :
  fuel_free (_extract_from_legacy_doc E filepath).
Proof. unfold _extract_from_legacy_doc. fuel. Qed.

#[export] Hint Resolve fuel_free_extract_from_pdf fuel_free_extract_from_pdf_simple
  fuel_free_extract_from_text fuel_free_extract_from_image fuel_free_extract_from_docx
  fuel_free_extract_from_legacy_doc : fuel.

(* ------------------------------------------------------------------ *)
(** ** The archive extractor, member by member *)

Lemma one_more_intro all_texts b : has_plain b = true -> one_more all_texts (all_texts ++ [b]).
Proof. intros H. now exists b. Qed.

Lemma pdf_member_spec E file_name temp_file_path all_texts s :
  exists texts' s',
    pdf_member E file_name temp_file_path all_texts s = (Ok texts', s') /\
    one_more all_texts texts' /\ same_cache s s' /\ same_flag_reads s s'.
Proof.
  unfold pdf_member, try_except, bind.
  pose proof (fuel_free_extract_from_pdf_simple E temp_file_path s) as Hfuel.
  pose proof (extract_from_pdf_simple_same_cache E temp_file_path s) as Hcache.
  pose proof (extract_from_pdf_simple_same_flag_reads E temp_file_path s) as Hflag.
  destruct (_extract_from_pdf_simple E temp_file_path s) as [[pdf_text|e|] s1];
    [| |now contradiction Hfuel].
  - destruct (PyStr.has_text pdf_text); eexists _, s1;
      (split; [reflexivity|]); (split; [apply one_more_intro; auto with frames|]); eauto.
  - eexists _, s1. split; [reflexivity|].
    split; [apply one_more_intro; auto with frames|]. eauto.
Qed.

Lemma document_member_spec extract file_name temp_file_path all_texts s r s' :
  document_member extract file_name temp_file_path all_texts s = (r, s') ->
  match r with
  | Ok texts' => one_more all_texts texts'
  | Raise e => extract temp_file_path s = (Raise e, s')
  | OutOfFuel => extract temp_file_path s = (OutOfFuel, s')
  end.
Proof.
  unfold document_member, bind.
  destruct (extract temp_file_path s) as [[[text success]|e|] s1].
  - destruct (success && PyStr.truthy (PyStr.strip text)); intros [= <- <-];
      apply one_more_intro; auto with frames.
  - now intros [= <- <-].
  - now intros [= <- <-].
Qed.

Lemma temp_member_spec E extract file_name content all_texts s r s' :
  temp_member E extract file_name content all_texts s = (r, s') ->
  match r with
  | Ok texts' => one_more all_texts texts'
  | Raise _ => False
  | OutOfFuel => True
  end.
Proof.
  unfold temp_member. unfold bind at 1. unfold NamedTemporaryFile at 1.
  set (tp := temp_path (tmp_ctr s) (PyStr.suffix file_name)).
  set (s1 := set_tmp_ctr _ _).
  unfold try_finally, try_except.
  destruct (PyStr.endswith (PyStr.lower file_name) ".pdf").
  - destruct (pdf_member_spec E file_name tp all_texts s1) as (t' & s2 & -> & Hone & _).
    now intros [= <- _].
  - destruct (document_member extract file_name tp all_texts s1) as [[t'|e|] s2] eqn:Hdoc.
    + apply document_member_spec in Hdoc. now intros [= <- _].
    + intros [= <- _]. apply one_more_intro; auto with frames.
    + now intros [= <- _].
Qed.

Lemma supported_split file_name :
  is_supported file_name = true ->
  PyStr.endswith_any (PyStr.lower file_name) [".txt"; ".md"] = false ->
  PyStr.endswith_any (PyStr.lower file_name) [".pdf"; ".docx"; ".doc"; ".rtf"] = true.
Proof.
  unfold is_supported, supported_extensions, PyStr.endswith_any. simpl.
  intros H1 H2. apply orb_false_elim in H2 as [Ha H2]. apply orb_false_elim in H2 as [Hb _].
  rewrite Ha, Hb in H1. exact H1.
Qed.

(** What a member that passed the allowlist does to [all_texts] and to
    the cache. *)
Lemma member_spec E extract en all_texts s r s' :
  is_supported (entry_name en) = true ->
  member E extract en all_texts s = (r, s') ->
  match r with
  | Ok texts' =>
      if adds_block E en then one_more all_texts texts'
      else texts' = all_texts /\ cache s' = cache s
  | Raise _ => False
  | OutOfFuel => True
  end.
Proof.
  intros Hsup. unfold member, adds_block. unfold bind at 1. unfold emit at 1.
  set (s1 := set_trace _ s).
  destruct (entry_read en) as [e|content].
  - intros [= <- <-]. apply one_more_intro; auto with frames.
  - destruct (Nat.eqb (length content) 0); [now intros [= <- <-]|].
    destruct (PyStr.endswith_any (PyStr.lower (entry_name en)) [".txt"; ".md"]) eqn:Htxt.
    + intros [= <- <-]. unfold text_member.
      destruct (decode E utf_8 content) as [text|].
      * destruct (PyStr.truthy (PyStr.strip text)); [|now split].
        apply one_more_intro; auto with frames.
      * destruct (decode E cp1251 content) as [text|]; [|now split].
        destruct (PyStr.truthy (PyStr.strip text)); [|now split].
        apply one_more_intro; auto with frames.
    + rewrite (supported_split _ Hsup Htxt). intros H.
      apply temp_member_spec in H. destruct r; auto.
Qed.

Lemma good_blocks_app a b : good_blocks a -> good_blocks b -> good_blocks (a ++ b).
Proof. unfold good_blocks. rewrite !List.Forall_forall. intros Ha Hb x Hx.
  apply in_app_or in Hx as [Hx|Hx]; auto. Qed.

Lemma entry_loop_spec E extract entries : forall found all_texts s r s',
  entry_loop E extract entries found all_texts s = (r, s') ->
  match r with
  | Ok (found', texts') =>
      found' = found || negb (PyStr.is_nil (supported_members entries)) /\
      (exists extra, texts' = (all_texts ++ extra)%list /\ good_blocks extra /\
                     length extra = length (block_members E entries)) /\
      (block_members E entries = [] -> cache s' = cache s)
  | Raise _ => False
  | OutOfFuel => True
  end.
Proof.
  induction entries as [|en rest IH]; intros found all_texts s r s'.
  - intros [= <- <-]. split; [now rewrite orb_false_r|]. split; [|reflexivity].
    exists []. rewrite app_nil_r. repeat split. apply List.Forall_nil.
  - cbn [entry_loop]. unfold block_members, supported_members. cbn [List.filter].
    destruct (is_supported (entry_name en)) eqn:Hsup.
    + unfold bind at 1.
      destruct (member E extract en all_texts s) as [[t1|e|] s1] eqn:Hm;
        apply (member_spec E extract en all_texts s _ s1 Hsup) in Hm.
      * intros Hrest. apply IH in Hrest.
        destruct r as [[found' texts']|e|]; [|exact Hrest|exact I].
        destruct Hrest as (Hfound & (extra & -> & Hgood & Hlen) & Hcache).
        split; [now rewrite orb_true_r|]. cbn [List.filter].
        fold (supported_members rest). fold (block_members E rest).
        destruct (adds_block E en).
        -- destruct Hm as (b & -> & Hb). split.
           ++ exists (b :: extra). rewrite <- app_assoc. split; [reflexivity|].
              split; [now apply List.Forall_cons|]. simpl. now rewrite Hlen.
           ++ discriminate.
        -- destruct Hm as [-> Hm]. split.
           ++ exists extra. auto.
           ++ intros Hnil. rewrite Hcache by exact Hnil. exact Hm.
      * contradiction.
      * now intros [= <- _].
    + intros Hrest. apply IH in Hrest. exact Hrest.
Qed.

Lemma length_zero_nil {A} (l : list A) : length l = 0 -> l = [].
Proof. now destruct l. Qed.

Lemma zip_texts_spec E extract filepath s r s' :
  zip_texts E extract filepath s = (r, s') ->
  match r with
  | Ok texts => good_blocks texts /\ (texts = [] -> cache s' = cache s)
  | Raise _ => cache s' = cache s
  | OutOfFuel => True
  end.
Proof.
  unfold zip_texts. unfold bind at 1.
  destruct (getsize filepath s) as [[file_size|e|] s1] eqn:Hsize;
    pose proof (getsize_preserves same_cache filepath s _ s1 Hsize) as Hc1.
  2:{ now intros [= <- <-]. }
  2:{ now intros [= <- <-]. }
  destruct (Nat.eqb file_size 0); [now intros [= <- <-]|].
  unfold bind at 1.
  destruct (read_file filepath s1) as [[content|e|] s2] eqn:Hread;
    pose proof (read_file_preserves same_cache filepath s1 _ s2 Hread) as Hc2.
  2:{ intros [= <- <-]. congruence. }
  2:{ now intros [= <- <-]. }
  unfold bind at 1.
  destruct (ZipFile E content) as [e|zip_file]; [intros [= <- <-]; congruence|].
  unfold lift, ret at 1.
  destruct (zip_testzip zip_file); [intros [= <- <-]; congruence|].
  destruct (PyStr.is_nil (zip_entries zip_file)); [intros [= <- <-]; congruence|].
  unfold bind at 1.
  destruct (entry_loop E extract (zip_entries zip_file) false [] s2)
    as [[[found texts]|e|] s3] eqn:Hloop; apply entry_loop_spec in Hloop.
  - destruct Hloop as (Hfound & (extra & -> & Hgood & Hlen) & Hcache).
    simpl fst. simpl snd. simpl in Hfound.
    destruct found; simpl.
    + intros [= <- <-]. split; [exact Hgood|].
      intros Hnil. simpl in Hnil. subst extra. simpl in Hlen.
      rewrite Hcache by (apply length_zero_nil; now symmetry). congruence.
    + intros [= <- <-].
      assert (Hsup : supported_members (zip_entries zip_file) = []).
      { destruct (supported_members (zip_entries zip_file)); [reflexivity|discriminate]. }
      rewrite Hcache; [congruence|]. unfold block_members. now rewrite Hsup.
  - contradiction.
  - now intros [= <- _].
Qed.

Lemma good_blocks_join texts :
  good_blocks texts -> texts <> [] -> PyStr.truthy (PyStr.strip (join_blocks texts)) = true.
Proof.
  intros Hgood Hne. destruct texts as [|b texts]; [congruence|].
  apply strip_truthy, join_blocks_plain.
  unfold good_blocks in Hgood. rewrite List.Forall_forall in Hgood. apply Hgood. now left.
Qed.

(** The archive extractor returns a text that is not blank, or raises
    having left the cache as it was. *)
Lemma extract_from_archive_spec E extract filepath s r s' :
  _extract_from_archive E extract filepath s = (r, s') ->
  match r with
  | Ok text => PyStr.has_text text = true
  | Raise _ => cache s' = cache s
  | OutOfFuel => True
  end.
Proof.
  unfold _extract_from_archive. unfold bind at 1. unfold emit at 1.
  set (s1 := set_trace _ s). unfold try_except. unfold bind at 1.
  destruct (String.eqb (PyStr.lower (PyStr.suffix filepath)) ".zip").
  - destruct (zip_texts E extract filepath s1) as [[texts|e|] s2] eqn:Hzip;
      apply zip_texts_spec in Hzip.
    + destruct Hzip as [Hgood Hnil].
      destruct (PyStr.truthy (PyStr.strip (join_blocks texts))) eqn:Hstrip.
      * intros [= <- <-]. now apply has_text_of_strip.
      * intros [= <- <-]. destruct texts as [|b texts]; [now apply Hnil|].
        rewrite good_blocks_join in Hstrip; [discriminate|assumption|discriminate].
    + now intros [= <- <-].
    + now intros [= <- <-].
  - destruct (String.eqb (PyStr.lower (PyStr.suffix filepath)) ".rar").
    + unfold ret at 1.
      replace (PyStr.truthy (PyStr.strip (join_blocks [rar_notice]))) with true
        by (vm_compute; reflexivity).
      intros [= <- <-]. vm_compute. reflexivity.
    + now intros [= <- <-].
Qed.

Lemma dispatch_spec E archive ext filepath s r s' :
  (forall r1 s1, archive filepath s = (r1, s1) ->
     match r1 with
     | Ok text => PyStr.has_text text = true
     | Raise _ => cache s1 = cache s
     | OutOfFuel => True
     end) ->
  dispatch E archive ext filepath s = (r, s') ->
  match r with
  | Ok text => PyStr.has_text text = true \/ cache s' = cache s
  | Raise _ => cache s' = cache s
  | OutOfFuel => True
  end.
Proof.
  intros Harchive. unfold dispatch.
  assert (Hsame : forall m : M string, preserves same_cache m -> m s = (r, s') ->
            match r with
            | Ok text => PyStr.has_text text = true \/ cache s' = cache s
            | Raise _ => cache s' = cache s
            | OutOfFuel => True
            end).
  { intros m Hm Hrun. apply Hm in Hrun. destruct r; auto. }
  destruct (PyStr.mem ext SUPPORTED_pdfs); [apply Hsame, extract_from_pdf_same_cache|].
  destruct (PyStr.mem ext SUPPORTED_images); [apply Hsame, extract_from_image_same_cache|].
  destruct (String.eqb ext ".docx"); [apply Hsame, extract_from_docx_same_cache|].
  destruct (PyStr.mem ext [".doc"; ".rtf"]); [apply Hsame, extract_from_legacy_doc_same_cache|].
  destruct (PyStr.mem ext SUPPORTED_text); [apply Hsame, extract_from_text_same_cache|].
  destruct (PyStr.mem ext SUPPORTED_archives).
  - intros H. apply Harchive in H. destruct r; auto.
  - apply Hsame. apply preserves_ret. exact _.
Qed.

(* ------------------------------------------------------------------ *)
(** ** [extract_text] and the cache *)

Lemma extract_text_miss E fuel filepath s :
  get_cached_text filepath s = (Ok None, s) ->
  extract_text E (S fuel) filepath s =
    match dispatch E (_extract_from_archive E (extract_text E fuel))
                   (PyStr.lower (PyStr.suffix filepath)) filepath s with
    | (Ok text, s1) =>
        if PyStr.has_text text
        then (Ok (text, true), snd (cache_text filepath text s1))
        else (Ok (text, false), set_error_log (error_log s1 ++ [no_text_message filepath]) s1)
    | (Raise e, s1) =>
        (Ok ("", false), set_error_log (error_log s1 ++ [failure_message filepath e]) s1)
    | (OutOfFuel, s1) => (OutOfFuel, s1)
    end.
Proof.
  intros Hmiss. cbn [extract_text].
  rewrite (bind_ok _ _ s _ s Hmiss). unfold try_except. unfold bind at 1.
  destruct (dispatch E _ _ filepath s) as [[text|e|] s1]; try reflexivity.
  destruct (PyStr.has_text text); reflexivity.
Qed.

Lemma cache_text_lookup filepath text s :
  option_map rec_text (cache (snd (cache_text filepath text s)) !! filepath) = Some text.
Proof. unfold cache_text, bind, get_file_hash, now. simpl. now rewrite lookup_insert_eq. Qed.

(** A call of [extract_text] that reports a failure (or, in the model,
    raises) has left the cache as it found it. *)
Lemma extract_text_failure_leaves_cache E fuel filepath s r s' :
  extract_text E fuel filepath s = (r, s') -> failure_leaves_cache r s s'.
Proof.
  destruct fuel as [|fuel]; [now intros [= <- <-]|].
  destruct (get_cached_text filepath s) as [[[text|]|e|] s0] eqn:Hget;
    pose proof (get_cached_text_state _ _ _ _ Hget) as ->.
  - cbn [extract_text]. rewrite (bind_ok _ _ s _ s Hget). now intros [= <- <-].
  - rewrite (extract_text_miss E fuel filepath s Hget).
    destruct (dispatch E _ _ filepath s) as [r1 s1] eqn:Hd.
    apply dispatch_spec in Hd; [|intros r2 s2; apply extract_from_archive_spec].
    destruct r1 as [text|e|].
    + destruct (PyStr.has_text text) eqn:Ht; [now intros [= <- <-]|].
      intros [= <- <-]. simpl. destruct Hd; congruence.
    + intros [= <- <-]. exact Hd.
    + now intros [= <- <-].
  - cbn [extract_text]. rewrite (bind_raise _ _ s _ s Hget). now intros [= <- <-].
  - cbn [extract_text]. rewrite (bind_out_of_fuel _ _ s s Hget). now intros [= <- <-].
Qed.

(** C4.  On a cache miss, whatever the extractor selected by the
    extension does decides the result: a text that is not blank is
    returned with [success = true] and cached; an empty or white-space
    text, or an exception, gives [success = false] and leaves the cache
    exactly as it was.  And in general a call that returns
    [success = false] has written no cache record. *)
Theorem failure_is_never_cached (E : env) (filepath : string) (s : state) :
  (forall fuel text s',
      extract_text E fuel filepath s = (Ok (text, false), s') -> cache s' = cache s) /\
  (forall fuel r1 s1,
      get_cached_text filepath s = (Ok None, s) ->
      dispatch E (_extract_from_archive E (extract_text E fuel))
               (PyStr.lower (PyStr.suffix filepath)) filepath s = (r1, s1) ->
      match r1 with
      | Ok text =>
          if PyStr.has_text text
          then exists s', extract_text E (S fuel) filepath s = (Ok (text, true), s') /\
                          option_map rec_text (cache s' !! filepath) = Some text
          else exists s', extract_text E (S fuel) filepath s = (Ok (text, false), s') /\
                          cache s' = cache s
      | Raise e =>
          exists s', extract_text E (S fuel) filepath s = (Ok ("", false), s') /\
                     cache s' = cache s
      | OutOfFuel => True
      end).
Proof.
  split.
  - intros fuel text s' H.
    exact (extract_text_failure_leaves_cache E fuel filepath s _ s' H).
  - intros fuel r1 s1 Hmiss Hd.
    pose proof (extract_text_miss E fuel filepath s Hmiss) as Hrun. rewrite Hd in Hrun.
    destruct r1 as [text|e|]; [|eexists; split; [exact Hrun|]|exact I].
    + destruct (PyStr.has_text text) eqn:Ht; eexists; (split; [exact Hrun|]).
      * apply cache_text_lookup.
      * exact (extract_text_failure_leaves_cache E (S fuel) filepath s _ _ Hrun).
    + exact (extract_text_failure_leaves_cache E (S fuel) filepath s _ _ Hrun).
Qed.

Lemma failure_is_never_cached_witness :
  get_cached_text "blank.txt" (Lab.fresh {[ "blank.txt" := Lab.blank_file ]}) =
    (Ok None, Lab.fresh {[ "blank.txt" := Lab.blank_file ]}) /\
  exists s',
    extract_text Lab.bare 2 "blank.txt" (Lab.fresh {[ "blank.txt" := Lab.blank_file ]}) =
      (Ok ("  ", false), s') /\
    cache s' = cache (Lab.fresh {[ "blank.txt" := Lab.blank_file ]}).
Proof.
  assert (Hmiss : get_cached_text "blank.txt" (Lab.fresh {[ "blank.txt" := Lab.blank_file ]}) =
                  (Ok None, Lab.fresh {[ "blank.txt" := Lab.blank_file ]}))
    by (vm_compute; reflexivity).
  split; [exact Hmiss|].
  destruct (failure_is_never_cached Lab.bare "blank.txt"
              (Lab.fresh {[ "blank.txt" := Lab.blank_file ]})) as [_ H].
  specialize (H 1 (Ok "  ")
                (snd (dispatch Lab.bare (_extract_from_archive Lab.bare (extract_text Lab.bare 1))
                        (PyStr.lower (PyStr.suffix "blank.txt")) "blank.txt"
                        (Lab.fresh {[ "blank.txt" := Lab.blank_file ]})))
                Hmiss).
  apply H. vm_compute. reflexivity.
Defined.

(* ------------------------------------------------------------------ *)
(** ** Records left behind for temporary files *)

Lemma extract_text_success_cached E fuel filepath s text s' :
  extract_text E fuel filepath s = (Ok (text, true), s') ->
  option_map rec_text (cache s' !! filepath) = Some text.
Proof.
  destruct fuel as [|fuel]; [discriminate|].
  destruct (get_cached_text filepath s) as [[[cached|]|e|] s0] eqn:Hget;
    pose proof (get_cached_text_state _ _ _ _ Hget) as ->.
  - cbn [extract_text]. rewrite (bind_ok _ _ s _ s Hget). intros [= <- <-].
    revert Hget. unfold get_cached_text, bind, get_file_hash.
    destruct (cache s !! filepath) as [c|]; [|discriminate].
    destruct (_ =? _); [|discriminate]. now intros [= <-].
  - rewrite (extract_text_miss E fuel filepath s Hget).
    destruct (dispatch E _ _ filepath s) as [[t|e|] s1]; [|discriminate..].
    destruct (PyStr.has_text t); [|discriminate].
    intros [= <- <-]. apply cache_text_lookup.
  - cbn [extract_text]. now rewrite (bind_raise _ _ s _ s Hget).
  - cbn [extract_text]. now rewrite (bind_out_of_fuel _ _ s s Hget).
Qed.

(** C10.  A [.docx], [.doc] or [.rtf] member whose temporary file
    [extract_text] extracts with success: the member contributes its
    block, the cache holds a record under the path of the temporary
    file, with the text of the member, and that file has been removed
    from the file system. *)
Theorem member_record_outlives_temp_file (E : env) (fuel : nat)
        (file_name : string) (content : bytes) (all_texts : list string)
        (s s1 : state) (text : string) :
  PyStr.endswith (PyStr.lower file_name) ".pdf" = false ->
  extract_text E fuel (temp_path (tmp_ctr s) (PyStr.suffix file_name))
               (snd (NamedTemporaryFile (PyStr.suffix file_name) content s)) =
    (Ok (text, true), s1) ->
  exists texts' s2,
    temp_member E (extract_text E fuel) file_name content all_texts s = (Ok texts', s2) /\
    one_more all_texts texts' /\
    option_map rec_text (cache s2 !! temp_path (tmp_ctr s) (PyStr.suffix file_name)) = Some text /\
    fs s2 !! temp_path (tmp_ctr s) (PyStr.suffix file_name) = None.
Proof.
  intros Hpdf Hrun.
  pose proof (extract_text_success_cached E fuel _ _ text s1 Hrun) as Hrec.
  unfold temp_member. unfold bind at 1. unfold NamedTemporaryFile at 1.
  unfold NamedTemporaryFile in Hrun. cbn [snd] in Hrun.
  rewrite Hpdf. unfold try_finally, try_except, document_member. unfold bind at 1.
  rewrite Hrun.
  destruct (true && PyStr.truthy (PyStr.strip text));
    eexists _, _; (split; [reflexivity|]);
    (split; [apply one_more_intro; auto with frames|]);
    (split; [exact Hrec | simpl; apply lookup_delete_eq]).
Qed.

Lemma member_record_outlives_temp_file_witness :
  exists texts' s2,
    temp_member Lab.office (extract_text Lab.office 1) "a.docx" Lab.some_bytes []
                (Lab.fresh {[ "bundle.zip" := Lab.a_file ]}) = (Ok texts', s2) /\
    one_more [] texts' /\
    option_map rec_text (cache s2 !! "/tmp/tmp0.docx") = Some "hi" /\
    fs s2 !! "/tmp/tmp0.docx" = None.
Proof.
  apply (member_record_outlives_temp_file Lab.office 1 "a.docx" Lab.some_bytes []
           (Lab.fresh {[ "bundle.zip" := Lab.a_file ]})
           (snd (extract_text Lab.office 1 "/tmp/tmp0.docx"
                   (snd (NamedTemporaryFile ".docx" Lab.some_bytes
                           (Lab.fresh {[ "bundle.zip" := Lab.a_file ]})))))
           "hi").
  - vm_compute; reflexivity.
  - vm_compute; reflexivity.
Defined.

(** The same, seen from the caller: after the archive has been
    processed with success the cache has a record for a path that is
    not in the file system. *)
Example archive_leaves_stale_record :
  let s' := snd (extract_text Lab.office 2 "bundle.zip"
                   (Lab.fresh {[ "bundle.zip" := Lab.a_file ]})) in
  fst (extract_text Lab.office 2 "bundle.zip" (Lab.fresh {[ "bundle.zip" := Lab.a_file ]})) =
    Ok ("=== ФАЙЛ В АРХИВЕ: a.docx ===" ++ PyStr.nl ++ "hi", true) /\
  option_map rec_text (cache s' !! "/tmp/tmp0.docx") = Some "hi" /\
  fs s' !! "/tmp/tmp0.docx" = None.
Proof. vm_compute. repeat split. Qed.

(* ------------------------------------------------------------------ *)
(** ** What the archive extractor leaves alone *)

Lemma member_is_plain_document n file_name :
  PyStr.endswith_any (PyStr.lower file_name) [".pdf"; ".docx"; ".doc"; ".rtf"] = true ->
  PyStr.endswith (PyStr.lower file_name) ".pdf" = false ->
  plain_document (temp_path n (PyStr.suffix file_name)).
Proof.
  intros Hdoc Hpdf. unfold plain_document. rewrite temp_path_suffix.
  change (PyStr.mem ?x (".pdf" :: SUPPORTED_archives))
    with (String.eqb x ".pdf" || PyStr.mem x SUPPORTED_archives).
  rewrite (document_suffix_not_archive _ Hdoc), orb_false_r.
  destruct (String.eqb _ ".pdf") eqn:H; [|reflexivity].
  apply String.eqb_eq in H. pose proof (endswith_suffix file_name) as He.
  rewrite H in He. congruence.
Qed.

Section ArchiveFrame.

Context (P : state -> state -> Prop) `{!PreOrder P}.
Context (E : env) (extract : string -> M (string * bool)).
Hypothesis Hemit : forall ev, preserves P (emit ev).
Hypothesis Htemp : forall sfx content, preserves P (NamedTemporaryFile sfx content).
Hypothesis Hunlink : forall p, preserves P (unlink p).
Hypothesis Hextract : forall p, plain_document p -> preserves P (extract p).

Lemma pdf_member_preserves file_name temp_file_path all_texts :
  preserves P (pdf_member E file_name temp_file_path all_texts).
Proof.
  pose proof (extract_from_pdf_simple_preserves P E temp_file_path Hemit Htemp Hunlink).
  unfold pdf_member. frame.
Qed.

Lemma document_member_preserves file_name temp_file_path all_texts :
  plain_document temp_file_path ->
  preserves P (document_member extract file_name temp_file_path all_texts).
Proof.
  intros Hp. pose proof (Hextract _ Hp). unfold document_member. frame.
Qed.

Lemma temp_member_preserves file_name content all_texts :
  PyStr.endswith_any (PyStr.lower file_name) [".pdf"; ".docx"; ".doc"; ".rtf"] = true ->
  preserves P (temp_member E extract file_name content all_texts).
Proof.
  intros Hdoc s r s'. unfold temp_member. unfold bind at 1.
  destruct (NamedTemporaryFile (PyStr.suffix file_name) content s) as [r1 s1] eqn:Ht.
  pose proof (Htemp _ _ s r1 s1 Ht) as H1.
  unfold NamedTemporaryFile in Ht. injection Ht as <- <-.
  intros Hrun. transitivity
    (set_tmp_ctr (S (tmp_ctr s))
       (set_clock (S (clock s))
          (set_fs (<[temp_path (tmp_ctr s) (PyStr.suffix file_name) :=
                     {| f_content := content; f_mtime := clock s |}]> (fs s)) s)));
    [exact H1|].
  revert Hrun. apply preserves_try_finally; [exact _| |apply Hunlink].
  apply preserves_try_except; [exact _| |intros e; apply preserves_ret; exact _].
  destruct (PyStr.endswith (PyStr.lower file_name) ".pdf") eqn:Hpdf.
  - apply pdf_member_preserves.
  - apply document_member_preserves. now apply member_is_plain_document.
Qed.

Lemma member_preserves en all_texts :
  is_supported (entry_name en) = true ->
  preserves P (member E extract en all_texts).
Proof.
  intros Hsup. unfold member.
  apply preserves_bind; [exact _|apply Hemit|intros _].
  destruct (entry_read en) as [e|content]; [apply preserves_ret; exact _|].
  destruct (Nat.eqb (length content) 0); [apply preserves_ret; exact _|].
  destruct (PyStr.endswith_any _ [".txt"; ".md"]) eqn:Htxt; [apply preserves_ret; exact _|].
  pose proof (supported_split _ Hsup Htxt) as Hdoc. rewrite Hdoc.
  now apply temp_member_preserves.
Qed.

Lemma entry_loop_preserves entries : forall found all_texts,
  preserves P (entry_loop E extract entries found all_texts).
Proof.
  induction entries as [|en rest IH]; intros found all_texts; cbn [entry_loop].
  - apply preserves_ret; exact _.
  - destruct (is_supported (entry_name en)) eqn:Hsup; [|apply IH].
    apply preserves_bind; [exact _|now apply member_preserves|intros t; apply IH].
Qed.

Lemma extract_from_archive_preserves filepath :
  preserves P (_extract_from_archive E extract filepath).
Proof.
  pose proof entry_loop_preserves.
  unfold _extract_from_archive, zip_texts. frame.
Qed.

End ArchiveFrame.

(* ------------------------------------------------------------------ *)
(** ** The keys of the cache *)

#[local] Instance keeps_keys_ok_preorder : PreOrder keeps_keys_ok.
Proof. split; unfold keeps_keys_ok; [now intros s | intros s1 s2 s3 H1 H2 H; auto]. Qed.

Lemma same_cache_keeps_keys {A} (m : M A) :
  preserves same_cache m -> preserves keeps_keys_ok m.
Proof. intros H s r s' Hm Hok. now rewrite (H s r s' Hm). Qed.

Lemma dispatch_preserves (P : state -> state -> Prop) `{!PreOrder P} E archive ext filepath :
  preserves P (_extract_from_pdf E filepath) ->
  preserves P (_extract_from_image E filepath) ->
  preserves P (_extract_from_docx E filepath) ->
  preserves P (_extract_from_legacy_doc E filepath) ->
  preserves P (_extract_from_text E filepath) ->
  preserves P (archive filepath) ->
  preserves P (dispatch E archive ext filepath).
Proof. intros. unfold dispatch. frame. Qed.

Lemma extract_text_keeps_keys E fuel : forall filepath,
  preserves keeps_keys_ok (extract_text E fuel filepath).
Proof.
  induction fuel as [|fuel IH]; intros filepath s r s'; [now intros [= _ <-]|].
  destruct (get_cached_text filepath s) as [[[cached|]|e|] s0] eqn:Hget;
    pose proof (get_cached_text_state _ _ _ _ Hget) as ->.
  - cbn [extract_text]. rewrite (bind_ok _ _ s _ s Hget). now intros [= _ <-].
  - rewrite (extract_text_miss E fuel filepath s Hget).
    destruct (dispatch E _ _ filepath s) as [r1 s1] eqn:Hd.
    assert (Hkeep : keeps_keys_ok s s1).
    { revert Hd. apply dispatch_preserves; try exact _;
        try solve [apply same_cache_keeps_keys;
             auto using extract_from_pdf_same_cache, extract_from_image_same_cache,
               extract_from_docx_same_cache, extract_from_legacy_doc_same_cache,
               extract_from_text_same_cache].
      apply extract_from_archive_preserves; try exact _;
        try solve [intros; apply same_cache_keeps_keys; auto with frames].
      intros p _. apply IH. }
    destruct r1 as [text|e|].
    + destruct (PyStr.has_text text) eqn:Ht.
      * intros [= _ <-] Hok k. unfold cache_text, bind, get_file_hash, now. simpl.
        destruct (decide (filepath = k)) as [Heq|Hne].
        -- subst k. intros _.
           destruct (PyStr.mem (PyStr.lower (PyStr.suffix filepath)) SUPPORTED_EXTENSIONS)
             eqn:Hext; [exact Hext|].
           rewrite (dispatch_unsupported E _ _ filepath Hext) in Hd.
           injection Hd as <- _. discriminate Ht.
        -- rewrite lookup_insert_ne by exact Hne. now apply Hkeep.
      * intros [= _ <-] Hok. now apply Hkeep.
    + intros [= _ <-] Hok. now apply Hkeep.
    + intros [= _ <-] Hok. now apply Hkeep.
  - cbn [extract_text]. rewrite (bind_raise _ _ s _ s Hget). now intros [= _ <-].
  - cbn [extract_text]. rewrite (bind_out_of_fuel _ _ s s Hget). now intros [= _ <-].
Qed.

(** Whatever the processor has done, its cache holds records only for
    paths with an extension of the closed list. *)
Lemma reachable_keys_ok E s : reachable E s -> cache_keys_ok (cache s).
Proof.
  induction 1 as [s Hempty|s fuel filepath r s' _ IH Hrun|s r s' _ IH Hclear|s files _ IH].
  - intros k [c Hc]. rewrite Hempty, lookup_empty in Hc. discriminate.
  - exact (extract_text_keeps_keys E fuel filepath s r s' Hrun IH).
  - injection Hclear as _ <-. intros k [c Hc]. simpl in Hc.
    rewrite lookup_empty in Hc. discriminate.
  - exact IH.
Qed.

(** C9.  A file whose lowered extension is not in the closed list: in
    every state the processor can reach, [extract_text] returns the
    empty text with [success = false]; the only change of the state is
    the line added to the error log, so no extractor has been entered
    and nothing has been cached, and no exception is raised. *)
Theorem unsupported_extension_fails_quietly (E : env) (fuel : nat)
        (filepath : string) (s : state) :
  reachable E s ->
  PyStr.mem (PyStr.lower (PyStr.suffix filepath)) SUPPORTED_EXTENSIONS = false ->
  extract_text E (S fuel) filepath s =
    (Ok ("", false), set_error_log (error_log s ++ [no_text_message filepath]) s).
Proof.
  intros Hreach Hext. apply extract_text_unsupported_miss; [exact Hext|].
  pose proof (reachable_keys_ok E s Hreach filepath) as Hkeys.
  unfold get_cached_text, bind, get_file_hash.
  destruct (cache s !! filepath) as [c|] eqn:Hc; [|reflexivity].
  rewrite Hkeys in Hext by eauto. discriminate.
Qed.

Lemma unsupported_extension_fails_quietly_witness :
  reachable Lab.bare (Lab.fresh {[ "setup.exe" := Lab.a_file ]}) /\
  PyStr.mem (PyStr.lower (PyStr.suffix "setup.exe")) SUPPORTED_EXTENSIONS = false /\
  extract_text Lab.bare 1 "setup.exe" (Lab.fresh {[ "setup.exe" := Lab.a_file ]}) =
    (Ok ("", false),
     set_error_log ["Файл пустой или не содержит текста: setup.exe"]
                   (Lab.fresh {[ "setup.exe" := Lab.a_file ]})).
Proof.
  assert (Hreach : reachable Lab.bare (Lab.fresh {[ "setup.exe" := Lab.a_file ]}))
    by (apply reach_fresh; reflexivity).
  split; [exact Hreach|]. split; [vm_compute; reflexivity|].
  apply (unsupported_extension_fails_quietly Lab.bare 0 "setup.exe" _ Hreach).
  vm_compute; reflexivity.
Defined.

(* ------------------------------------------------------------------ *)
(** ** [extract_text] returns *)

Lemma fuel_free_temp_member E extract file_name content all_texts :
  returns_on_documents extract ->
  PyStr.endswith_any (PyStr.lower file_name) [".pdf"; ".docx"; ".doc"; ".rtf"] = true ->
  fuel_free (temp_member E extract file_name content all_texts).
Proof.
  intros Hret Hdoc s. unfold temp_member. unfold bind at 1. unfold NamedTemporaryFile at 1.
  set (tp := temp_path (tmp_ctr s) (PyStr.suffix file_name)).
  set (s1 := set_tmp_ctr _ _).
  unfold try_finally, try_except.
  destruct (PyStr.endswith (PyStr.lower file_name) ".pdf").
  - destruct (pdf_member_spec E file_name tp all_texts s1) as (t' & s2 & -> & _). discriminate.
  - assert (Hplain : PyStr.mem (PyStr.lower (PyStr.suffix tp)) SUPPORTED_archives = false).
    { unfold tp. rewrite temp_path_suffix. now apply document_suffix_not_archive. }
    specialize (Hret tp Hplain s1). unfold document_member, bind.
    destruct (extract tp s1) as [[[text success]|e|] s2]; cbn [fst] in *.
    + destruct (success && PyStr.truthy (PyStr.strip text)); discriminate.
    + discriminate.
    + congruence.
Qed.

Lemma fuel_free_member E extract en all_texts :
  returns_on_documents extract ->
  is_supported (entry_name en) = true ->
  fuel_free (member E extract en all_texts).
Proof.
  intros Hret Hsup. unfold member.
  apply fuel_free_bind; [apply fuel_free_emit|intros _].
  destruct (entry_read en) as [e|content]; [apply fuel_free_ret|].
  destruct (Nat.eqb (length content) 0); [apply fuel_free_ret|].
  destruct (PyStr.endswith_any _ [".txt"; ".md"]) eqn:Htxt; [apply fuel_free_ret|].
  pose proof (supported_split _ Hsup Htxt) as Hdoc. rewrite Hdoc.
  now apply fuel_free_temp_member.
Qed.

Lemma fuel_free_entry_loop E extract entries :
  returns_on_documents extract ->
  forall found all_texts, fuel_free (entry_loop E extract entries found all_texts).
Proof.
  intros Hret. induction entries as [|en rest IH]; intros found all_texts; cbn [entry_loop].
  - apply fuel_free_ret.
  - destruct (is_supported (entry_name en)) eqn:Hsup; [|apply IH].
    apply fuel_free_bind; [now apply fuel_free_member|intros t; apply IH].
Qed.

Lemma fuel_free_extract_from_archive E extract filepath :
  returns_on_documents extract ->
  fuel_free (_extract_from_archive E extract filepath).
Proof.
  intros Hret. pose proof (fuel_free_entry_loop E extract) as Hloop.
  unfold _extract_from_archive, zip_texts. fuel.
Qed.

Lemma fuel_free_extract_text_step E fuel filepath :
  fuel_free (dispatch E (_extract_from_archive E (extract_text E fuel))
                      (PyStr.lower (PyStr.suffix filepath)) filepath) ->
  fuel_free (extract_text E (S fuel) filepath).
Proof. intros Hd. cbn [extract_text]. fuel. Qed.

Lemma extract_text_returns_on_documents E fuel :
  returns_on_documents (extract_text E (S fuel)).
Proof.
  intros p Hp. apply fuel_free_extract_text_step.
  unfold dispatch. rewrite Hp. fuel.
Qed.

Lemma fuel_free_extract_text E fuel filepath :
  fuel_free (extract_text E (S (S fuel)) filepath).
Proof.
  apply fuel_free_extract_text_step.
  pose proof (fuel_free_extract_from_archive E (extract_text E (S fuel)) filepath
                (extract_text_returns_on_documents E fuel)).
  unfold dispatch. fuel.
Qed.

Lemma extract_text_never_raises E fuel filepath s e :
  fst (extract_text E fuel filepath s) <> Raise e.
Proof.
  destruct fuel as [|fuel]; [discriminate|].
  destruct (get_cached_text filepath s) as [[[cached|]|e0|] s0] eqn:Hget;
    pose proof (get_cached_text_state _ _ _ _ Hget) as ->.
  - cbn [extract_text]. rewrite (bind_ok _ _ s _ s Hget). discriminate.
  - rewrite (extract_text_miss E fuel filepath s Hget).
    destruct (dispatch E _ _ filepath s) as [[text|e1|] s1]; try discriminate.
    destruct (PyStr.has_text text); discriminate.
  - revert Hget. unfold get_cached_text, bind, get_file_hash.
    destruct (cache s !! filepath) as [c|]; [destruct (_ =? _)|]; discriminate.
  - cbn [extract_text]. rewrite (bind_out_of_fuel _ _ s s Hget). discriminate.
Qed.

(** With fuel for the one nested call, [extract_text] returns a pair
    for every path, in every state: it neither raises nor runs on. *)
Lemma extract_text_total E fuel filepath : total (extract_text E (S (S fuel)) filepath).
Proof.
  intros s. pose proof (fuel_free_extract_text E fuel filepath s) as Hfuel.
  pose proof (extract_text_never_raises E (S (S fuel)) filepath s) as Hraise.
  destruct (extract_text E (S (S fuel)) filepath s) as [[a|e|] s'].
  - now exists a, s'.
  - now contradiction (Hraise e).
  - now contradiction Hfuel.
Qed.

(* ------------------------------------------------------------------ *)
(** ** The blocks of an archive *)

Lemma entry_loop_total E fuel entries found all_texts s :
  exists found' blocks s',
    entry_loop E (extract_text E (S fuel)) entries found all_texts s =
      (Ok (found', blocks), s').
Proof.
  pose proof (fuel_free_entry_loop E _ entries (extract_text_returns_on_documents E fuel)
                found all_texts s) as Hfuel.
  destruct (entry_loop E _ entries found all_texts s) as [[[found' blocks]|e|] s'] eqn:Hloop.
  - now exists found', blocks, s'.
  - now apply entry_loop_spec in Hloop.
  - now contradiction Hfuel.
Qed.

(** C5 as the code has it.  For a ZIP archive that opens and passes
    [testzip]: the loop ends with one block for each member that passed
    the allowlist and contributes one ([adds_block]: a member that
    cannot be read, a non-empty [.pdf]/[.docx]/[.doc]/[.rtf] member
    whether its extraction succeeds or fails, a non-empty [.txt]/[.md]
    member that decodes to a text that is not blank), and for no other
    member; with at least one block the archive extractor returns the
    blocks joined, a text that is not blank; with none it raises. *)
Theorem archive_blocks_count (E : env) (fuel : nat) (filepath : string) (s : state)
        (f : file) (zip_file : zip_archive) :
  PyStr.lower (PyStr.suffix filepath) = ".zip" ->
  fs s !! filepath = Some f ->
  f_content f <> [] ->
  ZipFile E (f_content f) = inr zip_file ->
  zip_testzip zip_file = None ->
  exists found blocks s1,
    entry_loop E (extract_text E (S fuel)) (zip_entries zip_file) false []
               (set_trace (trace s ++ [Enter XArchive filepath]) s) =
      (Ok (found, blocks), s1) /\
    length blocks = length (block_members E (zip_entries zip_file)) /\
    good_blocks blocks /\
    (blocks <> [] ->
     _extract_from_archive E (extract_text E (S fuel)) filepath s =
       (Ok (join_blocks blocks), s1) /\
     PyStr.has_text (join_blocks blocks) = true) /\
    (blocks = [] ->
     exists e, _extract_from_archive E (extract_text E (S fuel)) filepath s = (Raise e, s1)).
Proof.
  intros Hext Hf Hne Hzip Htest.
  set (s0 := set_trace (trace s ++ [Enter XArchive filepath]) s).
  destruct (entry_loop_total E fuel (zip_entries zip_file) false [] s0)
    as (found & blocks & s1 & Hloop).
  pose proof (entry_loop_spec E _ _ _ _ _ _ _ Hloop) as (Hfound & (extra & Hx & Hgood & Hlen) & _).
  simpl in Hx, Hfound. subst extra.
  exists found, blocks, s1. split; [exact Hloop|]. split; [exact Hlen|]. split; [exact Hgood|].
  assert (Hrun : _extract_from_archive E (extract_text E (S fuel)) filepath s =
                 try_except
                   (all_texts <~ zip_texts E (extract_text E (S fuel)) filepath ;;
                    if PyStr.truthy (PyStr.strip (join_blocks all_texts))
                    then ret (join_blocks all_texts)
                    else raise Exception_ archive_no_text)
                   (fun e => raise Exception_
                      ("Ошибка обработки архива " ++ filepath ++ ": " ++ str_of_exn e)) s0).
  { unfold _extract_from_archive. rewrite Hext. reflexivity. }
  assert (Hzt : zip_texts E (extract_text E (S fuel)) filepath s0 =
                if PyStr.is_nil (zip_entries zip_file)
                then (Raise (mk_exn Exception_ "ZIP архив пустой"), s0)
                else if negb found
                     then (Raise (mk_exn Exception_ "В ZIP архиве нет поддерживаемых файлов"), s1)
                     else (Ok blocks, s1)).
  { unfold zip_texts, getsize.
    rewrite (bind_ok _ _ s0 (length (f_content f)) s0).
    2:{ now rewrite (bind_ok _ _ s0 _ s0 (read_file_eq filepath s0 f Hf)). }
    rewrite (nonempty_size _ Hne).
    rewrite (bind_ok _ _ s0 _ s0 (read_file_eq filepath s0 f Hf)).
    rewrite Hzip. unfold lift. rewrite bind_ret_l. rewrite Htest.
    destruct (PyStr.is_nil (zip_entries zip_file)); [reflexivity|].
    rewrite (bind_ok _ _ s0 _ s1 Hloop). cbn [fst snd].
    destruct (negb found); reflexivity. }
  assert (Hempty : PyStr.is_nil (zip_entries zip_file) = true -> blocks = [] /\ s1 = s0).
  { intros Hnil. destruct (zip_entries zip_file); [|discriminate].
    simpl in Hloop. unfold ret in Hloop. now injection Hloop as _ <- <-. }
  split.
  - intros Hblocks. rewrite Hrun. unfold try_except, bind. rewrite Hzt.
    destruct (PyStr.is_nil (zip_entries zip_file)) eqn:Hnil;
      [now destruct (Hempty eq_refl)|].
    assert (found = true) as ->.
    { rewrite Hfound. destruct (supported_members (zip_entries zip_file)) eqn:Hs; [|reflexivity].
      unfold block_members in Hlen. rewrite Hs in Hlen. simpl in Hlen.
      destruct blocks; [congruence|discriminate]. }
    cbn [negb]. rewrite (good_blocks_join blocks Hgood Hblocks).
    split; [reflexivity|]. apply has_text_of_strip. exact (good_blocks_join blocks Hgood Hblocks).
  - intros ->. rewrite Hrun. unfold try_except, bind. rewrite Hzt.
    destruct (PyStr.is_nil (zip_entries zip_file)) eqn:Hnil.
    + destruct (Hempty eq_refl) as [_ ->]. eexists. reflexivity.
    + destruct (negb found); eexists; reflexivity.
Qed.

Lemma archive_blocks_count_witness :
  length (block_members Lab.scenario_c (zip_entries Lab.notes_and_broken_pdf)) = 2 /\
  exists found blocks s1,
    entry_loop Lab.scenario_c (extract_text Lab.scenario_c 1)
               (zip_entries Lab.notes_and_broken_pdf) false []
               (set_trace [Enter XArchive "bundle.zip"]
                          (Lab.fresh {[ "bundle.zip" := Lab.a_file ]})) =
      (Ok (found, blocks), s1) /\
    length blocks = 2 /\
    _extract_from_archive Lab.scenario_c (extract_text Lab.scenario_c 1) "bundle.zip"
                          (Lab.fresh {[ "bundle.zip" := Lab.a_file ]}) =
      (Ok (join_blocks blocks), s1).
Proof.
  split; [vm_compute; reflexivity|].
  destruct (archive_blocks_count Lab.scenario_c 0 "bundle.zip"
              (Lab.fresh {[ "bundle.zip" := Lab.a_file ]}) Lab.a_file
              Lab.notes_and_broken_pdf)
    as (found & blocks & s1 & Hloop & Hlen & _ & Hsome & _).
  - vm_compute; reflexivity.
  - vm_compute; reflexivity.
  - discriminate.
  - reflexivity.
  - reflexivity.
  - exists found, blocks, s1. split; [exact Hloop|]. split; [exact Hlen|].
    apply Hsome. intros ->. discriminate Hlen.
Defined.

(** Scenario C of the specification, computed. *)
Example scenario_c_blocks :
  fst (extract_text Lab.scenario_c 2 "bundle.zip" (Lab.fresh {[ "bundle.zip" := Lab.a_file ]})) =
    Ok ("=== ФАЙЛ В АРХИВЕ: notes.txt ===" ++ PyStr.nl ++ "hi" ++ PyStr.nl ++ PyStr.nl ++
        "=== ОШИБКА OCR PDF В АРХИВЕ: broken.pdf ===" ++ PyStr.nl ++
        "Ошибка обработки PDF: Tesseract OCR не установлен.", true).
Proof. vm_compute. reflexivity. Qed.

(** C5 as the spec words it fails: an archive whose only member is an
    empty text file has one member on the allowlist, no block, and is
    a failure. *)
Lemma empty_member_counterexample :
  ~ one_block_per_supported_member Lab.hollow 1 "bundle.zip"
      (zip_entries Lab.one_empty_txt) (Lab.fresh {[ "bundle.zip" := Lab.a_file ]}).
Proof.
  intros (found & blocks & s1 & Hloop & Hlen & _).
  vm_compute in Hloop. injection Hloop as _ <- _. discriminate Hlen.
Qed.

(* ------------------------------------------------------------------ *)
(** ** Cancellation *)

Lemma after_loop_zero s : after_loop 0 [] s = s.
Proof. destruct s. unfold after_loop, set_flag_reads, set_trace. simpl.
  now rewrite Nat.add_0_r, app_nil_r. Qed.

Lemma after_loop_break s :
  set_flag_reads (S (flag_reads s)) s = after_loop 1 [] s.
Proof. destruct s. unfold after_loop, set_flag_reads, set_trace. simpl.
  now rewrite Nat.add_1_r, app_nil_r. Qed.

Lemma after_loop_step ev n t s :
  after_loop n t (set_trace (trace (set_flag_reads (S (flag_reads s)) s) ++ [ev])
                            (set_flag_reads (S (flag_reads s)) s)) =
  after_loop (S n) (ev :: t) s.
Proof. destruct s. unfold after_loop, set_flag_reads, set_trace. simpl.
  now rewrite <- app_assoc, Nat.add_succ_r. Qed.

Lemma reads_of_succ j n : reads_of (S j) (S n) = S (reads_of j n).
Proof.
  unfold reads_of. change (Nat.ltb (S j) (S n)) with (Nat.ltb j n).
  now destruct (Nat.ltb j n).
Qed.

(** Each iteration of a parser loop reads the flag first; the loop
    processes the pages that come before the first read that is true,
    and no other, and keeps the blocks it has. *)
Lemma page_loop_run E l pages : forall i texts s,
  page_loop E l i pages texts s =
    (Ok (texts ++ page_blocks l i
           (firstn (uncancelled (cancelled_at E) (flag_reads s) (length pages)) pages))%list,
     after_loop (reads_of (uncancelled (cancelled_at E) (flag_reads s) (length pages))
                          (length pages))
                (map (PageQuery l)
                     (seq i (uncancelled (cancelled_at E) (flag_reads s) (length pages))))
                s).
Proof.
  induction pages as [|page rest IH]; intros i texts s.
  - simpl. unfold ret, reads_of. simpl. now rewrite after_loop_zero, app_nil_r.
  - cbn [page_loop length uncancelled]. unfold bind at 1. unfold read_cancelled at 1.
    destruct (cancelled_at E (flag_reads s)) eqn:Hc.
    + unfold ret, reads_of. simpl. now rewrite app_nil_r, after_loop_break.
    + unfold bind at 1. unfold emit at 1.
      rewrite reads_of_succ. cbn [firstn seq map page_blocks].
      rewrite <- after_loop_step.
      destruct page as [[text|]|e]; [destruct (PyStr.has_text text)| |];
        rewrite IH; cbn [flag_reads set_trace set_flag_reads];
        rewrite <- ?app_assoc; reflexivity.
Qed.

Lemma ocr_loop_run E images : forall i texts s,
  ocr_loop E i images texts s =
    (Ok (texts ++ ocr_blocks i
           (firstn (uncancelled (cancelled_at E) (flag_reads s) (length images)) images))%list,
     after_loop (reads_of (uncancelled (cancelled_at E) (flag_reads s) (length images))
                          (length images))
                (map OcrPage
                     (seq i (uncancelled (cancelled_at E) (flag_reads s) (length images))))
                s).
Proof.
  induction images as [|image rest IH]; intros i texts s.
  - simpl. unfold ret, reads_of. simpl. now rewrite after_loop_zero, app_nil_r.
  - cbn [ocr_loop length uncancelled]. unfold bind at 1. unfold read_cancelled at 1.
    destruct (cancelled_at E (flag_reads s)) eqn:Hc.
    + unfold ret, reads_of. simpl. now rewrite app_nil_r, after_loop_break.
    + unfold bind at 1. unfold emit at 1.
      rewrite reads_of_succ. cbn [firstn seq map ocr_blocks].
      rewrite <- after_loop_step.
      destruct (img_to_string image) as [e|ocr_text]; [|destruct (PyStr.has_text ocr_text)];
        rewrite IH; cbn [flag_reads set_trace set_flag_reads];
        rewrite <- ?app_assoc; reflexivity.
Qed.

Lemma page_block_plain l i text : has_plain (page_block l i text) = true.
Proof. unfold page_block. destruct l; apply has_plain_app_l, has_plain_app_l; reflexivity. Qed.

Lemma page_blocks_good l pages : forall i, good_blocks (page_blocks l i pages).
Proof.
  induction pages as [|page rest IH]; intros i; simpl; [apply List.Forall_nil|].
  destruct page as [[text|]|e]; [destruct (PyStr.has_text text)| |]; try apply IH.
  apply List.Forall_cons; [apply page_block_plain | apply IH].
Qed.

Lemma annotate_good n texts : good_blocks texts -> good_blocks (annotate warning_pages n texts).
Proof.
  intros H. unfold annotate. destruct (Nat.ltb 200 n); [|exact H].
  apply good_blocks_app; [exact H|].
  apply List.Forall_cons; [apply warning_pages_plain | apply List.Forall_nil].
Qed.

(** The extractors that [extract_text] selects for a path that is
    neither a PDF nor an archive do not read the flag. *)
Lemma extract_text_plain_same_flag_reads E fuel filepath :
  plain_document filepath ->
  preserves same_flag_reads (extract_text E fuel filepath).
Proof.
  intros Hplain. destruct fuel as [|fuel]; [apply preserves_out_of_fuel; exact _|].
  unfold plain_document, PyStr.mem in Hplain. cbn [existsb] in Hplain.
  apply orb_false_elim in Hplain as [Hpdf Harc].
  assert (Hp : PyStr.mem (PyStr.lower (PyStr.suffix filepath)) SUPPORTED_pdfs = false).
  { unfold PyStr.mem, SUPPORTED_pdfs. cbn [existsb]. now rewrite Hpdf. }
  assert (Ha : PyStr.mem (PyStr.lower (PyStr.suffix filepath)) SUPPORTED_archives = false).
  { exact Harc. }
  pose proof (text_loop_preserves same_flag_reads E encodings filepath).
  cbn [extract_text]. unfold dispatch. rewrite Hp, Ha.
  unfold _extract_from_image, _extract_from_docx, _extract_from_legacy_doc, _extract_from_text.
  frame.
Qed.

(** The archive extractor never reads the flag, whatever its members. *)
Lemma extract_from_archive_same_flag_reads E fuel filepath :
  preserves same_flag_reads (_extract_from_archive E (extract_text E fuel) filepath).
Proof.
  apply extract_from_archive_preserves; try exact _; auto with frames.
  intros p Hp. now apply extract_text_plain_same_flag_reads.
Qed.

(** *** The stages of the chain, one by one *)

Lemma after_loop_prefix n pre t s :
  after_loop n t (set_trace (trace s ++ pre) s) = after_loop n (pre ++ t) s.
Proof.
  destruct s. unfold after_loop, set_flag_reads, set_trace. simpl.
  now rewrite <- app_assoc.
Qed.

Lemma bind_ok_inv {A B} (m : M A) (k : A -> M B) s b s' :
  bind m k s = (Ok b, s') -> exists a s1, m s = (Ok a, s1) /\ k a s1 = (Ok b, s').
Proof. unfold bind. destruct (m s) as [[a|e|] s1]; [eauto|discriminate..]. Qed.

Lemma warning_ocr_plain n : has_plain (warning_ocr n) = true.
Proof. unfold warning_ocr. apply has_plain_app_l. vm_compute. reflexivity. Qed.

Lemma ocr_block_plain i text : has_plain (ocr_block i text) = true.
Proof. unfold ocr_block. apply has_plain_app_l. reflexivity. Qed.

Lemma ocr_blocks_good images : forall i, good_blocks (ocr_blocks i images).
Proof.
  induction images as [|image rest IH]; intros i; simpl; [apply List.Forall_nil|].
  destruct (img_to_string image) as [e|ocr_text];
    [|destruct (PyStr.has_text ocr_text)]; try apply IH.
  apply List.Forall_cons; [apply ocr_block_plain | apply IH].
Qed.

Lemma annotate_ocr_good n texts :
  good_blocks texts -> good_blocks (annotate warning_ocr n texts).
Proof.
  intros H. unfold annotate. destruct (Nat.ltb 200 n); [|exact H].
  apply good_blocks_app; [exact H|].
  apply List.Forall_cons; [apply warning_ocr_plain | apply List.Forall_nil].
Qed.

(** A parser that opens the file runs its page loop, the warning for
    a long file first. *)
Lemma stage_run_opened E l filepath texts s f pages :
  fs s !! filepath = Some f ->
  opens E l (f_content f) pages ->
  stage_run E (stage_of l) filepath texts s =
    page_loop E l 0 pages (annotate warning_pages (length pages) texts)
      (set_trace (trace s ++ [OpenPdf l filepath]) s).
Proof.
  intros Hf Hopen. destruct l; cbn [stage_run stage_of opens] in *.
  - now apply (primary_parse_opened E filepath texts s f pages).
  - destruct Hopen as [Hinst Hopen]. unfold secondary_parse. rewrite Hinst. cbn [negb].
    unfold try_except. unfold bind at 1. unfold emit at 1.
    set (s1 := set_trace _ s).
    rewrite (bind_ok _ _ s1 _ s1 (read_file_eq filepath s1 f Hf)).
    rewrite Hopen. unfold lift, bind at 1, ret at 1.
    rewrite page_loop_run. reflexivity.
  - destruct Hopen as [Hinst Hopen]. unfold tertiary_parse. rewrite Hinst. cbn [negb].
    unfold bind at 1. unfold emit at 1.
    set (s1 := set_trace _ s).
    rewrite (bind_ok _ _ s1 (inr (pages, false)) s1).
    2:{ unfold attempt.
        rewrite (bind_ok _ _ s1 _ s1 (read_file_eq filepath s1 f Hf)).
        rewrite Hopen. reflexivity. }
    reflexivity.
Qed.

(** The OCR stage with its tool chain in place rasterizes the file and
    runs its loop over the page images. *)
Lemma ocr_recovery_opened E filepath texts s f images :
  fs s !! filepath = Some f ->
  rasterizes E (f_content f) images ->
  ocr_recovery E filepath texts s =
    ocr_loop E 0 images (annotate warning_ocr (length images) texts)
      (set_trace (trace s ++ [Rasterize filepath]) s).
Proof.
  intros Hf (Htess & Himp & Hpop & Hconv). unfold ocr_recovery.
  rewrite Htess. cbn [negb]. unfold try_except, import_pdf2image.
  rewrite Himp, bind_ret_l. rewrite Hpop. cbn [negb].
  unfold bind at 1. unfold emit at 1.
  set (s1 := set_trace _ s).
  rewrite (bind_ok _ _ s1 _ s1 (read_file_eq filepath s1 f Hf)).
  rewrite Hconv. unfold lift, bind at 1, ret at 1.
  rewrite ocr_loop_run. reflexivity.
Qed.

Lemma chain_before_reads_only E st filepath :
  preserves reads_only (chain_before E st filepath).
Proof.
  pose proof (fun t => within_stage_reads_only _ (primary_parse_within_stage E filepath t)).
  pose proof (fun t => within_stage_reads_only _ (secondary_parse_within_stage E filepath t)).
  pose proof (fun t => within_stage_reads_only _ (tertiary_parse_within_stage E filepath t)).
  destruct st; unfold chain_before, when_empty; frame.
Qed.

Lemma reached_empty_files E st filepath s sk :
  reached_empty E st filepath s sk -> fs sk = fs s.
Proof.
  intros H. apply chain_before_reads_only in H.
  now rewrite (reads_only_same_files _ _ H).
Qed.

(** The chain from the stage it has reached with no block in hand:
    blocks that the stage leaves are the text of the file, and no
    stage follows. *)
Lemma extract_from_pdf_stage_ends E st filepath s f sk texts s' :
  fs s !! filepath = Some f ->
  f_content f <> [] ->
  reached_empty E st filepath s sk ->
  stage_run E st filepath [] (set_trace (trace sk ++ [Attempt st]) sk) = (Ok texts, s') ->
  good_blocks texts ->
  texts <> [] ->
  _extract_from_pdf E filepath s = (Ok (join_blocks texts), s').
Proof.
  intros Hf Hne Hreach Hrun Hgood Hsome.
  unfold reached_empty, pdf_entered in Hreach.
  unfold _extract_from_pdf.
  unfold bind at 1. unfold emit at 1.
  set (s0 := set_trace (trace s ++ [Enter XPdf filepath]) s) in *.
  unfold try_except, getsize.
  rewrite (bind_ok _ _ s0 (length (f_content f)) s0).
  2:{ now rewrite (bind_ok _ _ s0 _ s0 (read_file_eq filepath s0 f Hf)). }
  rewrite (nonempty_size (f_content f) Hne).
  pose proof (good_blocks_join texts Hgood Hsome) as Hjoin.
  destruct texts as [|b texts']; [congruence|].
  destruct st; cbn [chain_before stage_run] in Hreach, Hrun.
  - injection Hreach as <-.
    rewrite (bind_ok _ _ s0 (b :: texts') s').
    2:{ unfold bind at 1. unfold emit at 1. exact Hrun. }
    do 3 rewrite when_empty_skip, bind_ret_l.
    cbv zeta. rewrite Hjoin. reflexivity.
  - rewrite (bind_ok _ _ s0 [] sk Hreach).
    rewrite (bind_ok _ _ sk (b :: texts') s').
    2:{ rewrite when_empty_run. exact Hrun. }
    do 2 rewrite when_empty_skip, bind_ret_l.
    cbv zeta. rewrite Hjoin. reflexivity.
  - apply bind_ok_inv in Hreach as (t1 & s1 & H1 & H2).
    rewrite (bind_ok _ _ s0 t1 s1 H1).
    rewrite (bind_ok _ _ s1 [] sk H2).
    rewrite (bind_ok _ _ sk (b :: texts') s').
    2:{ rewrite when_empty_run. exact Hrun. }
    rewrite when_empty_skip, bind_ret_l.
    cbv zeta. rewrite Hjoin. reflexivity.
  - apply bind_ok_inv in Hreach as (t1 & s1 & H1 & H2).
    apply bind_ok_inv in H2 as (t2 & s2 & H2 & H3).
    rewrite (bind_ok _ _ s0 t1 s1 H1).
    rewrite (bind_ok _ _ s1 t2 s2 H2).
    rewrite (bind_ok _ _ s2 [] sk H3).
    rewrite (bind_ok _ _ sk (b :: texts') s').
    2:{ rewrite when_empty_run. exact Hrun. }
    cbv zeta. rewrite Hjoin. reflexivity.
Qed.

(** The last stage left no block: the file has no text. *)
Lemma extract_from_pdf_no_block E filepath s f sk s' :
  fs s !! filepath = Some f ->
  f_content f <> [] ->
  reached_empty E OcrRecovery filepath s sk ->
  ocr_recovery E filepath [] (set_trace (trace sk ++ [Attempt OcrRecovery]) sk) = (Ok [], s') ->
  _extract_from_pdf E filepath s = (Raise (no_text_in_pdf filepath), s').
Proof.
  intros Hf Hne Hreach Hrun.
  unfold reached_empty, pdf_entered in Hreach.
  unfold _extract_from_pdf.
  unfold bind at 1. unfold emit at 1.
  set (s0 := set_trace (trace s ++ [Enter XPdf filepath]) s) in *.
  unfold try_except, getsize.
  rewrite (bind_ok _ _ s0 (length (f_content f)) s0).
  2:{ now rewrite (bind_ok _ _ s0 _ s0 (read_file_eq filepath s0 f Hf)). }
  rewrite (nonempty_size (f_content f) Hne).
  cbn [chain_before] in Hreach.
  apply bind_ok_inv in Hreach as (t1 & s1 & H1 & H2).
  apply bind_ok_inv in H2 as (t2 & s2 & H2 & H3).
  rewrite (bind_ok _ _ s0 t1 s1 H1).
  rewrite (bind_ok _ _ s1 t2 s2 H2).
  rewrite (bind_ok _ _ s2 [] sk H3).
  rewrite (bind_ok _ _ sk [] s').
  2:{ rewrite when_empty_run. exact Hrun. }
  reflexivity.
Qed.

(** Whatever a stage that was reached with no block in hand returns,
    the call goes on from there: its events stay. *)
Lemma extract_from_pdf_after_stage E st filepath s f sk texts s1 :
  fs s !! filepath = Some f ->
  f_content f <> [] ->
  reached_empty E st filepath s sk ->
  stage_run E st filepath [] (set_trace (trace sk ++ [Attempt st]) sk) = (Ok texts, s1) ->
  reads_only s1 (snd (_extract_from_pdf E filepath s)).
Proof.
  intros Hf Hne Hreach Hrun.
  pose proof (fun t => within_stage_reads_only _ (secondary_parse_within_stage E filepath t))
    as Hsecondary.
  pose proof (fun t => within_stage_reads_only _ (tertiary_parse_within_stage E filepath t))
    as Htertiary.
  pose proof (fun t => within_stage_reads_only _ (ocr_recovery_within_stage E filepath t))
    as Hocr.
  unfold reached_empty, pdf_entered in Hreach.
  unfold _extract_from_pdf.
  unfold bind at 1. unfold emit at 1.
  set (s0 := set_trace (trace s ++ [Enter XPdf filepath]) s) in *.
  unfold try_except, getsize.
  rewrite (bind_ok _ _ s0 (length (f_content f)) s0).
  2:{ now rewrite (bind_ok _ _ s0 _ s0 (read_file_eq filepath s0 f Hf)). }
  rewrite (nonempty_size (f_content f) Hne).
  destruct st; cbn [chain_before stage_run] in Hreach, Hrun.
  - injection Hreach as <-.
    rewrite (bind_ok _ _ s0 texts s1).
    2:{ unfold bind at 1. unfold emit at 1. exact Hrun. }
    match goal with
    | |- reads_only s1 (snd (match ?m s1 with _ => _ end)) =>
        assert (HP : preserves reads_only m) by (unfold when_empty; frame);
        destruct (m s1) as [[a|e|] s2] eqn:HK; cbn; apply (HP _ _ _ HK)
    end.
  - rewrite (bind_ok _ _ s0 [] sk Hreach).
    rewrite (bind_ok _ _ sk texts s1).
    2:{ rewrite when_empty_run. exact Hrun. }
    match goal with
    | |- reads_only s1 (snd (match ?m s1 with _ => _ end)) =>
        assert (HP : preserves reads_only m) by (unfold when_empty; frame);
        destruct (m s1) as [[a|e|] s2] eqn:HK; cbn; apply (HP _ _ _ HK)
    end.
  - apply bind_ok_inv in Hreach as (t1 & s1' & H1 & H2).
    rewrite (bind_ok _ _ s0 t1 s1' H1).
    rewrite (bind_ok _ _ s1' [] sk H2).
    rewrite (bind_ok _ _ sk texts s1).
    2:{ rewrite when_empty_run. exact Hrun. }
    match goal with
    | |- reads_only s1 (snd (match ?m s1 with _ => _ end)) =>
        assert (HP : preserves reads_only m) by (unfold when_empty; frame);
        destruct (m s1) as [[a|e|] s2] eqn:HK; cbn; apply (HP _ _ _ HK)
    end.
  - apply bind_ok_inv in Hreach as (t1 & s1' & H1 & H2).
    apply bind_ok_inv in H2 as (t2 & s2' & H2 & H3).
    rewrite (bind_ok _ _ s0 t1 s1' H1).
    rewrite (bind_ok _ _ s1' t2 s2' H2).
    rewrite (bind_ok _ _ s2' [] sk H3).
    rewrite (bind_ok _ _ sk texts s1).
    2:{ rewrite when_empty_run. exact Hrun. }
    cbv zeta.
    destruct (negb (PyStr.truthy (PyStr.strip (join_blocks texts)))); cbn; reflexivity.
Qed.

(** *** Pages and readings of the flag *)

Lemma clear_reads_add c n : forall from m,
  clear_reads c from (n + m) = clear_reads c from n + clear_reads c (from + n) m.
Proof.
  induction n as [|n IH]; intros from m; simpl.
  - now rewrite Nat.add_0_r.
  - rewrite IH. replace (S from + n) with (from + S n) by lia. lia.
Qed.

Lemma clear_reads_of_loop c n : forall from,
  clear_reads c from (reads_of (uncancelled c from n) n) = uncancelled c from n.
Proof.
  induction n as [|n IH]; intros from; [reflexivity|].
  cbn [uncancelled]. destruct (c from) eqn:Hc.
  - unfold reads_of. simpl. now rewrite Hc.
  - rewrite reads_of_succ. cbn [clear_reads]. rewrite Hc, IH. reflexivity.
Qed.

(** With the flag set from its [m]-th reading on, the readings that
    are false come before it. *)
Lemma clear_reads_bound c m n : forall from,
  (forall k, m <= k -> c k = true) -> clear_reads c from n <= m - from.
Proof.
  induction n as [|n IH]; intros from Hset; simpl; [lia|].
  specialize (IH (S from) Hset).
  destruct (c from) eqn:Hc; [lia|].
  destruct (Nat.le_gt_cases m from) as [Hle|Hlt]; [|lia].
  rewrite (Hset from Hle) in Hc. discriminate.
Qed.

Lemma pages_processed_app t1 t2 :
  pages_processed (t1 ++ t2) = pages_processed t1 + pages_processed t2.
Proof. unfold pages_processed. now rewrite List.filter_app, length_app. Qed.

Lemma pages_processed_queries l j : forall i,
  pages_processed (map (PageQuery l) (seq i j)) = j.
Proof.
  induction j as [|j IH]; intros i; [reflexivity|].
  cbn [seq map]. change (pages_processed (?a :: ?t)) with (pages_processed ([a] ++ t)).
  rewrite pages_processed_app, IH. reflexivity.
Qed.

Lemma pages_processed_ocr j : forall i,
  pages_processed (map OcrPage (seq i j)) = j.
Proof.
  induction j as [|j IH]; intros i; [reflexivity|].
  cbn [seq map]. change (pages_processed (?a :: ?t)) with (pages_processed ([a] ++ t)).
  rewrite pages_processed_app, IH. reflexivity.
Qed.

#[local] Instance polled_preorder E : PreOrder (polled E).
Proof.
  split.
  - intros s. split; [lia|]. exists []. rewrite app_nil_r, Nat.sub_diag. now split.
  - intros s1 s2 s3 (L1 & t1 & T1 & P1) (L2 & t2 & T2 & P2).
    split; [lia|]. exists (t1 ++ t2)%list. split.
    + now rewrite T2, T1, app_assoc.
    + rewrite pages_processed_app, P1, P2.
      replace (flag_reads s3 - flag_reads s1)
        with ((flag_reads s2 - flag_reads s1) + (flag_reads s3 - flag_reads s2)) by lia.
      rewrite clear_reads_add.
      replace (flag_reads s1 + (flag_reads s2 - flag_reads s1)) with (flag_reads s2) by lia.
      reflexivity.
Qed.

Lemma polled_emit E ev : is_page_event ev = false -> preserves (polled E) (emit ev).
Proof.
  intros Hev s r s' [= _ <-]. split; [simpl; lia|].
  exists [ev]. split; [reflexivity|].
  simpl. rewrite Nat.sub_diag. unfold pages_processed. simpl. now rewrite Hev.
Qed.

#[export] Hint Extern 1 (preserves (polled _) (emit _)) =>
  (apply polled_emit; reflexivity) : frames.

Lemma polled_after_loop E s j n t :
  j = uncancelled (cancelled_at E) (flag_reads s) n ->
  pages_processed t = j ->
  polled E s (after_loop (reads_of j n) t s).
Proof.
  intros Hj Ht. split; [simpl; lia|].
  exists t. split; [reflexivity|].
  cbn [after_loop flag_reads set_flag_reads set_trace].
  replace (flag_reads s + reads_of j n - flag_reads s) with (reads_of j n) by lia.
  rewrite Ht, Hj. symmetry. apply clear_reads_of_loop.
Qed.

Lemma page_loop_polled E l pages i texts : preserves (polled E) (page_loop E l i pages texts).
Proof.
  intros s r s'. rewrite page_loop_run. intros [= _ <-].
  apply polled_after_loop; [reflexivity|apply pages_processed_queries].
Qed.

Lemma ocr_loop_polled E images i texts : preserves (polled E) (ocr_loop E i images texts).
Proof.
  intros s r s'. rewrite ocr_loop_run. intros [= _ <-].
  apply polled_after_loop; [reflexivity|apply pages_processed_ocr].
Qed.

#[export] Hint Resolve page_loop_polled ocr_loop_polled : frames.

Lemma extract_from_pdf_polled E filepath : preserves (polled E) (_extract_from_pdf E filepath).
Proof.
  unfold _extract_from_pdf, when_empty, primary_parse, primary_handler, secondary_parse,
    tertiary_parse, tertiary_handler, ocr_recovery, ocr_handler, import_pdf2image.
  frame.
Qed.




(** What the call of the second case does, in full: it reads the flag
    four times and works on no page but to rasterize the file, and the
    file is reported as a failure. *)
Example cancelled_scan_run :
  _extract_from_pdf Cases.cancelled_scan "scan.pdf" (Lab.fresh {[ "scan.pdf" := Lab.a_file ]}) =
    (Raise (no_text_in_pdf "scan.pdf"),
     after_loop 4
       [Enter XPdf "scan.pdf";
        Attempt Primary; OpenPdf Pdfplumber "scan.pdf";
        Attempt Secondary; OpenPdf PyMuPDF "scan.pdf";
        Attempt Tertiary; OpenPdf PyPDF2 "scan.pdf";
        Attempt OcrRecovery; Rasterize "scan.pdf"]
       (Lab.fresh {[ "scan.pdf" := Lab.a_file ]})).
Proof. vm_compute. reflexivity. Qed.

(* ------------------------------------------------------------------ *)
(** ** Further properties of [extract_text] and of the cache *)

#[local] Instance log_grows_preorder : PreOrder log_grows.
Proof.
  split.
  - intros s. exists []. now rewrite app_nil_r.
  - intros s1 s2 s3 [x1 H1] [x2 H2]. exists (x1 ++ x2)%list.
    now rewrite H2, H1, app_assoc.
Qed.

#[local] Instance same_error_log_preorder : PreOrder same_error_log.
Proof. split; unfold same_error_log; [now intros s | intros s1 s2 s3 H1 H2; congruence]. Qed.

#[local] Instance keeps_texts_ok_preorder : PreOrder keeps_texts_ok.
Proof. split; unfold keeps_texts_ok; [now intros s | intros s1 s2 s3 H1 H2 H; auto]. Qed.

Lemma same_log_emit ev : preserves same_error_log (emit ev).
Proof. now intros s r s' [= _ <-]. Qed.
Lemma same_log_read_cancelled E : preserves same_error_log (read_cancelled E).
Proof. now intros s r s' [= _ <-]. Qed.
Lemma same_log_temp sfx content : preserves same_error_log (NamedTemporaryFile sfx content).
Proof. now intros s r s' [= _ <-]. Qed.
Lemma same_log_unlink p : preserves same_error_log (unlink p).
Proof. now intros s r s' [= _ <-]. Qed.

#[export] Hint Resolve same_log_emit same_log_read_cancelled same_log_temp same_log_unlink
  : frames.

Lemma same_log_grows {A} (m : M A) : preserves same_error_log m -> preserves log_grows m.
Proof. intros H s r s' Hm. exists []. rewrite app_nil_r. exact (H s r s' Hm). Qed.

Lemma log_grows_log_error m : preserves log_grows (log_error m).
Proof. intros s r s' [= _ <-]. now exists [m]. Qed.

Lemma log_grows_cache_text p t : preserves log_grows (cache_text p t).
Proof. intros s r s' [= _ <-]. exists []. simpl. now rewrite app_nil_r. Qed.

(** The four extractors without a fallback chain, under any frame that
    the trace does not concern. *)
Lemma simple_extractors_preserve (P : state -> state -> Prop) `{!PreOrder P} E filepath :
  (forall ev, preserves P (emit ev)) ->
  preserves P (_extract_from_image E filepath) /\
  preserves P (_extract_from_docx E filepath) /\
  preserves P (_extract_from_legacy_doc E filepath) /\
  preserves P (_extract_from_text E filepath).
Proof.
  intros Hemit. pose proof (text_loop_preserves P E encodings filepath).
  unfold _extract_from_image, _extract_from_docx, _extract_from_legacy_doc, _extract_from_text.
  repeat split; frame.
Qed.

Lemma extract_from_pdf_same_log E filepath :
  preserves same_error_log (_extract_from_pdf E filepath).
Proof.
  intros s r s' H. now destruct (extract_from_pdf_reads_only E filepath s r s' H) as (_ & ? & _).
Qed.

(** What [dispatch] does to the error log when the path is not an
    archive: nothing. *)
Lemma dispatch_same_log E archive filepath :
  not_archive filepath ->
  preserves same_error_log
    (dispatch E archive (PyStr.lower (PyStr.suffix filepath)) filepath).
Proof.
  intros Hna. unfold not_archive in Hna. unfold dispatch. rewrite Hna.
  destruct (simple_extractors_preserve same_error_log E filepath same_log_emit)
    as (Himg & Hdocx & Hdoc & Htxt).
  pose proof (extract_from_pdf_same_log E filepath).
  frame.
Qed.

Lemma extract_text_log_grows E fuel : forall filepath,
  preserves log_grows (extract_text E fuel filepath).
Proof.
  induction fuel as [|fuel IH]; intros filepath; [apply preserves_out_of_fuel; exact _|].
  cbn [extract_text].
  assert (Hd : preserves log_grows
                 (dispatch E (_extract_from_archive E (extract_text E fuel))
                           (PyStr.lower (PyStr.suffix filepath)) filepath)).
  { destruct (simple_extractors_preserve log_grows E filepath
                (fun ev => same_log_grows _ (same_log_emit ev)))
      as (Himg & Hdocx & Hdoc & Htxt).
    apply dispatch_preserves; try exact _; try assumption.
    - apply same_log_grows, extract_from_pdf_same_log.
    - apply extract_from_archive_preserves; try exact _;
        try solve [intros; apply same_log_grows; auto with frames].
      intros p _. apply IH. }
  pose proof log_grows_log_error. pose proof log_grows_cache_text.
  frame.
Qed.

(** X3.  Error log of [extract_text].  The log is append-only: after any
    call the old log is a prefix of the new one.  For a path that is
    not an archive, a call that reports success appends nothing and a
    call that reports failure appends exactly one line, which names the
    file. *)
Theorem error_log_grows_by_one_line_per_failure (E : env) (fuel : nat) (filepath : string)
        (s : state) :
  log_grows s (snd (extract_text E fuel filepath s)) /\
  (not_archive filepath ->
   match extract_text E fuel filepath s with
   | (Ok (_, true), s') => error_log s' = error_log s
   | (Ok (_, false), s') =>
       exists msg, error_log s' = (error_log s ++ [msg])%list /\
                   (msg = no_text_message filepath \/
                    exists e, msg = failure_message filepath e)
   | _ => True
   end).
Proof.
  split.
  - destruct (extract_text E fuel filepath s) as [r s'] eqn:H.
    exact (extract_text_log_grows E fuel filepath s r s' H).
  - intros Hna. destruct fuel as [|fuel]; [exact I|].
    destruct (get_cached_text filepath s) as [[[cached|]|e|] s0] eqn:Hget;
      pose proof (get_cached_text_state _ _ _ _ Hget) as ->.
    + cbn [extract_text]. rewrite (bind_ok _ _ s _ s Hget). reflexivity.
    + rewrite (extract_text_miss E fuel filepath s Hget).
      destruct (dispatch E _ _ filepath s) as [r1 s1] eqn:Hd.
      pose proof (dispatch_same_log E _ filepath Hna s r1 s1 Hd) as Hlog.
      unfold same_error_log in Hlog.
      destruct r1 as [text|e|]; [destruct (PyStr.has_text text)| |].
      * unfold cache_text, bind, get_file_hash, now. simpl. exact Hlog.
      * exists (no_text_message filepath). simpl. rewrite Hlog. now split; [|left].
      * exists (failure_message filepath e). simpl. rewrite Hlog. split; [reflexivity|].
        right. now exists e.
      * exact I.
    + cbn [extract_text]. rewrite (bind_raise _ _ s _ s Hget). exact I.
    + cbn [extract_text]. rewrite (bind_out_of_fuel _ _ s s Hget). exact I.
Qed.

(** *** The success flag *)

Lemma extract_text_keeps_texts E fuel : forall filepath,
  preserves keeps_texts_ok (extract_text E fuel filepath).
Proof.
  assert (Hsame : forall A (m : M A), preserves same_cache m -> preserves keeps_texts_ok m).
  { intros A m H s r s' Hm Hok. now rewrite (H s r s' Hm). }
  induction fuel as [|fuel IH]; intros filepath s r s'; [now intros [= _ <-]|].
  destruct (get_cached_text filepath s) as [[[cached|]|e|] s0] eqn:Hget;
    pose proof (get_cached_text_state _ _ _ _ Hget) as ->.
  - cbn [extract_text]. rewrite (bind_ok _ _ s _ s Hget). now intros [= _ <-].
  - rewrite (extract_text_miss E fuel filepath s Hget).
    destruct (dispatch E _ _ filepath s) as [r1 s1] eqn:Hd.
    assert (Hkeep : keeps_texts_ok s s1).
    { revert Hd. apply dispatch_preserves; try exact _;
        try solve [apply Hsame;
             auto using extract_from_pdf_same_cache, extract_from_image_same_cache,
               extract_from_docx_same_cache, extract_from_legacy_doc_same_cache,
               extract_from_text_same_cache].
      apply extract_from_archive_preserves; try exact _;
        try solve [intros; apply Hsame; auto with frames].
      intros p _. apply IH. }
    destruct r1 as [text|e|].
    + destruct (PyStr.has_text text) eqn:Ht.
      * intros [= _ <-] Hok k c. unfold cache_text, bind, get_file_hash, now. simpl.
        destruct (decide (filepath = k)) as [Heq|Hne].
        -- subst k. rewrite lookup_insert_eq. now intros [= <-].
        -- rewrite lookup_insert_ne by exact Hne. now apply Hkeep.
      * intros [= _ <-] Hok. now apply Hkeep.
    + intros [= _ <-] Hok. now apply Hkeep.
    + intros [= _ <-] Hok. now apply Hkeep.
  - cbn [extract_text]. rewrite (bind_raise _ _ s _ s Hget). now intros [= _ <-].
  - cbn [extract_text]. rewrite (bind_out_of_fuel _ _ s s Hget). now intros [= _ <-].
Qed.

Lemma reachable_texts_ok E s : reachable E s -> cache_texts_ok (cache s).
Proof.
  induction 1 as [s Hempty|s fuel filepath r s' _ IH Hrun|s r s' _ IH Hclear|s files _ IH].
  - intros k c Hc. rewrite Hempty, lookup_empty in Hc. discriminate.
  - exact (extract_text_keeps_texts E fuel filepath s r s' Hrun IH).
  - injection Hclear as _ <-. intros k c Hc. simpl in Hc.
    rewrite lookup_empty in Hc. discriminate.
  - exact IH.
Qed.

Lemma get_cached_text_some filepath s text s' :
  get_cached_text filepath s = (Ok (Some text), s') ->
  exists r, cache s !! filepath = Some r /\ rec_text r = text /\
            rec_hash r = file_hash_in (fs s) filepath.
Proof.
  unfold get_cached_text, bind, get_file_hash.
  destruct (cache s !! filepath) as [r|]; [|discriminate].
  destruct (String.eqb _ _) eqn:Hh; [|discriminate].
  intros [= <- _]. exists r. apply String.eqb_eq in Hh. auto.
Qed.

(** X2.  The success flag of [extract_text].  In every state a
    processor that started with an empty cache can reach, the flag a
    call returns is true exactly when the text it returns holds a
    character that is not white space: from the cache or freshly
    extracted, a success is never blank and a failure never has text. *)
Theorem success_flag_is_text_present (E : env) (fuel : nat) (filepath : string)
        (s s' : state) (text : string) (success : bool) :
  reachable E s ->
  extract_text E fuel filepath s = (Ok (text, success), s') ->
  success = PyStr.has_text text.
Proof.
  intros Hreach. destruct fuel as [|fuel]; [discriminate|].
  destruct (get_cached_text filepath s) as [[[cached|]|e|] s0] eqn:Hget;
    pose proof (get_cached_text_state _ _ _ _ Hget) as ->.
  - cbn [extract_text]. rewrite (bind_ok _ _ s _ s Hget). intros [= <- <- _].
    destruct (get_cached_text_some _ _ _ _ Hget) as (r & Hr & <- & _).
    symmetry. exact (reachable_texts_ok E s Hreach filepath r Hr).
  - rewrite (extract_text_miss E fuel filepath s Hget).
    destruct (dispatch E _ _ filepath s) as [[t|e|] s1]; [|now intros [= <- <- _]|discriminate].
    + destruct (PyStr.has_text t) eqn:Ht; intros [= <- <- _]; now rewrite Ht.
  - cbn [extract_text]. rewrite (bind_raise _ _ s _ s Hget). discriminate.
  - cbn [extract_text]. rewrite (bind_out_of_fuel _ _ s s Hget). discriminate.
Qed.

Lemma success_flag_is_text_present_witness :
  reachable Lab.bare (Lab.fresh {[ "blank.txt" := Lab.blank_file ]}) /\
  fst (extract_text Lab.bare 2 "blank.txt" (Lab.fresh {[ "blank.txt" := Lab.blank_file ]})) =
    Ok ("  ", false) /\
  false = PyStr.has_text "  ".
Proof.
  assert (Hreach : reachable Lab.bare (Lab.fresh {[ "blank.txt" := Lab.blank_file ]}))
    by (apply reach_fresh; reflexivity).
  split; [exact Hreach|]. split; [vm_compute; reflexivity|].
  apply (success_flag_is_text_present Lab.bare 2 "blank.txt"
           (Lab.fresh {[ "blank.txt" := Lab.blank_file ]})
           (snd (extract_text Lab.bare 2 "blank.txt"
                   (Lab.fresh {[ "blank.txt" := Lab.blank_file ]})))
           "  " false Hreach).
  vm_compute; reflexivity.
Defined.

(** *** A second call *)

Lemma cache_text_then_hit filepath text s :
  get_cached_text filepath (snd (cache_text filepath text s)) =
    (Ok (Some text), snd (cache_text filepath text s)).
Proof.
  unfold cache_text, get_cached_text, bind, get_file_hash, now. simpl.
  rewrite lookup_insert_eq. simpl. now rewrite String.eqb_refl.
Qed.

(** X4.  A second call.  After a call that reported success, a second
    call on the same path, in the state the first one left, returns
    the same text with success and changes nothing: it is answered
    from the cache, whatever the libraries would answer now. *)
Theorem second_call_is_served_from_cache (E E' : env) (fuel fuel' : nat) (filepath : string)
        (s s' : state) (text : string) :
  extract_text E fuel filepath s = (Ok (text, true), s') ->
  extract_text E' (S fuel') filepath s' = (Ok (text, true), s').
Proof.
  intros Hrun.
  assert (Hhit : get_cached_text filepath s' = (Ok (Some text), s')).
  { destruct fuel as [|fuel]; [discriminate|].
    destruct (get_cached_text filepath s) as [[[cached|]|e|] s0] eqn:Hget;
      pose proof (get_cached_text_state _ _ _ _ Hget) as ->.
    - revert Hrun. cbn [extract_text]. rewrite (bind_ok _ _ s _ s Hget).
      intros [= <- <-]. exact Hget.
    - revert Hrun. rewrite (extract_text_miss E fuel filepath s Hget).
      destruct (dispatch E _ _ filepath s) as [[t|e|] s1]; [|discriminate|discriminate].
      destruct (PyStr.has_text t); [|discriminate].
      intros [= <- <-]. apply cache_text_then_hit.
    - revert Hrun. cbn [extract_text]. rewrite (bind_raise _ _ s _ s Hget). discriminate.
    - revert Hrun. cbn [extract_text]. rewrite (bind_out_of_fuel _ _ s s Hget). discriminate. }
  cbn [extract_text]. now rewrite (bind_ok _ _ s' _ s' Hhit).
Qed.

Lemma second_call_is_served_from_cache_witness :
  exists s',
    extract_text Lab.office 2 "bundle.zip" (Lab.fresh {[ "bundle.zip" := Lab.a_file ]}) =
      (Ok ("=== ФАЙЛ В АРХИВЕ: a.docx ===" ++ PyStr.nl ++ "hi", true), s') /\
    extract_text Lab.bare 1 "bundle.zip" s' =
      (Ok ("=== ФАЙЛ В АРХИВЕ: a.docx ===" ++ PyStr.nl ++ "hi", true), s').
Proof.
  eexists. split; [vm_compute; reflexivity|].
  apply (second_call_is_served_from_cache Lab.office Lab.bare 2 0 "bundle.zip"
           (Lab.fresh {[ "bundle.zip" := Lab.a_file ]})).
  vm_compute; reflexivity.
Defined.

(** *** The freshness signature *)

Lemma app_sep_inj (c : ascii) (a : string) : forall a' b b',
  ~ In c (list_ascii_of_string a) -> ~ In c (list_ascii_of_string a') ->
  a ++ String c b = a' ++ String c b' -> a = a' /\ b = b'.
Proof.
  induction a as [|x a IH]; intros [|y a'] b b' Ha Ha'; simpl.
  - now intros [= ->].
  - intros [= <- _]. exfalso. apply Ha'. now left.
  - intros [= -> _]. exfalso. apply Ha. now left.
  - intros [= -> H]. destruct (IH a' b b') as [-> ->]; auto.
    + intros Hin. apply Ha. now right.
    + intros Hin. apply Ha'. now right.
Qed.

Lemma of_nat_inj n m : PyStr.of_nat n = PyStr.of_nat m -> n = m.
Proof.
  unfold PyStr.of_nat. intros H.
  assert (Hu : Nat.to_uint n = Nat.to_uint m).
  { apply (f_equal NilEmpty.uint_of_string) in H. rewrite !NilEmpty.usu in H. congruence. }
  apply (f_equal Nat.of_uint) in Hu. now rewrite !DecimalNat.Unsigned.of_to in Hu.
Qed.

Lemma of_nat_no_underscore n : ~ In "_"%char (list_ascii_of_string (PyStr.of_nat n)).
Proof.
  intros Hin. pose proof (of_nat_digits n) as Hd.
  rewrite List.Forall_forall in Hd. specialize (Hd _ Hin). unfold is_digit in Hd.
  vm_compute in Hd. lia.
Qed.

Lemma signature_inj f g :
  signature f = signature g ->
  f_mtime f = f_mtime g /\ length (f_content f) = length (f_content g).
Proof.
  unfold signature. intros H.
  apply app_sep_inj in H; [|apply of_nat_no_underscore|apply of_nat_no_underscore].
  destruct H as [H1 H2]. split; now apply of_nat_inj.
Qed.

Lemma signature_not_empty f : signature f <> "".
Proof.
  unfold signature. destruct (PyStr.of_nat (f_mtime f)); discriminate.
Qed.

(** X5.  Freshness of a cache record.  A record written while the file
    had modification time and size (m, n) is served again exactly when
    the file still exists with the same m and n, whatever its bytes
    are now; a file whose time or size changed, or that is gone, is a
    miss. *)
Theorem cached_record_is_fresh_iff_same_mtime_and_size (filepath : string) (s : state)
        (r : CacheRecord) (f0 : file) :
  cache s !! filepath = Some r ->
  rec_hash r = signature f0 ->
  (forall f, fs s !! filepath = Some f ->
     get_cached_text filepath s =
       (Ok (if Nat.eqb (f_mtime f) (f_mtime f0)
               && Nat.eqb (length (f_content f)) (length (f_content f0))
            then Some (rec_text r) else None), s)) /\
  (fs s !! filepath = None -> get_cached_text filepath s = (Ok None, s)).
Proof.
  intros Hr Hh. split.
  - intros f Hf. unfold get_cached_text, bind, get_file_hash, file_hash_in.
    rewrite Hr, Hf, Hh.
    destruct (Nat.eqb (f_mtime f) (f_mtime f0)) eqn:Hm;
      [destruct (Nat.eqb (length (f_content f)) (length (f_content f0))) eqn:Hn|]; simpl.
    + apply Nat.eqb_eq in Hm, Hn. unfold signature. rewrite Hm, Hn.
      now rewrite String.eqb_refl.
    + destruct (String.eqb _ _) eqn:He; [|reflexivity].
      apply String.eqb_eq, signature_inj in He. apply Nat.eqb_neq in Hn. lia.
    + destruct (String.eqb _ _) eqn:He; [|reflexivity].
      apply String.eqb_eq, signature_inj in He. apply Nat.eqb_neq in Hm. lia.
  - intros Hf. unfold get_cached_text, bind, get_file_hash, file_hash_in.
    rewrite Hr, Hf, Hh.
    destruct (String.eqb _ _) eqn:He; [|reflexivity].
    apply String.eqb_eq in He. now apply signature_not_empty in He.
Qed.

Lemma cached_record_is_fresh_iff_same_mtime_and_size_witness :
  get_cached_text "report.txt" Lab.warm = (Ok (Some "Hello"), Lab.warm) /\
  get_cached_text "report.txt" (set_fs {[ "report.txt" := Lab.e_acute ]} Lab.warm) =
    (Ok None, set_fs {[ "report.txt" := Lab.e_acute ]} Lab.warm) /\
  get_cached_text "report.txt" (set_fs ∅ Lab.warm) = (Ok None, set_fs ∅ Lab.warm).
Proof.
  split; [|split].
  - destruct (cached_record_is_fresh_iff_same_mtime_and_size
                "report.txt" Lab.warm Lab.report_record Lab.a_file) as [H _];
      [vm_compute; reflexivity|reflexivity|].
    exact (H Lab.a_file ltac:(vm_compute; reflexivity)).
  - destruct (cached_record_is_fresh_iff_same_mtime_and_size
                "report.txt" (set_fs {[ "report.txt" := Lab.e_acute ]} Lab.warm)
                Lab.report_record Lab.a_file) as [H _];
      [vm_compute; reflexivity|reflexivity|].
    exact (H Lab.e_acute ltac:(vm_compute; reflexivity)).
  - destruct (cached_record_is_fresh_iff_same_mtime_and_size
                "report.txt" (set_fs ∅ Lab.warm) Lab.report_record Lab.a_file) as [_ H];
      [vm_compute; reflexivity|reflexivity|].
    apply H. vm_compute; reflexivity.
Defined.

(** X6.  Writing and reading the cache.  A text written with
    [cache_text] is what [get_cached_text] answers for that path right
    after, whether the file exists or not; the answer for every other
    path is as before; and after [clear_cache] every path is a miss. *)
Theorem cache_write_then_read (filepath text : string) (s : state) :
  get_cached_text filepath (snd (cache_text filepath text s)) =
    (Ok (Some text), snd (cache_text filepath text s)) /\
  (forall k, k <> filepath ->
     fst (get_cached_text k (snd (cache_text filepath text s))) = fst (get_cached_text k s)) /\
  (forall k, fst (get_cached_text k (snd (clear_cache (snd (cache_text filepath text s))))) =
             Ok None).
Proof.
  split; [apply cache_text_then_hit|]. split.
  - intros k Hk. unfold cache_text, get_cached_text, bind, get_file_hash, now. simpl.
    rewrite lookup_insert_ne by congruence.
    destruct (cache s !! k) as [r|]; [destruct (String.eqb _ _)|]; reflexivity.
  - intros k. unfold clear_cache, get_cached_text, bind, get_file_hash. simpl.
    now rewrite lookup_empty.
Qed.

Lemma cache_write_then_read_witness :
  get_cached_text "gone.txt" (snd (cache_text "gone.txt" "kept" Lab.warm)) =
    (Ok (Some "kept"), snd (cache_text "gone.txt" "kept" Lab.warm)) /\
  fst (get_cached_text "report.txt" (snd (cache_text "gone.txt" "kept" Lab.warm))) =
    Ok (Some "Hello").
Proof.
  destruct (cache_write_then_read "gone.txt" "kept" Lab.warm) as (H1 & H2 & _).
  split; [exact H1|].
  rewrite (H2 "report.txt") by discriminate. vm_compute; reflexivity.
Defined.

(** X1.  [extract_text] returns.  Whatever the libraries do, for every
    path and in every state the call returns a pair: every exception
    of an extractor is caught, and the one nested call, on a member of
    an archive, never reaches the archive extractor again. *)
Theorem extract_text_always_returns (E : env) (fuel : nat) (filepath : string) (s : state) :
  exists text success s',
    extract_text E (S (S fuel)) filepath s = (Ok (text, success), s').
Proof.
  destruct (extract_text_total E fuel filepath s) as ([text success] & s' & H).
  now exists text, success, s'.
Qed.

Lemma error_log_grows_by_one_line_per_failure_witness :
  not_archive "blank.txt" /\
  exists msg,
    error_log (snd (extract_text Lab.bare 2 "blank.txt"
                      (Lab.fresh {[ "blank.txt" := Lab.blank_file ]}))) = [msg] /\
    (msg = no_text_message "blank.txt" \/ exists e, msg = failure_message "blank.txt" e).
Proof.
  assert (Hna : not_archive "blank.txt") by (vm_compute; reflexivity).
  split; [exact Hna|].
  destruct (error_log_grows_by_one_line_per_failure Lab.bare 2 "blank.txt"
              (Lab.fresh {[ "blank.txt" := Lab.blank_file ]})) as [_ H].
  specialize (H Hna). exact H.
Defined.

(* ------------------------------------------------------------------ *)
(** ** Further properties of the PDF fallback chain *)

Lemma getsize_state p s r s' : getsize p s = (r, s') -> s' = s.
Proof.
  unfold getsize, bind. destruct (read_file p s) as [[c|e|] s1] eqn:H;
    apply read_file_state in H; subst; now intros [= _ <-].
Qed.

Lemma within_stage_trace s s' :
  within_stage s s' -> exists t, trace s' = (trace s ++ t)%list /\ stages_attempted t = [].
Proof. now intros (_ & _ & _ & _ & _ & H). Qed.

(** X7.  Order of the fallback chain.  Whatever the libraries answer,
    the stages [_extract_from_pdf] attempts on one file are an initial
    segment of pdfplumber, PyMuPDF, PyPDF2, OCR: each stage is
    attempted at most once, in that order, and none is attempted after
    one that was passed over. *)
Theorem pdf_stages_are_attempted_in_order (E : env) (filepath : string) (s : state) :
  exists t n,
    trace (snd (_extract_from_pdf E filepath s)) = (trace s ++ t)%list /\
    stages_attempted t = firstn n [Primary; Secondary; Tertiary; OcrRecovery].
Proof.
  unfold _extract_from_pdf. unfold bind at 1, emit at 1.
  set (s0 := set_trace (trace s ++ [Enter XPdf filepath]) s).
  unfold try_except.
  destruct (getsize filepath s0) as [[sz|e|] s1] eqn:Hsz;
    pose proof (getsize_state _ _ _ _ Hsz) as ->.
  2:{ rewrite (bind_raise _ _ s0 e s0 Hsz). simpl.
      exists [Enter XPdf filepath], 0. now split. }
  2:{ rewrite (bind_out_of_fuel _ _ s0 s0 Hsz). simpl.
      exists [Enter XPdf filepath], 0. now split. }
  rewrite (bind_ok _ _ s0 sz s0 Hsz).
  destruct (Nat.eqb sz 0).
  { simpl. exists [Enter XPdf filepath], 0. now split. }
  set (s2 := set_trace (trace s0 ++ [Attempt Primary]) s0).
  destruct (primary_parse E filepath [] s2) as [r1 s3] eqn:H1.
  destruct (within_stage_trace _ _ (primary_parse_within_stage E filepath [] s2 r1 s3 H1))
    as (t1 & T1 & N1).
  assert (Hp : (emit (Attempt Primary) ;;> primary_parse E filepath []) s0 = (r1, s3)).
  { unfold bind at 1, emit at 1. exact H1. }
  assert (Done1 : exists t n, trace s3 = (trace s ++ t)%list /\
            stages_attempted t = firstn n [Primary; Secondary; Tertiary; OcrRecovery]).
  { exists ([Enter XPdf filepath; Attempt Primary] ++ t1)%list, 1. split.
    - rewrite T1. unfold s2, s0. simpl. now rewrite <- !app_assoc.
    - rewrite stages_attempted_app, N1. reflexivity. }
  destruct r1 as [texts1|e|].
  2:{ rewrite (bind_raise _ _ s0 e s3 Hp). exact Done1. }
  2:{ rewrite (bind_out_of_fuel _ _ s0 s3 Hp). exact Done1. }
  rewrite (bind_ok _ _ s0 texts1 s3 Hp).
  destruct texts1 as [|b1 texts1].
  2:{ do 3 rewrite when_empty_skip, bind_ret_l.
      destruct (negb _); exact Done1. }
  (* stage 2 *)
  set (s4 := set_trace (trace s3 ++ [Attempt Secondary]) s3).
  destruct (secondary_parse E filepath [] s4) as [r2 s5] eqn:H2.
  destruct (within_stage_trace _ _ (secondary_parse_within_stage E filepath [] s4 r2 s5 H2))
    as (t2 & T2 & N2).
  assert (Hs : when_empty Secondary (secondary_parse E filepath) [] s3 = (r2, s5)).
  { rewrite when_empty_run. exact H2. }
  assert (Done2 : exists t n, trace s5 = (trace s ++ t)%list /\
            stages_attempted t = firstn n [Primary; Secondary; Tertiary; OcrRecovery]).
  { exists ([Enter XPdf filepath; Attempt Primary] ++ t1 ++ [Attempt Secondary] ++ t2)%list, 2.
    split.
    - rewrite T2. unfold s4. simpl. rewrite T1. unfold s2, s0. simpl.
      now rewrite <- !app_assoc.
    - rewrite !stages_attempted_app, N1, N2. reflexivity. }
  destruct r2 as [texts2|e|].
  2:{ rewrite (bind_raise _ _ s3 e s5 Hs). exact Done2. }
  2:{ rewrite (bind_out_of_fuel _ _ s3 s5 Hs). exact Done2. }
  rewrite (bind_ok _ _ s3 texts2 s5 Hs).
  destruct texts2 as [|b2 texts2].
  2:{ do 2 rewrite when_empty_skip, bind_ret_l.
      destruct (negb _); exact Done2. }
  (* stage 3 *)
  set (s6 := set_trace (trace s5 ++ [Attempt Tertiary]) s5).
  destruct (tertiary_parse E filepath [] s6) as [r3 s7] eqn:H3.
  destruct (within_stage_trace _ _ (tertiary_parse_within_stage E filepath [] s6 r3 s7 H3))
    as (t3 & T3 & N3).
  assert (Ht : when_empty Tertiary (tertiary_parse E filepath) [] s5 = (r3, s7)).
  { rewrite when_empty_run. exact H3. }
  assert (Done3 : exists t n, trace s7 = (trace s ++ t)%list /\
            stages_attempted t = firstn n [Primary; Secondary; Tertiary; OcrRecovery]).
  { exists ([Enter XPdf filepath; Attempt Primary] ++ t1 ++ [Attempt Secondary] ++ t2
              ++ [Attempt Tertiary] ++ t3)%list, 3.
    split.
    - rewrite T3. unfold s6. simpl. rewrite T2. unfold s4. simpl. rewrite T1.
      unfold s2, s0. simpl. now rewrite <- !app_assoc.
    - rewrite !stages_attempted_app, N1, N2, N3. reflexivity. }
  destruct r3 as [texts3|e|].
  2:{ rewrite (bind_raise _ _ s5 e s7 Ht). exact Done3. }
  2:{ rewrite (bind_out_of_fuel _ _ s5 s7 Ht). exact Done3. }
  rewrite (bind_ok _ _ s5 texts3 s7 Ht).
  destruct texts3 as [|b3 texts3].
  2:{ rewrite when_empty_skip, bind_ret_l.
      destruct (negb _); exact Done3. }
  (* stage 4 *)
  set (s8 := set_trace (trace s7 ++ [Attempt OcrRecovery]) s7).
  destruct (ocr_recovery E filepath [] s8) as [r4 s9] eqn:H4.
  destruct (within_stage_trace _ _ (ocr_recovery_within_stage E filepath [] s8 r4 s9 H4))
    as (t4 & T4 & N4).
  assert (Ho : when_empty OcrRecovery (ocr_recovery E filepath) [] s7 = (r4, s9)).
  { rewrite when_empty_run. exact H4. }
  assert (Done4 : exists t n, trace s9 = (trace s ++ t)%list /\
            stages_attempted t = firstn n [Primary; Secondary; Tertiary; OcrRecovery]).
  { exists ([Enter XPdf filepath; Attempt Primary] ++ t1 ++ [Attempt Secondary] ++ t2
              ++ [Attempt Tertiary] ++ t3 ++ [Attempt OcrRecovery] ++ t4)%list, 4.
    split.
    - rewrite T4. unfold s8. simpl. rewrite T3. unfold s6. simpl. rewrite T2.
      unfold s4. simpl. rewrite T1. unfold s2, s0. simpl. now rewrite <- !app_assoc.
    - rewrite !stages_attempted_app, N1, N2, N3, N4. reflexivity. }
  destruct r4 as [texts4|e|].
  2:{ rewrite (bind_raise _ _ s7 e s9 Ho). exact Done4. }
  2:{ rewrite (bind_out_of_fuel _ _ s7 s9 Ho). exact Done4. }
  rewrite (bind_ok _ _ s7 texts4 s9 Ho).
  destruct (negb _); exact Done4.
Qed.

Lemma extract_from_pdf_answer E filepath s r s' :
  _extract_from_pdf E filepath s = (r, s') ->
  match r with
  | Ok text => PyStr.has_text text = true
  | Raise e =>
      exists m, e = mk_exn Exception_ ("Ошибка открытия PDF " ++ filepath ++ ": " ++ m)
  | OutOfFuel => False
  end.
Proof.
  intros H. pose proof (fuel_free_extract_from_pdf E filepath s) as Hfuel.
  rewrite H in Hfuel. simpl in Hfuel.
  revert H. unfold _extract_from_pdf. unfold bind at 1, emit at 1. unfold try_except.
  match goal with |- (let (_, _) := ?b in _) = _ -> _ =>
    destruct b as [[text|e|] s1] eqn:Hb end.
  - intros [= <- <-]. revert Hb.
    match goal with |- bind ?m ?k ?st = _ -> _ =>
      unfold bind at 1; destruct (m st) as [[sz|e|] sa] end;
      [|discriminate|discriminate].
    destruct (Nat.eqb sz 0); [discriminate|].
    repeat (match goal with
            | |- bind ?m ?k ?st = _ -> _ =>
                unfold bind at 1; destruct (m st) as [[?|?|] ?]; [|discriminate|discriminate]
            end).
    cbv zeta.
    destruct (PyStr.truthy (PyStr.strip _)) eqn:Hs; simpl; [|discriminate].
    intros [= <- _]. now apply has_text_of_strip.
  - intros [= <- <-]. now exists (str_of_exn e).
  - intros [= <- <-]. congruence.
Qed.

(** X9.  What [_extract_from_pdf] can answer.  It returns a text that
    holds a character that is not white space, or it raises an
    exception of class [Exception] whose message starts with the
    "cannot open" prefix and the path, whatever went wrong (an empty
    file, a password, a missing OCR tool chain, no text found). *)
Theorem pdf_answer_is_text_or_wrapped_error (E : env) (filepath : string) (s : state) :
  match fst (_extract_from_pdf E filepath s) with
  | Ok text => PyStr.has_text text = true
  | Raise e =>
      exists m, e = mk_exn Exception_ ("Ошибка открытия PDF " ++ filepath ++ ": " ++ m)
  | OutOfFuel => False
  end.
Proof.
  destruct (_extract_from_pdf E filepath s) as [r s'] eqn:H.
  exact (extract_from_pdf_answer E filepath s r s' H).
Qed.

Lemma read_file_missing filepath s :
  fs s !! filepath = None -> read_file filepath s = (Raise (no_such_file filepath), s).
Proof. intros H. unfold read_file. now rewrite H. Qed.

Lemma getsize_missing filepath s :
  fs s !! filepath = None -> getsize filepath s = (Raise (no_such_file filepath), s).
Proof. intros H. unfold getsize, bind. now rewrite (read_file_missing _ _ H). Qed.

Lemma getsize_eq filepath s f :
  fs s !! filepath = Some f -> getsize filepath s = (Ok (length (f_content f)), s).
Proof. intros H. unfold getsize, bind. now rewrite (read_file_eq _ _ _ H). Qed.

(** X8.  Empty and missing files.  The three extractors that look at
    the size of the file first ([_extract_from_pdf],
    [_extract_from_pdf_simple] and the ZIP branch of
    [_extract_from_archive]) refuse a file of 0 bytes, and a path
    with no file, before any library is called: the only event is the
    entry of the extractor, and the exception carries the reason
    inside the wrapper message of the extractor. *)
Theorem empty_or_missing_file_is_refused_unopened (E : env)
        (extract : string -> M (string * bool)) (filepath : string) (s : state) :
  let refused_with (reason : string) :=
    _extract_from_pdf E filepath s =
      (Raise (mk_exn Exception_ ("Ошибка открытия PDF " ++ filepath ++ ": " ++ reason)),
       set_trace (trace s ++ [Enter XPdf filepath]) s) /\
    _extract_from_pdf_simple E filepath s =
      (Raise (mk_exn Exception_ ("Ошибка обработки PDF: " ++ reason)),
       set_trace (trace s ++ [Enter XPdfSimple filepath]) s) in
  let zip_refused_with (reason : string) :=
    PyStr.lower (PyStr.suffix filepath) = ".zip" ->
    _extract_from_archive E extract filepath s =
      (Raise (mk_exn Exception_ ("Ошибка обработки архива " ++ filepath ++ ": " ++ reason)),
       set_trace (trace s ++ [Enter XArchive filepath]) s) in
  (forall f, fs s !! filepath = Some f -> f_content f = [] ->
     refused_with "Файл пустой (0 байт)" /\ zip_refused_with "ZIP файл пустой (0 байт)") /\
  (fs s !! filepath = None ->
     refused_with (str_of_exn (no_such_file filepath)) /\
     zip_refused_with (str_of_exn (no_such_file filepath))).
Proof.
  cbv zeta. split.
  - intros f Hf Hempty.
    assert (Hsz : forall ev, getsize filepath (set_trace (trace s ++ [ev]) s) =
                             (Ok 0, set_trace (trace s ++ [ev]) s)).
    { intros ev. rewrite (getsize_eq filepath _ f) by exact Hf. now rewrite Hempty. }
    repeat split.
    + unfold _extract_from_pdf. unfold bind at 1, emit at 1. unfold try_except.
      now rewrite (bind_ok _ _ _ _ _ (Hsz _)).
    + unfold _extract_from_pdf_simple. unfold bind at 1, emit at 1. unfold try_except.
      now rewrite (bind_ok _ _ _ _ _ (Hsz _)).
    + intros Hext. unfold _extract_from_archive. unfold bind at 1, emit at 1.
      unfold try_except. rewrite Hext. cbn [String.eqb Ascii.eqb Bool.eqb andb].
      unfold bind at 1. unfold zip_texts. now rewrite (bind_ok _ _ _ _ _ (Hsz _)).
  - intros Hf.
    assert (Hsz : forall ev, getsize filepath (set_trace (trace s ++ [ev]) s) =
                             (Raise (no_such_file filepath), set_trace (trace s ++ [ev]) s)).
    { intros ev. now apply getsize_missing. }
    repeat split.
    + unfold _extract_from_pdf. unfold bind at 1, emit at 1. unfold try_except.
      now rewrite (bind_raise _ _ _ _ _ (Hsz _)).
    + unfold _extract_from_pdf_simple. unfold bind at 1, emit at 1. unfold try_except.
      now rewrite (bind_raise _ _ _ _ _ (Hsz _)).
    + intros Hext. unfold _extract_from_archive. unfold bind at 1, emit at 1.
      unfold try_except. rewrite Hext. cbn [String.eqb Ascii.eqb Bool.eqb andb].
      unfold bind at 1. unfold zip_texts. now rewrite (bind_raise _ _ _ _ _ (Hsz _)).
Qed.

Lemma empty_or_missing_file_is_refused_unopened_witness :
  fst (_extract_from_pdf Lab.bare "empty.pdf" (Lab.fresh {[ "empty.pdf" := Cases.empty_file ]})) =
    Raise (mk_exn Exception_ "Ошибка открытия PDF empty.pdf: Файл пустой (0 байт)") /\
  fst (_extract_from_pdf Lab.bare "lost.pdf" (Lab.fresh ∅)) =
    Raise (mk_exn Exception_
             "Ошибка открытия PDF lost.pdf: [Errno 2] No such file or directory: 'lost.pdf'").
Proof.
  split.
  - destruct (empty_or_missing_file_is_refused_unopened Lab.bare (extract_text Lab.bare 1)
                "empty.pdf" (Lab.fresh {[ "empty.pdf" := Cases.empty_file ]})) as [H _].
    destruct (H Cases.empty_file ltac:(vm_compute; reflexivity) eq_refl) as [[Hp _] _].
    rewrite Hp. reflexivity.
  - destruct (empty_or_missing_file_is_refused_unopened Lab.bare (extract_text Lab.bare 1)
                "lost.pdf" (Lab.fresh ∅)) as [_ H].
    destruct (H ltac:(vm_compute; reflexivity)) as [[Hp _] _].
    rewrite Hp. reflexivity.
Defined.

(* ------------------------------------------------------------------ *)
(** ** Further properties of the archive extractor *)

(** X10.  RAR archives.  A path with the extension [.rar] that is not
    in the cache is reported as a success whose text is the notice
    that RAR is not supported, and the notice is cached for the path;
    the file is never opened, so this holds whether it exists or not. *)
Theorem rar_file_succeeds_with_notice (E : env) (fuel : nat) (filepath : string) (s : state) :
  PyStr.lower (PyStr.suffix filepath) = ".rar" ->
  get_cached_text filepath s = (Ok None, s) ->
  extract_text E (S fuel) filepath s =
    (Ok (rar_notice, true),
     snd (cache_text filepath rar_notice
            (set_trace (trace s ++ [Enter XArchive filepath]) s))).
Proof.
  intros Hext Hmiss. rewrite (extract_text_miss E fuel filepath s Hmiss).
  rewrite Hext. unfold dispatch. simpl.
  rewrite (extract_from_archive_rar E _ filepath s Hext).
  replace (PyStr.has_text rar_notice) with true by (vm_compute; reflexivity).
  reflexivity.
Qed.

Lemma rar_file_succeeds_with_notice_witness :
  PyStr.lower (PyStr.suffix "old.RAR") = ".rar" /\
  fst (extract_text Lab.bare 1 "old.RAR" (Lab.fresh ∅)) = Ok (rar_notice, true).
Proof.
  split; [vm_compute; reflexivity|].
  rewrite (rar_file_succeeds_with_notice Lab.bare 0 "old.RAR" (Lab.fresh ∅));
    [reflexivity|vm_compute; reflexivity|vm_compute; reflexivity].
Defined.

Lemma entry_loop_unsupported E extract entries : forall found all_texts s,
  supported_members entries = [] ->
  entry_loop E extract entries found all_texts s = (Ok (found, all_texts), s).
Proof.
  induction entries as [|en rest IH]; intros found all_texts s Hnone; cbn [entry_loop].
  - reflexivity.
  - unfold supported_members in Hnone. cbn [List.filter] in Hnone.
    destruct (is_supported (entry_name en)); [discriminate|]. now apply IH.
Qed.

(** X11.  ZIP archives that are refused as a whole.  For a [.zip] file
    that exists and is not empty, the extractor raises, wrapped in its
    own message, and without reading a single member: when
    [zipfile.ZipFile] cannot open it, when [testzip] raises, when the
    list of names is empty, and when no name is on the allowlist of
    the archive extractor. *)
Theorem unusable_zip_is_refused_before_any_member (E : env)
        (extract : string -> M (string * bool)) (filepath : string) (s : state) (f : file) :
  PyStr.lower (PyStr.suffix filepath) = ".zip" ->
  fs s !! filepath = Some f ->
  f_content f <> [] ->
  let refused_with (reason : string) :=
    _extract_from_archive E extract filepath s =
      (Raise (mk_exn Exception_ ("Ошибка обработки архива " ++ filepath ++ ": " ++ reason)),
       set_trace (trace s ++ [Enter XArchive filepath]) s) in
  (forall e, ZipFile E (f_content f) = inl e -> refused_with (str_of_exn e)) /\
  (forall z e, ZipFile E (f_content f) = inr z -> zip_testzip z = Some e ->
     refused_with ("ZIP файл поврежден: " ++ str_of_exn e)) /\
  (forall z, ZipFile E (f_content f) = inr z -> zip_testzip z = None ->
     zip_entries z = [] -> refused_with "ZIP архив пустой") /\
  (forall z, ZipFile E (f_content f) = inr z -> zip_testzip z = None ->
     zip_entries z <> [] -> supported_members (zip_entries z) = [] ->
     refused_with "В ZIP архиве нет поддерживаемых файлов").
Proof.
  intros Hext Hf Hne. cbv zeta.
  set (s0 := set_trace (trace s ++ [Enter XArchive filepath]) s).
  assert (Hsz : getsize filepath s0 = (Ok (length (f_content f)), s0))
    by now apply (getsize_eq filepath s0 f).
  assert (Hrd : read_file filepath s0 = (Ok (f_content f), s0))
    by now apply (read_file_eq filepath s0 f).
  assert (Hstart : forall r,
            zip_texts E extract filepath s0 = (Raise (mk_exn Exception_ r), s0) \/
            (exists e, zip_texts E extract filepath s0 = (Raise e, s0) /\ str_of_exn e = r) ->
            _extract_from_archive E extract filepath s =
              (Raise (mk_exn Exception_
                        ("Ошибка обработки архива " ++ filepath ++ ": " ++ r)), s0)).
  { intros r Hz. unfold _extract_from_archive. unfold bind at 1, emit at 1. fold s0.
    unfold try_except. rewrite Hext. cbn [String.eqb Ascii.eqb Bool.eqb andb].
    destruct Hz as [Hz|(e & Hz & <-)]; now rewrite (bind_raise _ _ _ _ _ Hz). }
  assert (Hopen : forall k,
            zip_texts E extract filepath s0 =
              bind (lift (ZipFile E (f_content f))) k s0 ->
            True) by auto.
  clear Hopen.
  assert (Hz : zip_texts E extract filepath s0 =
               match ZipFile E (f_content f) with
               | inl e => (Raise e, s0)
               | inr zip_file =>
                   match zip_testzip zip_file with
                   | Some test_error =>
                       (Raise (mk_exn Exception_
                                 ("ZIP файл поврежден: " ++ str_of_exn test_error)), s0)
                   | None =>
                       if PyStr.is_nil (zip_entries zip_file)
                       then (Raise (mk_exn Exception_ "ZIP архив пустой"), s0)
                       else
                         (r <~ entry_loop E extract (zip_entries zip_file) false [] ;;
                          if negb (fst r)
                          then raise Exception_ "В ZIP архиве нет поддерживаемых файлов"
                          else ret (snd r)) s0
                   end
               end).
  { unfold zip_texts. rewrite (bind_ok _ _ _ _ _ Hsz), (nonempty_size _ Hne).
    rewrite (bind_ok _ _ _ _ _ Hrd).
    destruct (ZipFile E (f_content f)) as [e|z]; [reflexivity|].
    unfold bind at 1. simpl lift. unfold ret at 1.
    destruct (zip_testzip z); [reflexivity|].
    destruct (PyStr.is_nil (zip_entries z)); reflexivity. }
  repeat split.
  - intros e He. apply Hstart. right. exists e. rewrite Hz, He. now split.
  - intros z e Hzf Ht. apply Hstart. left. now rewrite Hz, Hzf, Ht.
  - intros z Hzf Ht Hnil. apply Hstart. left. now rewrite Hz, Hzf, Ht, Hnil.
  - intros z Hzf Ht Hnn Hnone. apply Hstart. left. rewrite Hz, Hzf, Ht.
    destruct (zip_entries z) as [|en rest] eqn:Hen; [congruence|]. cbn [PyStr.is_nil].
    now rewrite (bind_ok _ _ _ _ _ (entry_loop_unsupported E extract _ false [] s0 Hnone)).
Qed.

Lemma unusable_zip_is_refused_before_any_member_witness :
  fst (_extract_from_archive Cases.corrupt (extract_text Cases.corrupt 1) "bundle.zip"
         (Lab.fresh {[ "bundle.zip" := Lab.a_file ]})) =
    Raise (mk_exn Exception_
             "Ошибка обработки архива bundle.zip: ZIP файл поврежден: Bad CRC-32 for file 'a.txt'") /\
  _extract_from_archive Cases.album (extract_text Cases.album 1) "bundle.zip"
    (Lab.fresh {[ "bundle.zip" := Lab.a_file ]}) =
    (Raise (mk_exn Exception_
              "Ошибка обработки архива bundle.zip: В ZIP архиве нет поддерживаемых файлов"),
     set_trace [Enter XArchive "bundle.zip"] (Lab.fresh {[ "bundle.zip" := Lab.a_file ]})).
Proof.
  split.
  - destruct (unusable_zip_is_refused_before_any_member Cases.corrupt
                (extract_text Cases.corrupt 1) "bundle.zip"
                (Lab.fresh {[ "bundle.zip" := Lab.a_file ]}) Lab.a_file)
      as (_ & H & _); [vm_compute; reflexivity|vm_compute; reflexivity|discriminate|].
    rewrite (H Cases.bad_crc (Lab.lib_error "Bad CRC-32 for file 'a.txt'") eq_refl eq_refl).
    reflexivity.
  - destruct (unusable_zip_is_refused_before_any_member Cases.album
                (extract_text Cases.album 1) "bundle.zip"
                (Lab.fresh {[ "bundle.zip" := Lab.a_file ]}) Lab.a_file)
      as (_ & _ & _ & H); [vm_compute; reflexivity|vm_compute; reflexivity|discriminate|].
    exact (H Cases.one_picture eq_refl eq_refl ltac:(discriminate) ltac:(vm_compute; reflexivity)).
Defined.

(* ------------------------------------------------------------------ *)
(** ** The text extractor *)

(** X12.  Text files are always read.  With a Latin-1 codec that
    accepts every byte string, as the real one does,
    [_extract_from_text] returns a text for every file that exists,
    and that text is the first successful decoding: the list of
    encodings splits into encodings that all refuse the content, the
    first encoding that accepts it, and the rest, which is not tried;
    the text returned is what that encoding gives, with the newlines
    translated.  The statement after the loop is never reached. *)
Theorem text_file_is_always_decoded (E : env) (filepath : string) (s : state) (f : file) :
  (forall content, decode E latin_1 content <> None) ->
  fs s !! filepath = Some f ->
  exists pre enc post raw,
    encodings = (pre ++ enc :: post)%list /\
    (forall e, In e pre -> decode E e (f_content f) = None) /\
    decode E enc (f_content f) = Some raw /\
    _extract_from_text E filepath s =
      (Ok (universal_newlines raw), set_trace (trace s ++ [Enter XText filepath]) s).
Proof.
  intros Hlatin Hf. unfold _extract_from_text. unfold bind at 1, emit at 1.
  set (s0 := set_trace _ s).
  assert (Hf0 : fs s0 !! filepath = Some f) by exact Hf.
  unfold encodings. cbn [text_loop].
  rewrite (bind_ok _ _ _ _ _ (read_text_eq E utf_8 filepath s0 f Hf0)).
  destruct (decode E utf_8 (f_content f)) as [t|] eqn:H8; cbn [option_map].
  { exists [], utf_8, [cp1251; latin_1], t.
    split; [reflexivity|]. split; [intros e []|]. split; [exact H8|reflexivity]. }
  rewrite (bind_ok _ _ _ _ _ (read_text_eq E cp1251 filepath s0 f Hf0)).
  destruct (decode E cp1251 (f_content f)) as [t|] eqn:H1251; cbn [option_map].
  { exists [utf_8], cp1251, [latin_1], t.
    split; [reflexivity|]. split; [|split; [exact H1251|reflexivity]].
    intros e [<-|[]]. exact H8. }
  rewrite (bind_ok _ _ _ _ _ (read_text_eq E latin_1 filepath s0 f Hf0)).
  destruct (decode E latin_1 (f_content f)) as [t|] eqn:Hl; cbn [option_map].
  { exists [utf_8; cp1251], latin_1, [], t.
    split; [reflexivity|]. split; [|split; [exact Hl|reflexivity]].
    intros e [<-|[<-|[]]]; assumption. }
  now contradiction (Hlatin (f_content f)).
Qed.

(** The byte 0xE9 is refused as UTF-8 and, by the codecs of this
    world, as cp1251: the text is its Latin-1 reading. *)
Lemma text_file_is_always_decoded_witness :
  _extract_from_text Lab.bare "note.txt" (Lab.fresh {[ "note.txt" := Lab.e_acute ]}) =
    (Ok (Lab.latin1 [Byte.xe9]),
     set_trace [Enter XText "note.txt"] (Lab.fresh {[ "note.txt" := Lab.e_acute ]})).
Proof.
  destruct (text_file_is_always_decoded Lab.bare "note.txt"
              (Lab.fresh {[ "note.txt" := Lab.e_acute ]}) Lab.e_acute)
    as (pre & enc & post & raw & Hsplit & Hpre & Hdec & Hrun).
  - intros content. discriminate.
  - vm_compute; reflexivity.
  - rewrite Hrun. unfold encodings in Hsplit.
    destruct pre as [|e1 [|e2 [|e3 pre]]]; cbn [app] in Hsplit.
    + injection Hsplit as <- _. vm_compute in Hdec. discriminate Hdec.
    + injection Hsplit as _ <- _. vm_compute in Hdec. discriminate Hdec.
    + injection Hsplit as _ _ <- _. injection Hdec as <-. reflexivity.
    + injection Hsplit as _ _ _ Hsplit. destruct pre; discriminate Hsplit.
Defined.

(* ------------------------------------------------------------------ *)
(** ** The archive extractor, for frames that hold of the nested call
       on temporary files only *)

Section ArchiveFrameAt.

Context (P : state -> state -> Prop) `{!PreOrder P}.
Context (E : env) (extract : string -> M (string * bool)).
Hypothesis Hemit : forall ev, preserves P (emit ev).
Hypothesis Htemp : forall sfx content, preserves P (NamedTemporaryFile sfx content).
Hypothesis Hunlink : forall p, preserves P (unlink p).
Hypothesis Hextract :
  forall n sfx, plain_document (temp_path n sfx) -> preserves P (extract (temp_path n sfx)).

Lemma temp_member_preserves_at file_name content all_texts :
  PyStr.endswith_any (PyStr.lower file_name) [".pdf"; ".docx"; ".doc"; ".rtf"] = true ->
  preserves P (temp_member E extract file_name content all_texts).
Proof.
  intros Hdoc s r s'. unfold temp_member. unfold bind at 1.
  destruct (NamedTemporaryFile (PyStr.suffix file_name) content s) as [r1 s1] eqn:Ht.
  pose proof (Htemp _ _ s r1 s1 Ht) as H1.
  unfold NamedTemporaryFile in Ht. injection Ht as <- <-.
  intros Hrun. transitivity
    (set_tmp_ctr (S (tmp_ctr s))
       (set_clock (S (clock s))
          (set_fs (<[temp_path (tmp_ctr s) (PyStr.suffix file_name) :=
                     {| f_content := content; f_mtime := clock s |}]> (fs s)) s)));
    [exact H1|].
  revert Hrun. apply preserves_try_finally; [exact _| |apply Hunlink].
  apply preserves_try_except; [exact _| |intros e; apply preserves_ret; exact _].
  destruct (PyStr.endswith (PyStr.lower file_name) ".pdf") eqn:Hpdf.
  - pose proof (extract_from_pdf_simple_preserves P E
                  (temp_path (tmp_ctr s) (PyStr.suffix file_name)) Hemit Htemp Hunlink).
    unfold pdf_member. frame.
  - pose proof (Hextract _ _ (member_is_plain_document (tmp_ctr s) file_name Hdoc Hpdf)).
    unfold document_member. frame.
Qed.

Lemma member_preserves_at en all_texts :
  is_supported (entry_name en) = true ->
  preserves P (member E extract en all_texts).
Proof.
  intros Hsup. unfold member.
  apply preserves_bind; [exact _|apply Hemit|intros _].
  destruct (entry_read en) as [e|content]; [apply preserves_ret; exact _|].
  destruct (Nat.eqb (length content) 0); [apply preserves_ret; exact _|].
  destruct (PyStr.endswith_any _ [".txt"; ".md"]) eqn:Htxt; [apply preserves_ret; exact _|].
  pose proof (supported_split _ Hsup Htxt) as Hdoc. rewrite Hdoc.
  now apply temp_member_preserves_at.
Qed.

Lemma entry_loop_preserves_at entries : forall found all_texts,
  preserves P (entry_loop E extract entries found all_texts).
Proof.
  induction entries as [|en rest IH]; intros found all_texts; cbn [entry_loop].
  - apply preserves_ret; exact _.
  - destruct (is_supported (entry_name en)) eqn:Hsup; [|apply IH].
    apply preserves_bind; [exact _|now apply member_preserves_at|intros t; apply IH].
Qed.

Lemma extract_from_archive_preserves_at filepath :
  preserves P (_extract_from_archive E extract filepath).
Proof.
  pose proof entry_loop_preserves_at.
  unfold _extract_from_archive, zip_texts. frame.
Qed.

End ArchiveFrameAt.

(* ------------------------------------------------------------------ *)
(** ** Where [extract_text] writes the cache *)

#[local] Instance cache_off_temps_preorder : PreOrder cache_off_temps.
Proof.
  split.
  - now intros s k _.
  - intros s1 s2 s3 H1 H2 k Hk. now rewrite (H2 k Hk), (H1 k Hk).
Qed.

Lemma same_cache_off_temps {A} (m : M A) :
  preserves same_cache m -> preserves cache_off_temps m.
Proof. intros H s r s' Hm k _. now rewrite (H s r s' Hm). Qed.

Lemma dispatch_off_archive_same_cache E archive filepath :
  not_archive filepath ->
  preserves same_cache (dispatch E archive (PyStr.lower (PyStr.suffix filepath)) filepath).
Proof.
  intros Hna. unfold not_archive in Hna. unfold dispatch. rewrite Hna.
  pose proof (extract_from_pdf_same_cache E filepath).
  pose proof (extract_from_image_same_cache E filepath).
  pose proof (extract_from_docx_same_cache E filepath).
  pose proof (extract_from_legacy_doc_same_cache E filepath).
  pose proof (extract_from_text_same_cache E filepath).
  frame.
Qed.

(** [extract_text], up to the point where it has the answer of the
    extractor: the state then differs from the final one by one cache
    record for the path, or by one line of the error log. *)
Lemma extract_text_cache_after E fuel filepath s k :
  k <> filepath ->
  cache (snd (extract_text E (S fuel) filepath s)) !! k =
  cache (snd (dispatch E (_extract_from_archive E (extract_text E fuel))
                       (PyStr.lower (PyStr.suffix filepath)) filepath s)) !! k \/
  cache (snd (extract_text E (S fuel) filepath s)) !! k = cache s !! k.
Proof.
  intros Hk.
  destruct (get_cached_text filepath s) as [[[cached|]|e|] s0] eqn:Hget;
    pose proof (get_cached_text_state _ _ _ _ Hget) as ->.
  - right. cbn [extract_text]. now rewrite (bind_ok _ _ s _ s Hget).
  - left. rewrite (extract_text_miss E fuel filepath s Hget).
    destruct (dispatch E _ _ filepath s) as [[text|e|] s1]; [|reflexivity|reflexivity].
    destruct (PyStr.has_text text); [|reflexivity].
    unfold cache_text, bind, get_file_hash, now. simpl.
    now rewrite lookup_insert_ne by congruence.
  - right. cbn [extract_text]. now rewrite (bind_raise _ _ s _ s Hget).
  - right. cbn [extract_text]. now rewrite (bind_out_of_fuel _ _ s s Hget).
Qed.

Lemma dispatch_cache_off_temps E fuel filepath :
  (forall n sfx, preserves cache_off_temps (extract_text E fuel (temp_path n sfx))) ->
  preserves cache_off_temps
    (dispatch E (_extract_from_archive E (extract_text E fuel))
              (PyStr.lower (PyStr.suffix filepath)) filepath).
Proof.
  intros IH.
  apply dispatch_preserves; try exact _;
    try solve [apply same_cache_off_temps;
         auto using extract_from_pdf_same_cache, extract_from_image_same_cache,
           extract_from_docx_same_cache, extract_from_legacy_doc_same_cache,
           extract_from_text_same_cache].
  apply extract_from_archive_preserves_at; try exact _;
    try solve [intros; apply same_cache_off_temps; auto with frames].
  intros n sfx _. apply IH.
Qed.

Lemma extract_text_on_temp_cache_off_temps E fuel : forall n sfx,
  preserves cache_off_temps (extract_text E fuel (temp_path n sfx)).
Proof.
  induction fuel as [|fuel IH]; intros n sfx s r s' Hrun; [now injection Hrun as _ <-|].
  intros k Hk.
  assert (Hs' : s' = snd (extract_text E (S fuel) (temp_path n sfx) s)) by now rewrite Hrun.
  subst s'.
  destruct (extract_text_cache_after E fuel (temp_path n sfx) s k (Hk n sfx)) as [->| ->];
    [|reflexivity].
  destruct (dispatch E _ _ (temp_path n sfx) s) as [r1 s1] eqn:Hd.
  exact (dispatch_cache_off_temps E fuel _ IH s r1 s1 Hd k Hk).
Qed.

(** X14.  Where [extract_text] writes the cache.  A call changes no
    record but the one of its own path and those of temporary files
    (the members of an archive it hands to itself); for a path that is
    not an archive, no record but the one of the path. *)
Theorem cache_is_written_only_at_the_path_and_temp_names (E : env) (fuel : nat)
        (filepath : string) (s : state) (k : string) :
  k <> filepath ->
  ((forall n sfx, k <> temp_path n sfx) ->
   cache (snd (extract_text E fuel filepath s)) !! k = cache s !! k) /\
  (not_archive filepath ->
   cache (snd (extract_text E fuel filepath s)) !! k = cache s !! k).
Proof.
  intros Hk. destruct fuel as [|fuel]; [now split|].
  destruct (extract_text_cache_after E fuel filepath s k Hk) as [->| ->]; [|now split].
  destruct (dispatch E _ _ filepath s) as [r1 s1] eqn:Hd. cbn [snd]. split.
  - intros Htemp.
    exact (dispatch_cache_off_temps E fuel filepath
             (extract_text_on_temp_cache_off_temps E fuel) s r1 s1 Hd k Htemp).
  - intros Hna. now rewrite (dispatch_off_archive_same_cache E _ filepath Hna s r1 s1 Hd).
Qed.

Lemma cache_is_written_only_at_the_path_and_temp_names_witness :
  cache (snd (extract_text Lab.office 2 "bundle.zip" Lab.warm)) !! "report.txt" =
    Some Lab.report_record /\
  cache (snd (extract_text Lab.bare 2 "blank.txt" Lab.warm)) !! "report.txt" =
    Some Lab.report_record.
Proof.
  split.
  - destruct (cache_is_written_only_at_the_path_and_temp_names Lab.office 2 "bundle.zip"
                Lab.warm "report.txt" ltac:(discriminate)) as [H _].
    rewrite H; [vm_compute; reflexivity|].
    intros n sfx. unfold temp_path. simpl. discriminate.
  - destruct (cache_is_written_only_at_the_path_and_temp_names Lab.bare 2 "blank.txt"
                Lab.warm "report.txt" ltac:(discriminate)) as [_ H].
    rewrite H; [vm_compute; reflexivity|]. vm_compute; reflexivity.
Defined.

(* ------------------------------------------------------------------ *)
(** ** Temporary files *)

Lemma suffix_like_suffix file_name : suffix_like (PyStr.suffix file_name).
Proof.
  unfold PyStr.suffix.
  destruct (suffix_l_shape (list_ascii_of_string file_name)) as [->|(a & pre & -> & _)].
  - now left.
  - right. now exists (string_of_list_ascii a).
Qed.

Lemma digit_run_inj (a : list ascii) : forall a' r r',
  Forall is_digit a -> Forall is_digit a' ->
  (forall x t, r = x :: t -> ~ is_digit x) ->
  (forall x t, r' = x :: t -> ~ is_digit x) ->
  (a ++ r = a' ++ r')%list -> a = a' /\ r = r'.
Proof.
  induction a as [|x a IH]; intros [|y a'] r r' Ha Ha' Hr Hr'; simpl.
  - now intros ->.
  - intros ->. exfalso. apply (Hr y (a' ++ r')%list eq_refl).
    now apply List.Forall_inv in Ha'.
  - intros <-. exfalso. apply (Hr' x (a ++ r)%list eq_refl).
    now apply List.Forall_inv in Ha.
  - intros [= -> H].
    destruct (IH a' r r') as [-> ->]; auto.
    + now apply List.Forall_inv_tail in Ha.
    + now apply List.Forall_inv_tail in Ha'.
Qed.

Lemma suffix_like_head sfx :
  suffix_like sfx -> forall x t, list_ascii_of_string sfx = x :: t -> ~ is_digit x.
Proof.
  intros [->|[r ->]] x t; simpl; [discriminate|].
  intros [= <- _] Hd. now apply digit_not_dot in Hd.
Qed.

Lemma list_ascii_of_string_inj s t :
  list_ascii_of_string s = list_ascii_of_string t -> s = t.
Proof.
  intros H. apply (f_equal string_of_list_ascii) in H.
  now rewrite !string_of_list_ascii_of_string in H.
Qed.

Lemma append_cancel_l (p a b : string) : p ++ a = p ++ b -> a = b.
Proof. induction p as [|c p IH]; simpl; [auto|]. intros [= H]. auto. Qed.

(** Two temporary names are equal only when they have the same number
    and the same suffix. *)
Lemma temp_path_inj n m sfx sfx' :
  suffix_like sfx -> suffix_like sfx' ->
  temp_path n sfx = temp_path m sfx' -> n = m /\ sfx = sfx'.
Proof.
  intros Hs Hs' H. unfold temp_path in H. apply append_cancel_l in H.
  apply (f_equal list_ascii_of_string) in H.
  rewrite (list_ascii_app (PyStr.of_nat n) sfx), (list_ascii_app (PyStr.of_nat m) sfx') in H.
  apply digit_run_inj in H; try apply of_nat_digits; try now apply suffix_like_head.
  destruct H as [H1 H2]. split.
  - now apply of_nat_inj, list_ascii_of_string_inj.
  - now apply list_ascii_of_string_inj.
Qed.

#[local] Instance tidy_preorder : PreOrder tidy.
Proof.
  split.
  - intros s _. split; [reflexivity|lia].
  - intros s1 s2 s3 H12 H23 Hf. destruct (H12 Hf) as [F1 C1].
    assert (Hf2 : fresh_temps s2).
    { intros n sfx Hn Hs. rewrite F1. apply Hf; [lia|assumption]. }
    destruct (H23 Hf2) as [F2 C2]. split; [congruence|lia].
Qed.

Lemma tidy_emit ev : preserves tidy (emit ev).
Proof. intros s r s' [= _ <-] _. simpl. split; [reflexivity|lia]. Qed.
Lemma tidy_read_cancelled E : preserves tidy (read_cancelled E).
Proof. intros s r s' [= _ <-] _. simpl. split; [reflexivity|lia]. Qed.
Lemma tidy_log_error m : preserves tidy (log_error m).
Proof. intros s r s' [= _ <-] _. simpl. split; [reflexivity|lia]. Qed.
Lemma tidy_cache_text p t : preserves tidy (cache_text p t).
Proof. intros s r s' [= _ <-] _. simpl. split; [reflexivity|lia]. Qed.

#[export] Hint Resolve tidy_emit tidy_read_cancelled tidy_log_error tidy_cache_text : frames.

Lemma reads_only_tidy {A} (m : M A) : preserves reads_only m -> preserves tidy m.
Proof.
  intros H s r s' Hm _. destruct (H s r s' Hm) as (_ & _ & F & _ & C & _).
  split; [exact F|]. rewrite C. lia.
Qed.

Lemma bind_assoc {A B C} (m : M A) (n : A -> M B) (k : B -> M C) s :
  bind m (fun a => bind (n a) k) s = bind (bind m n) k s.
Proof. unfold bind. destruct (m s) as [[a|e|] s1]; reflexivity. Qed.

(** A temporary file that is removed in [finally]: on an operating
    system that leaves no file, the files are as before once the block
    is left, however it is left, and also when the file could not be
    created. *)
Lemma temp_scope_tidy F {A} sfx content (body : string -> M A) :
  leaves_no_file F ->
  suffix_like sfx ->
  (forall n, preserves tidy (body (temp_path n sfx))) ->
  preserves tidy (p <~ Fallible.NamedTemporaryFile F sfx content ;;
                  try_finally (body p) (Fallible.unlink F p)).
Proof.
  intros [Hwrite Hunlink] Hsfx Hbody s r s'. unfold bind at 1.
  unfold Fallible.NamedTemporaryFile at 1. cbv beta zeta.
  destruct (temp_fault F (tmp_ctr s)) as [[e [written|]]|] eqn:Hfault.
  - now contradiction (Hwrite (tmp_ctr s) e written).
  - intros [= _ <-] _. simpl. split; [reflexivity|lia].
  - set (p := temp_path (tmp_ctr s) sfx).
    set (s1 := set_tmp_ctr _ _).
    unfold try_finally. destruct (body p s1) as [r2 s2] eqn:Hb.
    unfold Fallible.unlink. rewrite Hunlink. cbn [snd].
    intros [= _ <-] Hfresh.
    assert (Hfresh1 : fresh_temps s1).
    { intros n sfx' Hn Hs'. unfold s1. simpl. simpl in Hn.
      rewrite lookup_insert_ne.
      - apply Hfresh; [lia|assumption].
      - unfold p. intros Heq. apply temp_path_inj in Heq; auto. lia. }
    destruct (Hbody _ s1 r2 s2 Hb Hfresh1) as [Hfs Hctr]. simpl. rewrite Hfs. unfold s1. simpl.
    split.
    + apply delete_insert_id. apply Hfresh; [lia|assumption].
    + unfold s1 in Hctr. simpl in Hctr. lia.
Qed.

Section FallibleTidy.

Context (F : faults) (E : env).
Hypothesis HF : leaves_no_file F.

Lemma simple_ocr_loop_tidy images : forall i texts,
  preserves tidy (Fallible.simple_ocr_loop F E i images texts).
Proof.
  induction images as [|image rest IH]; intros i texts; cbn [Fallible.simple_ocr_loop].
  - apply preserves_ret; exact _.
  - intros s r s'. rewrite bind_assoc. revert s r s'.
    apply preserves_bind; [exact _| |intros t; apply IH].
    apply (temp_scope_tidy F ".png" (img_png image)
             (fun _ => emit (OcrCli i) ;;>
                match img_tesseract image with
                | SubprocessFails e => reraise e
                | Completed returncode stdout =>
                    if Nat.eqb returncode 0 then
                      let text := cli_text E stdout in
                      if PyStr.truthy text then ret (texts ++ [ocr_block i text])%list
                      else ret texts
                    else ret texts
                end)).
    + exact HF.
    + right. now exists "png".
    + intros _. frame.
Qed.

Lemma extract_from_pdf_simple_tidy filepath :
  preserves tidy (Fallible._extract_from_pdf_simple F E filepath).
Proof.
  pose proof (simple_page_loop_preserves tidy) as Hpages.
  pose proof simple_ocr_loop_tidy as Hocr.
  unfold Fallible._extract_from_pdf_simple, Fallible.simple_ocr, import_pdf2image. frame.
Qed.

Section ArchiveTidy.

Context (extract : string -> M (string * bool)).
Hypothesis Hextract : forall p, preserves tidy (extract p).

Lemma temp_member_tidy file_name content all_texts :
  preserves tidy (Fallible.temp_member F E extract file_name content all_texts).
Proof.
  unfold Fallible.temp_member.
  apply (temp_scope_tidy F (PyStr.suffix file_name) content
           (fun temp_file_path =>
              try_except
                (if PyStr.endswith (PyStr.lower file_name) ".pdf"
                 then Fallible.pdf_member F E file_name temp_file_path all_texts
                 else document_member extract file_name temp_file_path all_texts)
                (fun e =>
                   ret (all_texts ++ [processing_error_block file_name (str_of_exn e)])%list))).
  - exact HF.
  - apply suffix_like_suffix.
  - intros n. pose proof extract_from_pdf_simple_tidy.
    unfold Fallible.pdf_member, document_member. frame.
Qed.

Lemma member_tidy en all_texts :
  preserves tidy (Fallible.member F E extract en all_texts).
Proof. pose proof temp_member_tidy. unfold Fallible.member. frame. Qed.

Lemma entry_loop_tidy entries : forall found all_texts,
  preserves tidy (Fallible.entry_loop F E extract entries found all_texts).
Proof.
  pose proof member_tidy.
  induction entries as [|en rest IH]; intros found all_texts;
    cbn [Fallible.entry_loop]; frame.
Qed.

Lemma extract_from_archive_tidy filepath :
  preserves tidy (Fallible._extract_from_archive F E extract filepath).
Proof.
  pose proof entry_loop_tidy.
  unfold Fallible._extract_from_archive, Fallible.zip_texts. frame.
Qed.

End ArchiveTidy.

Lemma extract_text_tidy fuel : forall filepath,
  preserves tidy (Fallible.extract_text F E fuel filepath).
Proof.
  induction fuel as [|fuel IH]; intros filepath; [apply preserves_out_of_fuel; exact _|].
  cbn [Fallible.extract_text].
  assert (Hd : preserves tidy
                 (dispatch E (Fallible._extract_from_archive F E (Fallible.extract_text F E fuel))
                           (PyStr.lower (PyStr.suffix filepath)) filepath)).
  { destruct (simple_extractors_preserve tidy E filepath tidy_emit)
      as (Himg & Hdocx & Hdoc & Htxt).
    apply dispatch_preserves; try exact _; try assumption.
    - apply reads_only_tidy, extract_from_pdf_reads_only.
    - now apply extract_from_archive_tidy. }
  frame.
Qed.

End FallibleTidy.

(** *** The two models *)

Lemma bind_ext {A B} (m m' : M A) (k k' : A -> M B) s :
  m s = m' s -> (forall a s1, k a s1 = k' a s1) -> bind m k s = bind m' k' s.
Proof. intros Hm Hk. unfold bind. rewrite Hm. destruct (m' s) as [[a|e|] s1]; auto. Qed.

Lemma try_except_ext {A} (m m' : M A) (h : exn -> M A) s :
  m s = m' s -> try_except m h s = try_except m' h s.
Proof. intros Hm. unfold try_except. now rewrite Hm. Qed.

Lemma try_finally_ext {A} (m m' : M A) (c c' : M unit) s :
  m s = m' s -> (forall s1, c s1 = c' s1) -> try_finally m c s = try_finally m' c' s.
Proof.
  intros Hm Hc. unfold try_finally. rewrite Hm. destruct (m' s) as [r s1]. now rewrite Hc.
Qed.

(** Over an operating system that never fails, the second model is
    the first. *)
Section Reliable.

Context (E : env).

Lemma reliable_simple_ocr_loop images : forall i texts s,
  Fallible.simple_ocr_loop reliable E i images texts s = simple_ocr_loop E i images texts s.
Proof.
  induction images as [|image rest IH]; intros i texts s; [reflexivity|].
  cbn [Fallible.simple_ocr_loop simple_ocr_loop].
  apply bind_ext; [reflexivity|]. intros p s1.
  apply bind_ext; [reflexivity|]. intros t s2. apply IH.
Qed.

Lemma reliable_extract_from_pdf_simple filepath s :
  Fallible._extract_from_pdf_simple reliable E filepath s = _extract_from_pdf_simple E filepath s.
Proof.
  unfold Fallible._extract_from_pdf_simple, _extract_from_pdf_simple.
  apply bind_ext; [reflexivity|]. intros _ s1.
  apply try_except_ext.
  apply bind_ext; [reflexivity|]. intros n s2.
  destruct (Nat.eqb n 0); [reflexivity|].
  apply bind_ext; [reflexivity|]. intros opened s3.
  apply bind_ext; [reflexivity|]. intros texts s4.
  apply bind_ext; [|reflexivity].
  destruct (PyStr.is_nil texts); [|reflexivity].
  unfold Fallible.simple_ocr, simple_ocr.
  destruct (negb (TESSERACT_AVAILABLE E)); [reflexivity|].
  apply try_except_ext.
  apply bind_ext; [reflexivity|]. intros _ s5.
  destruct (poppler_dir E); [|reflexivity].
  apply bind_ext; [reflexivity|]. intros _ s6.
  apply bind_ext; [reflexivity|]. intros content s7.
  apply bind_ext; [reflexivity|]. intros images s8.
  apply reliable_simple_ocr_loop.
Qed.

(** The block of a member is left with a value: its handler takes
    every exception. *)
Lemma temp_member_no_raise extract file_name content all_texts s e s' :
  temp_member E extract file_name content all_texts s <> (Raise e, s').
Proof.
  unfold temp_member. unfold bind at 1. unfold NamedTemporaryFile at 1.
  cbv beta iota zeta. unfold try_finally.
  match goal with
  | |- context [try_except ?m ?h ?s0] =>
      unfold try_except; destruct (m s0) as [[t|e'|] s2]
  end; cbn; discriminate.
Qed.

Section ReliableArchive.

Context (extract extract' : string -> M (string * bool)).
Hypothesis Hextract : forall p s, extract' p s = extract p s.

Lemma reliable_member en all_texts s :
  Fallible.member reliable E extract' en all_texts s = member E extract en all_texts s.
Proof.
  unfold Fallible.member, member.
  apply bind_ext; [reflexivity|]. intros _ s1.
  destruct (entry_read en) as [e|content]; [reflexivity|].
  destruct (Nat.eqb (length content) 0); [reflexivity|].
  destruct (PyStr.endswith_any _ [".txt"; ".md"]); [reflexivity|].
  destruct (PyStr.endswith_any _ [".pdf"; ".docx"; ".doc"; ".rtf"]); [|reflexivity].
  assert (Hsame : forall s2,
            Fallible.temp_member reliable E extract' (entry_name en) content all_texts s2 =
            temp_member E extract (entry_name en) content all_texts s2).
  { intros s2. unfold Fallible.temp_member, temp_member.
    apply bind_ext; [reflexivity|]. intros p s3.
    apply try_finally_ext; [|reflexivity].
    apply try_except_ext.
    destruct (PyStr.endswith (PyStr.lower (entry_name en)) ".pdf").
    - unfold Fallible.pdf_member, pdf_member. apply try_except_ext.
      apply bind_ext; [apply reliable_extract_from_pdf_simple|reflexivity].
    - unfold document_member. apply bind_ext; [apply Hextract|reflexivity]. }
  unfold try_except. rewrite Hsame.
  destruct (temp_member E extract (entry_name en) content all_texts s1) as [[t|e|] s2] eqn:Hrun;
    try reflexivity.
  now apply temp_member_no_raise in Hrun.
Qed.

Lemma reliable_entry_loop entries : forall found all_texts s,
  Fallible.entry_loop reliable E extract' entries found all_texts s =
  entry_loop E extract entries found all_texts s.
Proof.
  induction entries as [|en rest IH]; intros found all_texts s; [reflexivity|].
  cbn [Fallible.entry_loop entry_loop].
  destruct (is_supported (entry_name en)); [|apply IH].
  apply bind_ext; [apply reliable_member|]. intros t s1. apply IH.
Qed.

Lemma reliable_extract_from_archive filepath s :
  Fallible._extract_from_archive reliable E extract' filepath s =
  _extract_from_archive E extract filepath s.
Proof.
  unfold Fallible._extract_from_archive, _extract_from_archive.
  apply bind_ext; [reflexivity|]. intros _ s1. cbv zeta.
  apply try_except_ext.
  apply bind_ext; [|reflexivity].
  destruct (String.eqb _ ".zip"); [|reflexivity].
  unfold Fallible.zip_texts, zip_texts.
  apply bind_ext; [reflexivity|]. intros n s2.
  destruct (Nat.eqb n 0); [reflexivity|].
  apply bind_ext; [reflexivity|]. intros content s3.
  apply bind_ext; [reflexivity|]. intros z s4.
  destruct (zip_testzip z); [reflexivity|].
  destruct (PyStr.is_nil (zip_entries z)); [reflexivity|].
  apply bind_ext; [apply reliable_entry_loop|reflexivity].
Qed.

End ReliableArchive.

Lemma reliable_extract_text fuel : forall filepath s,
  Fallible.extract_text reliable E fuel filepath s = extract_text E fuel filepath s.
Proof.
  induction fuel as [|fuel IH]; intros filepath s; [reflexivity|].
  cbn [Fallible.extract_text extract_text].
  apply bind_ext; [reflexivity|]. intros cached s1.
  destruct cached as [text|]; [reflexivity|]. cbv zeta.
  apply try_except_ext.
  apply bind_ext; [|reflexivity].
  unfold dispatch.
  repeat match goal with
         | |- (if ?b then _ else _) _ = (if ?b then _ else _) _ => destruct b; [reflexivity|]
         end.
  destruct (PyStr.mem _ SUPPORTED_archives); [|reflexivity].
  now apply reliable_extract_from_archive.
Qed.

End Reliable.



(** Both conditions are needed.  A disk that is full when the member
    is written to its temporary file: the member is reported as
    unreadable, and the file stays with what was written. *)
Example failed_write_leaves_the_file :
  fs (snd (Fallible.extract_text Cases.disk_full Lab.office 2 "bundle.zip"
             (Lab.fresh {[ "bundle.zip" := Lab.a_file ]}))) !! temp_path 0 ".docx" =
    Some {| f_content := [Byte.x50]; f_mtime := 0 |}.
Proof. vm_compute. reflexivity. Qed.

(** A temporary file that cannot be removed: the member is read, and
    the file stays. *)
Example failed_unlink_leaves_the_file :
  fs (snd (Fallible.extract_text Cases.locked_temps Lab.office 2 "bundle.zip"
             (Lab.fresh {[ "bundle.zip" := Lab.a_file ]}))) !! temp_path 0 ".docx" =
    Some {| f_content := Lab.some_bytes; f_mtime := 0 |}.
Proof. vm_compute. reflexivity. Qed.

(* ------------------------------------------------------------------ *)
(** ** The diagnosis of a file *)

(** X15.  The specific check replaces the general findings.  For a
    file that exists, [diagnose_file_problems] records that it exists,
    its size and its lowered extension; for a PDF, a ZIP, a [.doc] or
    [.rtf] file and an image its two lists are exactly those of the
    check for that format, because [update] replaces the lists that
    held the finding about the size.  So an empty [.doc] or [.rtf]
    file is diagnosed with no problem at all when textract is
    installed, while an empty file of any other extension is diagnosed
    as empty. *)
Theorem specific_diagnosis_replaces_the_size_finding (E : env) (Pr : probe)
        (files : gmap string file) (filepath : string) (f : file) :
  files !! filepath = Some f ->
  let d := diagnose_file_problems E Pr files filepath in
  let ext := PyStr.lower (PyStr.suffix filepath) in
  (d_exists d = true /\ d_size d = length (f_content f) /\ d_extension d = ext) /\
  (ext = ".pdf" -> d_findings d = _diagnose_pdf E Pr files filepath) /\
  (ext = ".zip" -> d_findings d = _diagnose_zip E files filepath) /\
  (PyStr.mem ext [".doc"; ".rtf"] = true -> d_findings d = _diagnose_legacy_doc E filepath) /\
  (PyStr.mem ext SUPPORTED_images = true -> d_findings d = _diagnose_image E Pr files filepath) /\
  (PyStr.mem ext [".doc"; ".rtf"] = true -> TEXTTRACT_AVAILABLE E = true ->
   f_content f = [] -> d_findings d = no_findings) /\
  (PyStr.mem ext (".pdf" :: ".zip" :: ".doc" :: ".rtf" :: SUPPORTED_images) = false ->
   f_content f = [] -> problems (d_findings d) = ["Файл пустой (0 байт)"]).
Proof.
  intros Hf. cbv zeta. unfold diagnose_file_problems. rewrite Hf.
  set (ext := PyStr.lower (PyStr.suffix filepath)).
  assert (Hdoc : PyStr.mem ext [".doc"; ".rtf"] = true ->
                 String.eqb ext ".pdf" = false /\ String.eqb ext ".zip" = false).
  { unfold PyStr.mem. cbn [existsb]. rewrite orb_false_r.
    intros [H|H]%orb_true_iff; apply String.eqb_eq in H; rewrite H; now split. }
  assert (Himg : PyStr.mem ext SUPPORTED_images = true ->
                 String.eqb ext ".pdf" = false /\ String.eqb ext ".zip" = false /\
                 PyStr.mem ext [".doc"; ".rtf"] = false).
  { unfold PyStr.mem, SUPPORTED_images. cbn [existsb]. rewrite !orb_false_r.
    intros H. repeat (apply orb_true_iff in H; destruct H as [H|H]);
      apply String.eqb_eq in H; rewrite H; now repeat split. }
  repeat split.
  - destruct (String.eqb ext ".pdf"), (String.eqb ext ".zip"), (PyStr.mem ext [".doc"; ".rtf"]),
      (PyStr.mem ext SUPPORTED_images); reflexivity.
  - destruct (String.eqb ext ".pdf"), (String.eqb ext ".zip"), (PyStr.mem ext [".doc"; ".rtf"]),
      (PyStr.mem ext SUPPORTED_images); reflexivity.
  - destruct (String.eqb ext ".pdf"), (String.eqb ext ".zip"), (PyStr.mem ext [".doc"; ".rtf"]),
      (PyStr.mem ext SUPPORTED_images); reflexivity.
  - intros ->. reflexivity.
  - intros ->. reflexivity.
  - intros H. destruct (Hdoc H) as [-> ->]. now rewrite H.
  - intros H. destruct (Himg H) as (-> & -> & ->). now rewrite H.
  - intros H Ht _. destruct (Hdoc H) as [-> ->]. rewrite H. cbn [update d_findings].
    unfold _diagnose_legacy_doc. now rewrite Ht.
  - intros H Hempty. unfold PyStr.mem in H. cbn [existsb] in H.
    apply orb_false_elim in H as [-> H]. apply orb_false_elim in H as [-> H].
    replace (PyStr.mem ext [".doc"; ".rtf"]) with false.
    2:{ unfold PyStr.mem. cbn [existsb]. rewrite orb_false_r.
        apply orb_false_elim in H as [-> H]. now apply orb_false_elim in H as [-> H]. }
    replace (PyStr.mem ext SUPPORTED_images) with false.
    2:{ apply orb_false_elim in H as [_ H]. now apply orb_false_elim in H as [_ H]. }
    rewrite Hempty. reflexivity.
Qed.

Lemma specific_diagnosis_replaces_the_size_finding_witness :
  d_size (diagnose_file_problems Cases.with_textract Cases.pictures
            {[ "letter.doc" := Cases.empty_file ]} "letter.doc") = 0 /\
  d_findings (diagnose_file_problems Cases.with_textract Cases.pictures
                {[ "letter.doc" := Cases.empty_file ]} "letter.doc") = no_findings /\
  problems (d_findings (diagnose_file_problems Cases.with_textract Cases.pictures
                          {[ "letter.docx" := Cases.empty_file ]} "letter.docx")) =
    ["Файл пустой (0 байт)"].
Proof.
  split; [vm_compute; reflexivity|]. split.
  - destruct (specific_diagnosis_replaces_the_size_finding Cases.with_textract Cases.pictures
                {[ "letter.doc" := Cases.empty_file ]} "letter.doc" Cases.empty_file)
      as (_ & _ & _ & _ & _ & H & _); [vm_compute; reflexivity|].
    apply H; vm_compute; reflexivity.
  - destruct (specific_diagnosis_replaces_the_size_finding Cases.with_textract Cases.pictures
                {[ "letter.docx" := Cases.empty_file ]} "letter.docx" Cases.empty_file)
      as (_ & _ & _ & _ & _ & _ & H); [vm_compute; reflexivity|].
    apply H; vm_compute; reflexivity.
Defined.

Lemma supported_files_members entries :
  supported_files (map entry_name entries) = map entry_name (supported_members entries).
Proof.
  unfold supported_files, supported_members.
  induction entries as [|en rest IH]; [reflexivity|]. cbn [map List.filter].
  unfold is_supported at 1.
  destruct (PyStr.endswith_any (PyStr.lower (entry_name en)) supported_extensions);
    cbn [map]; now rewrite IH.
Qed.

Lemma zip_texts_opened E extract filepath s f z :
  fs s !! filepath = Some f ->
  f_content f <> [] ->
  ZipFile E (f_content f) = inr z ->
  zip_testzip z = None ->
  zip_entries z <> [] ->
  zip_texts E extract filepath s =
    (r <~ entry_loop E extract (zip_entries z) false [] ;;
     if negb (fst r)
     then raise Exception_ "В ZIP архиве нет поддерживаемых файлов"
     else ret (snd r)) s.
Proof.
  intros Hf Hne Hz Ht Hen. unfold zip_texts.
  rewrite (bind_ok _ _ _ _ _ (getsize_eq filepath s f Hf)), (nonempty_size _ Hne).
  rewrite (bind_ok _ _ _ _ _ (read_file_eq filepath s f Hf)), Hz.
  unfold bind at 1. simpl lift. unfold ret at 1. rewrite Ht.
  destruct (zip_entries z); [congruence|]. reflexivity.
Qed.

(** X16.  The diagnosis of a ZIP and the extractor agree on what is
    supported.  For a ZIP file that opens, passes [testzip] and lists
    at least one name, [_diagnose_zip] reports "no supported files"
    exactly when no name is on the allowlist of the archive extractor,
    which is exactly when the extractor raises for that reason;
    otherwise it reports no problem, and the number of names on the
    allowlist out of all the names. *)
Theorem zip_diagnosis_agrees_with_the_extractor (E : env) (fuel : nat) (filepath : string)
        (s : state) (f : file) (z : zip_archive) :
  fs s !! filepath = Some f ->
  f_content f <> [] ->
  ZipFile E (f_content f) = inr z ->
  zip_testzip z = None ->
  zip_entries z <> [] ->
  let k := length (supported_members (zip_entries z)) in
  _diagnose_zip E (fs s) filepath =
    (if Nat.eqb k 0
     then {| problems := ["ZIP не содержит поддерживаемых файлов"];
             suggestions := ["Поддерживаемые форматы: .txt, .md, .pdf, .docx, .doc, .rtf"] |}
     else {| problems := [];
             suggestions := ["Найдено " ++ PyStr.of_nat k ++ " поддерживаемых файлов из "
                             ++ PyStr.of_nat (length (zip_entries z))] |}) /\
  (k = 0 <->
   fst (zip_texts E (extract_text E (S fuel)) filepath s) =
     Raise (mk_exn Exception_ "В ZIP архиве нет поддерживаемых файлов")).
Proof.
  intros Hf Hne Hz Ht Hen. cbv zeta. split.
  - unfold _diagnose_zip. rewrite Hf, Hz, Ht.
    destruct (zip_entries z) as [|en rest] eqn:Hall; [congruence|].
    rewrite <- Hall. replace (PyStr.is_nil (map entry_name (zip_entries z))) with false
      by (rewrite Hall; reflexivity).
    rewrite supported_files_members, !length_map.
    destruct (supported_members (zip_entries z)) as [|m ms]; reflexivity.
  - rewrite (zip_texts_opened E _ filepath s f z Hf Hne Hz Ht Hen).
    destruct (entry_loop_total E fuel (zip_entries z) false [] s) as (found & blocks & s1 & Hloop).
    rewrite (bind_ok _ _ _ _ _ Hloop). cbn [fst snd].
    pose proof (entry_loop_spec E _ _ _ _ _ _ _ Hloop) as (Hfound & _).
    cbn [orb] in Hfound. subst found.
    destruct (supported_members (zip_entries z)) as [|m ms]; cbn [PyStr.is_nil negb length].
    + split; [reflexivity|auto].
    + split; [discriminate|]. unfold ret. cbn [fst]. discriminate.
Qed.

Lemma zip_diagnosis_agrees_with_the_extractor_witness :
  _diagnose_zip Cases.album {[ "bundle.zip" := Lab.a_file ]} "bundle.zip" =
    {| problems := ["ZIP не содержит поддерживаемых файлов"];
       suggestions := ["Поддерживаемые форматы: .txt, .md, .pdf, .docx, .doc, .rtf"] |} /\
  _diagnose_zip Lab.scenario_c {[ "bundle.zip" := Lab.a_file ]} "bundle.zip" =
    {| problems := [];
       suggestions := ["Найдено 2 поддерживаемых файлов из 2"] |}.
Proof.
  split.
  - destruct (zip_diagnosis_agrees_with_the_extractor Cases.album 0 "bundle.zip"
                (Lab.fresh {[ "bundle.zip" := Lab.a_file ]}) Lab.a_file Cases.one_picture)
      as [H _];
      [vm_compute; reflexivity|discriminate|reflexivity|reflexivity|discriminate|].
    exact H.
  - destruct (zip_diagnosis_agrees_with_the_extractor Lab.scenario_c 0 "bundle.zip"
                (Lab.fresh {[ "bundle.zip" := Lab.a_file ]}) Lab.a_file
                Lab.notes_and_broken_pdf)
      as [H _];
      [vm_compute; reflexivity|discriminate|reflexivity|reflexivity|discriminate|].
    exact H.
Defined.

Lemma scan_pages_ok images pages : forall i has_text has_images,
  forallb page_answers pages = true ->
  scan_pages images i pages has_text has_images =
    inr (has_text || existsb page_has_text pages,
         has_images || existsb (fun j => negb (Nat.eqb (images j) 0)) (seq i (length pages))).
Proof.
  induction pages as [|page rest IH]; intros i ht hi Hok; cbn [scan_pages].
  - simpl. now rewrite !orb_false_r.
  - cbn [forallb] in Hok. apply andb_true_iff in Hok as [Hp Hrest].
    destruct page as [text|e]; [|discriminate].
    rewrite (IH _ _ _ Hrest). cbn [existsb length seq page_has_text].
    destruct text as [text|]; cbn [PyStr.has_text_opt]; now rewrite !orb_assoc.
Qed.

(** X17.  Scans are recognised.  For a PDF that pdfplumber opens and
    none of whose pages raises, [_diagnose_pdf] reports "only images
    (a scanned document)" exactly when no page has text and some page
    has a picture; and a PDF with text, without pictures and without
    the protection mark is diagnosed with no problem and no
    suggestion at all. *)
Theorem scanned_pdf_is_diagnosed_as_images_only (E : env) (Pr : probe)
        (files : gmap string file) (filepath : string) (f : file) (pages : list page_result) :
  files !! filepath = Some f ->
  pdfplumber_open E (f_content f) = inr pages ->
  forallb page_answers pages = true ->
  let has_text := existsb page_has_text pages in
  let has_images := has_picture (page_images Pr (f_content f)) (length pages) in
  (In "PDF содержит только изображения (отсканированный документ)"
      (problems (_diagnose_pdf E Pr files filepath)) <->
   has_text = false /\ has_images = true) /\
  (has_text = true -> has_images = false ->
   metadata_has_Encrypt Pr (f_content f) = false ->
   _diagnose_pdf E Pr files filepath = no_findings).
Proof.
  intros Hf Hopen Hok. cbv zeta. unfold _diagnose_pdf, has_picture.
  rewrite Hf, Hopen, (scan_pages_ok _ _ _ _ _ Hok). cbn [orb].
  destruct (existsb page_has_text pages) eqn:Ht;
    destruct (existsb _ (seq 0 (length pages))) eqn:Hi.
  - split.
    + split; [|intros [? _]; discriminate].
      unfold diagnose_layers. cbn [negb andb].
      destruct (Nat.eqb (length pages) 0), (metadata_has_Encrypt Pr (f_content f));
        cbn; intuition discriminate.
    + discriminate.
  - split.
    + split; [|intros [? _]; discriminate].
      unfold diagnose_layers. cbn [negb andb].
      destruct (Nat.eqb (length pages) 0), (metadata_has_Encrypt Pr (f_content f));
        cbn; intuition discriminate.
    + intros _ _ ->. destruct pages as [|p ps]; [discriminate|]. reflexivity.
  - split; [|discriminate]. split; [auto|intros _].
    unfold diagnose_layers, diagnose_poppler. cbn [negb andb].
    destruct (Nat.eqb (length pages) 0), (metadata_has_Encrypt Pr (f_content f)),
      (TESSERACT_AVAILABLE E), (pdf2image_installed E), (poppler_dir E), (pdftoppm_on_path E);
      cbn; auto 10.
  - split; [|discriminate].
    split; [|intros [_ ?]; discriminate].
    unfold diagnose_layers. cbn [negb andb].
    destruct (Nat.eqb (length pages) 0), (metadata_has_Encrypt Pr (f_content f));
      cbn; intuition discriminate.
Qed.

Lemma scanned_pdf_is_diagnosed_as_images_only_witness :
  In "PDF содержит только изображения (отсканированный документ)"
     (problems (_diagnose_pdf Lab.locked_scan Cases.pictures
                  {[ "scan.pdf" := Lab.a_file ]} "scan.pdf")) /\
  _diagnose_pdf Lab.cancel_after_first Cases.no_pictures
    {[ "book.pdf" := Lab.a_file ]} "book.pdf" = no_findings.
Proof.
  split.
  - destruct (scanned_pdf_is_diagnosed_as_images_only Lab.locked_scan Cases.pictures
                {[ "scan.pdf" := Lab.a_file ]} "scan.pdf" Lab.a_file (Lab.blank_pages 1))
      as [H _]; [vm_compute; reflexivity|reflexivity|reflexivity|].
    apply H. split; reflexivity.
  - destruct (scanned_pdf_is_diagnosed_as_images_only Lab.cancel_after_first Cases.no_pictures
                {[ "book.pdf" := Lab.a_file ]} "book.pdf" Lab.a_file Lab.three_pages)
      as [_ H]; [vm_compute; reflexivity|reflexivity|reflexivity|].
    apply H; vm_compute; reflexivity.
Defined.

(* ------------------------------------------------------------------ *)
(** ** The batch of the application *)

Lemma mem_In x l : PyStr.mem x l = true <-> In x l.
Proof.
  unfold PyStr.mem. rewrite existsb_exists. split.
  - intros (y & Hy & He). apply String.eqb_eq in He. now subst.
  - intros H. exists x. split; [exact H|apply String.eqb_refl].
Qed.

Lemma include_file_iff g ext :
  include_file g ext = true <->
  exists k, file_filters g k = true /\ PyStr.mem ext (SUPPORTED_EXTENSIONS_at k) = true.
Proof.
  unfold include_file. rewrite existsb_exists. split.
  - intros (k & _ & H). apply andb_true_iff in H. now exists k.
  - intros (k & H1 & H2). exists k. split; [destruct k; simpl; auto 10|].
    now rewrite H1, H2.
Qed.

Lemma supported_at_supported k ext :
  PyStr.mem ext (SUPPORTED_EXTENSIONS_at k) = true ->
  PyStr.mem ext SUPPORTED_EXTENSIONS = true.
Proof.
  unfold SUPPORTED_EXTENSIONS. rewrite !mem_app. intros H.
  destruct k; cbn [SUPPORTED_EXTENSIONS_at] in H; rewrite H; now rewrite ?orb_true_r.
Qed.

(** X18.  The files of a batch.  [get_filtered_files] returns exactly
    the files found by walking the selected folders whose lowered
    extension belongs to a category whose filter is on; so every file
    of a batch has an extension of the closed list, and a file all of
    whose categories are switched off is never in a batch. *)
Theorem batch_files_have_an_enabled_extension (D : desktop) (g : gui) (p : string) :
  (In p (get_filtered_files D g) <->
   (exists folder root dirs files file,
       In folder (selected_folders g) /\ In (root, dirs, files) (walk D folder) /\
       In file files /\ p = PyOs.join root file) /\
   (exists k, file_filters g k = true /\
              PyStr.mem (PyStr.lower (PyStr.suffix p)) (SUPPORTED_EXTENSIONS_at k) = true)) /\
  (In p (get_filtered_files D g) ->
   PyStr.mem (PyStr.lower (PyStr.suffix p)) SUPPORTED_EXTENSIONS = true) /\
  ((forall k, PyStr.mem (PyStr.lower (PyStr.suffix p)) (SUPPORTED_EXTENSIONS_at k) = true ->
              file_filters g k = false) ->
   ~ In p (get_filtered_files D g)).
Proof.
  assert (Hiff : In p (get_filtered_files D g) <->
     (exists folder root dirs files file,
         In folder (selected_folders g) /\ In (root, dirs, files) (walk D folder) /\
         In file files /\ p = PyOs.join root file) /\
     (exists k, file_filters g k = true /\
                PyStr.mem (PyStr.lower (PyStr.suffix p)) (SUPPORTED_EXTENSIONS_at k) = true)).
  { unfold get_filtered_files. rewrite List.in_flat_map. split.
    - intros (folder & Hfolder & H). apply List.in_flat_map in H as ([[root dirs] files] & Hw & H).
      apply List.filter_In in H as [H Hinc]. apply List.in_map_iff in H as (file & <- & Hfile).
      split; [now exists folder, root, dirs, files, file|].
      now apply include_file_iff.
    - intros [(folder & root & dirs & files & file & Hfolder & Hw & Hfile & ->) Hk].
      exists folder. split; [exact Hfolder|]. apply List.in_flat_map.
      exists (root, dirs, files). split; [exact Hw|]. apply List.filter_In. split.
      + apply List.in_map_iff. now exists file.
      + now apply include_file_iff. }
  split; [exact Hiff|]. split.
  - intros H. apply Hiff in H as [_ (k & _ & Hk)]. now apply (supported_at_supported k).
  - intros Hoff H. apply Hiff in H as [_ (k & Hon & Hk)].
    rewrite (Hoff k Hk) in Hon. discriminate.
Qed.

Lemma batch_files_have_an_enabled_extension_witness :
  get_filtered_files Cases.home Cases.window = ["docs/note.txt"; "docs/blank.txt"] /\
  PyStr.mem (PyStr.lower (PyStr.suffix "docs/note.txt")) SUPPORTED_EXTENSIONS = true /\
  ~ In "docs/setup.exe" (get_filtered_files Cases.home Cases.window).
Proof.
  split; [vm_compute; reflexivity|].
  destruct (batch_files_have_an_enabled_extension Cases.home Cases.window "docs/note.txt")
    as (_ & H & _).
  split; [apply H; vm_compute; auto|].
  destruct (batch_files_have_an_enabled_extension Cases.home Cases.window "docs/setup.exe")
    as (_ & _ & H').
  apply H'. intros k Hk. destruct k; vm_compute in Hk; discriminate.
Defined.

Lemma relpath_answers_fields D g g' :
  selected_folders g' = selected_folders g -> relpath_answers D g -> relpath_answers D g'.
Proof. intros Hsel (start & more & Hs & H). exists start, more. now rewrite Hsel. Qed.

(** [process_single_file] when [relpath] answers: the two ways it ends. *)
Lemma process_single_file_spec E D fuel filepath g s :
  relpath_answers D g ->
  exists text success s1 rp,
    extract_text E (S (S fuel)) filepath s = (Ok (text, success), s1) /\
    rp <> "" /\
    process_single_file E D (S (S fuel)) filepath g s =
      if success && PyStr.truthy (PyStr.strip text)
      then (Ok (Some rp),
            update_statistics filepath (PyOs.len text)
              (set_full_text_parts (full_text_parts g ++ [text_part rp text])
                 (log_message ("✅ " ++ rp) g)),
            s1)
      else (Ok None,
            log_error_file filepath "Не удалось извлечь текст или файл пустой" "ОБРАБОТКА"
              (set_failed_files (failed_files g ++ [rp]) (log_message ("❌ " ++ rp) g)),
            s1).
Proof.
  intros (start & more & Hsel & Hrel).
  destruct (extract_text_total E fuel filepath s) as ([text success] & s1 & Hrun).
  destruct (Hrel filepath) as (rp & Hrp & Hne).
  exists text, success, s1, rp. split; [exact Hrun|]. split; [exact Hne|].
  unfold process_single_file. rewrite Hrun. unfold relative_path. rewrite Hsel, Hrp.
  reflexivity.
Qed.

Lemma truthy_nonempty s : s <> "" -> PyStr.truthy s = true.
Proof. destruct s; [congruence|reflexivity]. Qed.

Lemma update_statistics_fields filepath n g :
  selected_folders (update_statistics filepath n g) = selected_folders g /\
  processed_files (update_statistics filepath n g) = processed_files g /\
  failed_files (update_statistics filepath n g) = failed_files g /\
  full_text_parts (update_statistics filepath n g) = full_text_parts g /\
  cancel_reads (update_statistics filepath n g) = cancel_reads g.
Proof.
  unfold update_statistics.
  destruct (match statistics g !! _ with Some entry => entry | None => (0, 0) end).
  repeat split.
Qed.

Lemma Cases_home_relpath_answers : relpath_answers Cases.home Cases.window.
Proof.
  exists "docs", []. split; [reflexivity|]. intros p. eexists. split; [reflexivity|].
  unfold Cases.below. destruct (if String.prefix _ p then _ else _); discriminate.
Qed.

(** X19.  The books of a batch.  With a [relpath] that answers, the
    loop of [process_files_thread] returns, having handled exactly the
    files that come before the first read of the cancel flag that is
    true, each counted once as processed or as failed.  A processed
    file adds one entry to [processed_files] and one part to
    [full_text_parts]; a failed file adds two entries to
    [failed_files], its relative path (in [process_single_file]) and
    its path (in the loop), so the list is twice as long as the number
    of files that failed. *)
Theorem failed_file_is_listed_twice (E : env) (D : desktop) (fuel : nat)
        (all_files : list string) : forall (processed_count failed_count : nat)
        (g : gui) (s : state),
  relpath_answers D g ->
  exists a b g' s',
    process_loop E D (S (S fuel)) all_files processed_count failed_count g s =
      (Ok (processed_count + a, failed_count + b), g', s') /\
    a + b = uncancelled (cancel_processing_at D) (cancel_reads g) (length all_files) /\
    length (processed_files g') = length (processed_files g) + a /\
    length (failed_files g') = length (failed_files g) + 2 * b /\
    length (full_text_parts g') = length (full_text_parts g) + a.
Proof.
  induction all_files as [|filepath rest IH]; intros pc fc g s Hrel.
  - exists 0, 0, g, s. cbn. rewrite !Nat.add_0_r. repeat split.
  - cbn [process_loop length uncancelled].
    destruct (cancel_processing_at D (cancel_reads g)).
    { eexists 0, 0, _, s. rewrite !Nat.add_0_r. repeat split. }
    set (g0 := set_cancel_reads (S (cancel_reads g)) g).
    assert (Hrel0 : relpath_answers D g0) by (revert Hrel; now apply relpath_answers_fields).
    destruct (process_single_file_spec E D fuel filepath g0 s Hrel0)
      as (text & success & s1 & rp & _ & Hne & ->).
    destruct (success && PyStr.truthy (PyStr.strip text)).
    + cbn [result_truthy]. rewrite (truthy_nonempty rp Hne).
      set (g1 := update_statistics _ _ _).
      destruct (update_statistics_fields filepath (PyOs.len text)
                  (set_full_text_parts (full_text_parts g0 ++ [text_part rp text])
                     (log_message ("✅ " ++ rp) g0))) as (U1 & U2 & U3 & U4 & U5).
      fold g1 in U1, U2, U3, U4, U5.
      set (g2 := log_message _ (set_processed_files _ g1)).
      assert (Hrel2 : relpath_answers D g2).
      { revert Hrel. apply relpath_answers_fields. unfold g2. simpl. now rewrite U1. }
      destruct (IH (S pc) fc g2 s1 Hrel2) as (a & b & g' & s' & Hrun & Hab & Hp & Hf & Ht).
      replace (S pc + a) with (pc + S a) in Hrun by lia.
      exists (S a), b, g', s'. rewrite Hrun.
      replace (cancel_reads g2) with (S (cancel_reads g)) in Hab
        by (unfold g2; simpl; now rewrite U5).
      unfold g2 in Hp, Hf, Ht. simpl in Hp, Hf, Ht. rewrite U2 in Hp. rewrite U3 in Hf.
      rewrite U4 in Ht. simpl in Hp, Hf, Ht. rewrite length_app in Hp, Ht. simpl in Hp, Ht.
      repeat split; lia.
    + cbn [result_truthy].
      set (g2 := log_message _ (set_failed_files _ _)).
      assert (Hrel2 : relpath_answers D g2).
      { revert Hrel. apply relpath_answers_fields. reflexivity. }
      destruct (IH pc (S fc) g2 s1 Hrel2) as (a & b & g' & s' & Hrun & Hab & Hp & Hf & Ht).
      replace (S fc + b) with (fc + S b) in Hrun by lia.
      exists a, (S b), g', s'. rewrite Hrun.
      change (cancel_reads g2) with (S (cancel_reads g)) in Hab.
      unfold g2 in Hp, Hf, Ht. simpl in Hp, Hf, Ht. rewrite !length_app in Hf. simpl in Hf.
      repeat split; lia.
Qed.

Lemma failed_file_is_listed_twice_witness :
  relpath_answers Cases.home Cases.window /\
  exists g' s',
    process_loop Lab.bare Cases.home 2 ["docs/note.txt"; "docs/blank.txt"] 0 0
                 Cases.window (Lab.fresh Cases.home_files) = (Ok (1, 1), g', s') /\
    processed_files g' = ["docs/note.txt"] /\
    failed_files g' = ["blank.txt"; "docs/blank.txt"].
Proof.
  split; [exact Cases_home_relpath_answers|].
  destruct (failed_file_is_listed_twice Lab.bare Cases.home 0
              ["docs/note.txt"; "docs/blank.txt"] 0 0 Cases.window
              (Lab.fresh Cases.home_files) Cases_home_relpath_answers)
    as (a & b & g' & s' & Hrun & _).
  exists g', s'. vm_compute in Hrun.
  injection Hrun as Ha Hb <- <-. subst a b. repeat split.
Defined.

Lemma count_ext_app ext l1 l2 :
  count_ext ext (l1 ++ l2) = count_ext ext l1 + count_ext ext l2.
Proof. unfold count_ext. now rewrite List.filter_app, length_app. Qed.

Lemma stats_match_same g g' :
  statistics g' = statistics g -> processed_files g' = processed_files g ->
  stats_match g -> stats_match g'.
Proof. intros Hs Hp H ext. rewrite Hs, Hp. apply H. Qed.

(** One processed file: the entry of its extension is counted up when
    the part is added, and the file joins [processed_files]. *)
Lemma stats_match_processed filepath n g g1 g2 :
  stats_match g ->
  statistics g1 = statistics g -> processed_files g1 = processed_files g ->
  statistics g2 = statistics (update_statistics filepath n g1) ->
  processed_files g2 = (processed_files g ++ [filepath])%list ->
  stats_match g2.
Proof.
  intros Hm Hs1 Hp1 Hs2 Hp2 ext. rewrite Hs2, Hp2, count_ext_app.
  unfold update_statistics. rewrite Hs1.
  set (ext0 := PyStr.lower (PyStr.suffix filepath)).
  pose proof (Hm ext0) as H0. pose proof (Hm ext) as He.
  destruct (statistics g !! ext0) as [[count total]|] eqn:Hl0; cbn [statistics set_statistics].
  - destruct (String.eqb ext0 ext) eqn:Heq.
    + apply String.eqb_eq in Heq. subst ext. rewrite lookup_insert_eq. cbn [option_map fst].
      unfold count_ext at 2 4. cbn [List.filter]. fold ext0. rewrite String.eqb_refl.
      cbn [length]. cbn [option_map fst] in H0.
      destruct (Nat.eqb (count_ext ext0 (processed_files g)) 0) eqn:Hz; [discriminate|].
      injection H0 as ->.
      replace (Nat.eqb (count_ext ext0 (processed_files g) + 1) 0) with false
        by (symmetry; apply Nat.eqb_neq; lia).
      reflexivity.
    + rewrite lookup_insert_ne by (intros ->; now rewrite String.eqb_refl in Heq).
      unfold count_ext at 2 4. cbn [List.filter]. fold ext0. rewrite Heq. cbn [length].
      rewrite !Nat.add_0_r. exact He.
  - destruct (String.eqb ext0 ext) eqn:Heq.
    + apply String.eqb_eq in Heq. subst ext. rewrite lookup_insert_eq. cbn [option_map fst].
      unfold count_ext at 2 4. cbn [List.filter]. fold ext0. rewrite String.eqb_refl.
      cbn [length]. cbn [option_map] in H0.
      destruct (Nat.eqb (count_ext ext0 (processed_files g)) 0) eqn:Hz; [|discriminate].
      apply Nat.eqb_eq in Hz. rewrite Hz. reflexivity.
    + rewrite lookup_insert_ne by (intros ->; now rewrite String.eqb_refl in Heq).
      unfold count_ext at 2 4. cbn [List.filter]. fold ext0. rewrite Heq. cbn [length].
      rewrite !Nat.add_0_r. exact He.
Qed.

(** X20.  The statistics of a batch.  With a [relpath] that answers,
    the loop keeps [statistics] in step with [processed_files]: if
    before it the count of every extension is the number of processed
    files with that extension (as after [start_processing], when both
    are empty), the same holds after it, and an extension with no
    processed file has no entry. *)
Theorem statistics_count_the_processed_files (E : env) (D : desktop) (fuel : nat)
        (all_files : list string) : forall (processed_count failed_count : nat)
        (g : gui) (s : state),
  relpath_answers D g ->
  stats_match g ->
  stats_match (snd (fst (process_loop E D (S (S fuel)) all_files
                           processed_count failed_count g s))).
Proof.
  induction all_files as [|filepath rest IH]; intros pc fc g s Hrel Hm.
  - exact Hm.
  - cbn [process_loop].
    destruct (cancel_processing_at D (cancel_reads g)).
    { cbn [fst snd]. revert Hm. now apply stats_match_same. }
    set (g0 := set_cancel_reads (S (cancel_reads g)) g).
    assert (Hrel0 : relpath_answers D g0) by (revert Hrel; now apply relpath_answers_fields).
    destruct (process_single_file_spec E D fuel filepath g0 s Hrel0)
      as (text & success & s1 & rp & _ & Hne & ->).
    destruct (success && PyStr.truthy (PyStr.strip text)).
    + cbn [result_truthy]. rewrite (truthy_nonempty rp Hne).
      set (g1 := update_statistics _ _ _).
      destruct (update_statistics_fields filepath (PyOs.len text)
                  (set_full_text_parts (full_text_parts g0 ++ [text_part rp text])
                     (log_message ("✅ " ++ rp) g0))) as (U1 & U2 & _).
      fold g1 in U1, U2.
      apply IH.
      * revert Hrel. apply relpath_answers_fields.
        transitivity (selected_folders g1); [reflexivity|]. now rewrite U1.
      * apply (stats_match_processed filepath (PyOs.len text) g
                 (set_full_text_parts (full_text_parts g0 ++ [text_part rp text])
                    (log_message ("✅ " ++ rp) g0))); auto.
        transitivity (processed_files g1 ++ [filepath])%list; [reflexivity|]. now rewrite U2.
    + cbn [result_truthy]. apply IH.
      * revert Hrel. now apply relpath_answers_fields.
      * revert Hm. now apply stats_match_same.
Qed.

Lemma statistics_count_the_processed_files_witness :
  stats_match Cases.window /\
  option_map fst
    (statistics (snd (fst (process_loop Lab.bare Cases.home 2
                             ["docs/note.txt"; "docs/blank.txt"] 0 0
                             Cases.window (Lab.fresh Cases.home_files)))) !! ".txt") =
    Some 1.
Proof.
  assert (Hm : stats_match Cases.window) by (intros ext; reflexivity).
  split; [exact Hm|].
  rewrite (statistics_count_the_processed_files Lab.bare Cases.home 0
             ["docs/note.txt"; "docs/blank.txt"] 0 0 Cases.window
             (Lab.fresh Cases.home_files) Cases_home_relpath_answers Hm ".txt").
  vm_compute. reflexivity.
Defined.

(* ------------------------------------------------------------------ *)
(** ** Pages that cannot be read *)

Lemma simple_page_loop_run pages : forall i texts s,
  simple_page_loop i pages texts s =
    (Ok (texts ++ page_blocks Pdfplumber i (until_failure pages))%list,
     set_trace (trace s ++ map (PageQuery Pdfplumber) (seq i (asked pages))) s).
Proof.
  induction pages as [|page rest IH]; intros i texts s; cbn [simple_page_loop].
  - simpl. rewrite !app_nil_r. now destruct s.
  - unfold bind at 1, emit at 1.
    destruct page as [[text|]|e]; cbn [until_failure asked page_blocks seq map].
    + destruct (PyStr.has_text text); rewrite IH; cbn [trace set_trace];
        rewrite <- ?app_assoc; reflexivity.
    + rewrite IH. cbn [trace set_trace]. rewrite <- ?app_assoc. reflexivity.
    + rewrite app_nil_r. reflexivity.
Qed.

Lemma uncancelled_never c from n :
  (forall k, c k = false) -> uncancelled c from n = n.
Proof.
  intros Hc. revert from. induction n as [|n IH]; intros from; [reflexivity|].
  cbn [uncancelled]. now rewrite Hc, IH.
Qed.

(** X21.  A page that raises.  In the simplified path for PDF members
    of an archive the text pass ends at the first page whose
    extraction raises: the blocks are those of the pages before it,
    and no page after it is asked.  In the page loops of
    [_extract_from_pdf] such a page is passed over: when nobody
    cancels, every page is asked and every page with text gives its
    block. *)
Theorem unreadable_page_ends_the_simplified_pass (E : env) (l : pdf_lib)
        (pages : list page_result) (i : nat) (texts : list string) (s : state) :
  simple_page_loop i pages texts s =
    (Ok (texts ++ page_blocks Pdfplumber i (until_failure pages))%list,
     set_trace (trace s ++ map (PageQuery Pdfplumber) (seq i (asked pages))) s) /\
  ((forall k, cancelled_at E k = false) ->
   exists s',
     page_loop E l i pages texts s = (Ok (texts ++ page_blocks l i pages)%list, s') /\
     trace s' = (trace s ++ map (PageQuery l) (seq i (length pages)))%list).
Proof.
  split; [apply simple_page_loop_run|].
  intros Hnever. rewrite page_loop_run.
  rewrite (uncancelled_never _ _ _ Hnever), firstn_all.
  eexists. split; [reflexivity|]. reflexivity.
Qed.

Lemma unreadable_page_ends_the_simplified_pass_witness :
  fst (simple_page_loop 0 Cases.torn [] (Lab.fresh ∅)) =
    Ok ["--- СТРАНИЦА 1 ---" ++ PyStr.nl ++ "one"] /\
  exists s',
    page_loop Lab.bare Pdfplumber 0 Cases.torn [] (Lab.fresh ∅) =
      (Ok ["--- СТРАНИЦА 1 ---" ++ PyStr.nl ++ "one";
           "--- СТРАНИЦА 3 ---" ++ PyStr.nl ++ "three"], s') /\
    trace s' = [PageQuery Pdfplumber 0; PageQuery Pdfplumber 1; PageQuery Pdfplumber 2].
Proof.
  destruct (unreadable_page_ends_the_simplified_pass Lab.bare Pdfplumber Cases.torn 0 []
              (Lab.fresh ∅)) as [H1 H2].
  split; [rewrite H1; reflexivity|].
  destruct (H2 (fun k => eq_refl)) as (s' & Hrun & Htrace).
  exists s'. split; [exact Hrun|exact Htrace].
Defined.

(* ------------------------------------------------------------------ *)
(** ** Formats that need a tool that is not installed *)

(** X22.  Missing tools.  Without Tesseract an image, and without
    textract a [.doc] or [.rtf] file, that is not in the cache is
    reported as a failure with the empty text; the reason is logged
    once; and the file is not even opened, so this is also what a path
    with no file gives. *)
Theorem missing_tool_fails_without_opening_the_file (E : env) (fuel : nat)
        (filepath : string) (s : state) :
  get_cached_text filepath s = (Ok None, s) ->
  let ext := PyStr.lower (PyStr.suffix filepath) in
  (PyStr.mem ext SUPPORTED_images = true -> TESSERACT_AVAILABLE E = false ->
   extract_text E (S fuel) filepath s =
     (Ok ("", false),
      set_error_log
        (error_log s ++
         [failure_message filepath (mk_exn ImportError_ "pytesseract не установлен")])
        (set_trace (trace s ++ [Enter XImage filepath]) s))) /\
  (PyStr.mem ext [".doc"; ".rtf"] = true -> TEXTTRACT_AVAILABLE E = false ->
   exists m,
     extract_text E (S fuel) filepath s =
       (Ok ("", false),
        set_error_log
          (error_log s ++ [failure_message filepath (mk_exn ImportError_ m)])
          (set_trace (trace s ++ [Enter XLegacyDoc filepath]) s))).
Proof.
  intros Hmiss. cbv zeta. split.
  - intros Himg Ht. rewrite (extract_text_miss E fuel filepath s Hmiss).
    unfold dispatch. rewrite Himg.
    replace (PyStr.mem (PyStr.lower (PyStr.suffix filepath)) SUPPORTED_pdfs) with false.
    2:{ symmetry. revert Himg. unfold PyStr.mem, SUPPORTED_images, SUPPORTED_pdfs.
        cbn [existsb]. rewrite !orb_false_r. intros H.
        repeat (apply orb_true_iff in H; destruct H as [H|H]);
          apply String.eqb_eq in H; now rewrite H. }
    unfold _extract_from_image. rewrite Ht. reflexivity.
  - intros Hdoc Ht. eexists. rewrite (extract_text_miss E fuel filepath s Hmiss).
    unfold dispatch. rewrite Hdoc.
    assert (Hothers : PyStr.mem (PyStr.lower (PyStr.suffix filepath)) SUPPORTED_pdfs = false /\
                      PyStr.mem (PyStr.lower (PyStr.suffix filepath)) SUPPORTED_images = false /\
                      String.eqb (PyStr.lower (PyStr.suffix filepath)) ".docx" = false).
    { revert Hdoc. unfold PyStr.mem, SUPPORTED_images, SUPPORTED_pdfs.
      cbn [existsb]. rewrite !orb_false_r. intros H.
      apply orb_true_iff in H; destruct H as [H|H];
        apply String.eqb_eq in H; now rewrite H. }
    destruct Hothers as (-> & -> & ->).
    unfold _extract_from_legacy_doc. rewrite Ht. reflexivity.
Qed.

Lemma missing_tool_fails_without_opening_the_file_witness :
  fst (extract_text Lab.bare 1 "photo.JPG" (Lab.fresh ∅)) = Ok ("", false) /\
  error_log (snd (extract_text Lab.bare 1 "photo.JPG" (Lab.fresh ∅))) =
    ["Ошибка при обработке photo.JPG: pytesseract не установлен"].
Proof.
  destruct (missing_tool_fails_without_opening_the_file Lab.bare 0 "photo.JPG" (Lab.fresh ∅))
    as [H _]; [vm_compute; reflexivity|].
  rewrite H; [|vm_compute; reflexivity|reflexivity]. split; reflexivity.
Defined.

(* ------------------------------------------------------------------ *)
(** ** The start-up report *)

Lemma prefix_app n r : String.prefix n (n ++ r) = true.
Proof.
  induction n as [|c n IH]; simpl; [now destruct r|].
  destruct (Ascii.ascii_dec c c); [exact IH|congruence].
Qed.

Lemma contains_unfold n h :
  PyStr.contains n h =
    String.prefix n h ||
    match h with EmptyString => false | String _ r => PyStr.contains n r end.
Proof. destruct h; reflexivity. Qed.

Lemma contains_prefix n r : PyStr.contains n (n ++ r) = true.
Proof. now rewrite contains_unfold, prefix_app. Qed.

(** X23.  The start-up report.  [check_dependencies] reports that all
    components are installed exactly when Tesseract (the Python
    binding and the program) and textract are there.  When something
    of Tesseract is missing it lists that, and only that: a missing
    textract is mentioned only when it is the one thing missing, as an
    optional component. *)
Theorem startup_report_mentions_textract_only_alone (E : env) (tesseract_ok : bool)
        (tesseract_msg : string) (g : gui) :
  log_text (check_dependencies E (tesseract_ok, tesseract_msg) g) =
    (log_text g ++
     if TESSERACT_AVAILABLE E && tesseract_ok then
       if TEXTTRACT_AVAILABLE E then ["✅ Все компоненты установлены"]
       else ["ℹ️ Дополнительные возможности:";
             "  - textract (для старых форматов .doc/.rtf)";
             "📋 Эти компоненты необязательны, программа работает без них"]
     else
       ["⚠️ Отсутствуют важные компоненты:"] ++
       (if TESSERACT_AVAILABLE E then [] else ["  - pytesseract"]) ++
       (if tesseract_ok then [] else [("  - Tesseract OCR: " ++ tesseract_msg)%string]) ++
       ["📋 Для полной функциональности установите Tesseract OCR"])%list.
Proof.
  unfold check_dependencies, get_missing_dependencies.
  pose proof (contains_prefix "Tesseract OCR" (": " ++ tesseract_msg)) as Hc.
  change ("Tesseract OCR" ++ ": " ++ tesseract_msg)
    with ("Tesseract OCR: " ++ tesseract_msg) in Hc.
  destruct (TESSERACT_AVAILABLE E), (TEXTTRACT_AVAILABLE E), tesseract_ok;
    cbn [negb andb app sort_missing]; rewrite ?Hc;
    repeat (match goal with
            | |- context [PyStr.contains ?a ?b] =>
                let v := eval vm_compute in (PyStr.contains a b) in
                change (PyStr.contains a b) with v
            end);
    cbn [orb app sort_missing PyStr.is_nil negb log_each fold_left log_message set_log_text
         log_text]; rewrite <- ?app_assoc; reflexivity.
Qed.

(* ------------------------------------------------------------------ *)
(** ** No OCR without Tesseract *)

#[local] Instance no_ocr_preorder : PreOrder no_ocr.
Proof.
  split.
  - intros s. exists []. now rewrite app_nil_r.
  - intros s1 s2 s3 (t1 & T1 & N1) (t2 & T2 & N2). exists (t1 ++ t2)%list.
    rewrite T2, T1, app_assoc. split; [reflexivity|].
    now rewrite forallb_app, N1, N2.
Qed.

Lemma same_trace_no_ocr {A} (m : M A) :
  (forall s r s', m s = (r, s') -> trace s' = trace s) -> preserves no_ocr m.
Proof. intros H s r s' Hm. exists []. rewrite app_nil_r. split; [eauto|reflexivity]. Qed.

Lemma no_ocr_emit ev : is_ocr_event ev = false -> preserves no_ocr (emit ev).
Proof. intros Hev s r s' [= _ <-]. exists [ev]. simpl. now rewrite Hev. Qed.
Lemma no_ocr_read_cancelled E : preserves no_ocr (read_cancelled E).
Proof. apply same_trace_no_ocr. now intros s r s' [= _ <-]. Qed.
Lemma no_ocr_temp sfx content : preserves no_ocr (NamedTemporaryFile sfx content).
Proof. apply same_trace_no_ocr. now intros s r s' [= _ <-]. Qed.
Lemma no_ocr_unlink p : preserves no_ocr (unlink p).
Proof. apply same_trace_no_ocr. now intros s r s' [= _ <-]. Qed.
Lemma no_ocr_log_error m : preserves no_ocr (log_error m).
Proof. apply same_trace_no_ocr. now intros s r s' [= _ <-]. Qed.
Lemma no_ocr_cache_text p t : preserves no_ocr (cache_text p t).
Proof. apply same_trace_no_ocr. now intros s r s' [= _ <-]. Qed.

#[export] Hint Resolve no_ocr_read_cancelled no_ocr_temp no_ocr_unlink no_ocr_log_error
  no_ocr_cache_text : frames.
#[export] Hint Extern 1 (preserves no_ocr (emit _)) =>
  (apply no_ocr_emit; reflexivity) : frames.

Lemma page_loop_no_ocr E l pages : forall i texts,
  preserves no_ocr (page_loop E l i pages texts).
Proof. induction pages as [|page rest IH]; intros i texts; simpl; frame. Qed.

Lemma simple_page_loop_no_ocr pages : forall i texts,
  preserves no_ocr (simple_page_loop i pages texts).
Proof. induction pages as [|page rest IH]; intros i texts; simpl; frame. Qed.

Section NoOcr.

Variable E : env.
Hypothesis Htesseract : TESSERACT_AVAILABLE E = false.

Lemma extract_from_pdf_no_ocr filepath : preserves no_ocr (_extract_from_pdf E filepath).
Proof.
  pose proof (page_loop_no_ocr E).
  unfold _extract_from_pdf, when_empty, primary_parse, primary_handler, secondary_parse,
    tertiary_parse, tertiary_handler, ocr_recovery.
  rewrite Htesseract. cbn [negb]. frame.
Qed.

Lemma extract_from_pdf_simple_no_ocr filepath :
  preserves no_ocr (_extract_from_pdf_simple E filepath).
Proof.
  pose proof simple_page_loop_no_ocr.
  unfold _extract_from_pdf_simple, simple_ocr. rewrite Htesseract. cbn [negb]. frame.
Qed.

Lemma simple_extractors_no_ocr filepath :
  preserves no_ocr (_extract_from_image E filepath) /\
  preserves no_ocr (_extract_from_docx E filepath) /\
  preserves no_ocr (_extract_from_legacy_doc E filepath) /\
  preserves no_ocr (_extract_from_text E filepath).
Proof.
  pose proof (text_loop_preserves no_ocr E encodings filepath).
  unfold _extract_from_image, _extract_from_docx, _extract_from_legacy_doc, _extract_from_text.
  repeat split; frame.
Qed.

Lemma extract_from_archive_no_ocr extract filepath :
  (forall p, preserves no_ocr (extract p)) ->
  preserves no_ocr (_extract_from_archive E extract filepath).
Proof.
  intros Hextract.
  pose proof extract_from_pdf_simple_no_ocr as Hsimple.
  assert (Hloop : forall entries found all_texts,
            preserves no_ocr (entry_loop E extract entries found all_texts)).
  { induction entries as [|en rest IH]; intros found all_texts; cbn [entry_loop].
    - frame.
    - unfold member, temp_member, pdf_member, document_member. frame. }
  unfold _extract_from_archive, zip_texts. frame.
Qed.

Lemma extract_text_no_ocr fuel : forall filepath,
  preserves no_ocr (extract_text E fuel filepath).
Proof.
  induction fuel as [|fuel IH]; intros filepath; [apply preserves_out_of_fuel; exact _|].
  cbn [extract_text].
  destruct (simple_extractors_no_ocr filepath) as (Himg & Hdocx & Hdoc & Htxt).
  pose proof (extract_from_pdf_no_ocr filepath).
  pose proof (extract_from_archive_no_ocr (extract_text E fuel) filepath IH).
  unfold dispatch. frame.
Qed.

End NoOcr.

(** X24.  No OCR without Tesseract.  When Tesseract is not available,
    [extract_text] never rasterizes a PDF and never hands a page
    image to Tesseract, for any path, PDF members of archives
    included: the trace of the call has no event of the OCR tool
    chain. *)
Theorem no_page_is_rasterized_without_tesseract (E : env) (fuel : nat) (filepath : string)
        (s : state) :
  TESSERACT_AVAILABLE E = false ->
  exists t,
    trace (snd (extract_text E fuel filepath s)) = (trace s ++ t)%list /\
    forall ev, In ev t -> is_ocr_event ev = false.
Proof.
  intros Ht. destruct (extract_text E fuel filepath s) as [r s'] eqn:Hrun.
  destruct (extract_text_no_ocr E Ht fuel filepath s r s' Hrun) as (t & T & N).
  exists t. split; [exact T|]. intros ev Hin.
  rewrite forallb_forall in N. specialize (N ev Hin). now destruct (is_ocr_event ev).
Qed.

Lemma no_page_is_rasterized_without_tesseract_witness :
  exists t,
    trace (snd (extract_text Lab.scenario_c 2 "bundle.zip"
                  (Lab.fresh {[ "bundle.zip" := Lab.a_file ]}))) = t /\
    forall ev, In ev t -> is_ocr_event ev = false.
Proof.
  destruct (no_page_is_rasterized_without_tesseract Lab.scenario_c 2 "bundle.zip"
              (Lab.fresh {[ "bundle.zip" := Lab.a_file ]}) eq_refl) as (t & T & N).
  exists t. split; [exact T|exact N].
Defined.
